(** * Service integration tool (n8n-installer): analysis and integration

    A shallow embedding of [scripts/integrate/analyze_and_integrate.py] and of
    its older copy [scripts/analyze_and_integrate.py].

    - Text is modelled by [string] (one [ascii] per character); the Python
      character classes [\s], [\d], [\w] and [str.lower]/[str.upper] are
      given on the ASCII range.
    - A Python [dict] is a [gmap string pyval]; a dict literal with [**]
      unpacking is a right-biased union.
    - Exceptions, [input()], the files and directories of the project and
      the temporary workspace are threaded through a state-and-exception
      monad [M].
    - The regular expressions of the program are values of [regex], run by a
      backtracking matcher with the priorities of Python's [re].
    - The [print] calls only narrate: they change nothing and cannot raise,
      and are left out.  The prompts of [input] are kept. *)

From Stdlib Require Import Ascii String.
From stdpp Require Import base option list gmap strings pretty.

#[local] Arguments String.append !_ _ : simpl nomatch.

(** ** Characters and text *)

Definition chr (n : nat) : ascii := ascii_of_nat n.
Definition ord (c : ascii) : nat := nat_of_ascii c.

Definition nl_char : ascii := chr 10.
Definition dq_char : ascii := chr 34.
Definition sq_char : ascii := chr 39.
Definition bs_char : ascii := chr 92.

Definition nl : string := String nl_char EmptyString.
Definition dq : string := String dq_char EmptyString.
Definition sq : string := String sq_char EmptyString.
Definition bs : string := String bs_char EmptyString.

Definition in_range (lo hi : nat) (c : ascii) : bool :=
  (lo <=? ord c) && (ord c <=? hi).

Definition is_char (a : ascii) (c : ascii) : bool := Ascii.eqb a c.

Definition is_lower (c : ascii) : bool := in_range 97 122 c.
Definition is_upper (c : ascii) : bool := in_range 65 90 c.
Definition is_digit (c : ascii) : bool := in_range 48 57 c.
Definition is_octdigit (c : ascii) : bool := in_range 48 55 c.
Definition is_letter (c : ascii) : bool := is_lower c || is_upper c.

(** [\s]: the ASCII characters for which [str.isspace] holds. *)
Definition is_space (c : ascii) : bool :=
  in_range 9 13 c || in_range 28 32 c.

(** [\w] *)
Definition is_word (c : ascii) : bool :=
  is_letter c || is_digit c || is_char "_"%char c.

(** [.] without [re.DOTALL] *)
Definition not_newline (c : ascii) : bool := negb (is_char nl_char c).

(** [.] with [re.DOTALL] *)
Definition any_char (c : ascii) : bool := true.

Definition lower_char (c : ascii) : ascii :=
  if is_upper c then chr (ord c + 32) else c.
Definition upper_char (c : ascii) : ascii :=
  if is_lower c then chr (ord c - 32) else c.

Fixpoint string_map (f : ascii → ascii) (s : string) : string :=
  match s with
  | EmptyString => EmptyString
  | String c t => String (f c) (string_map f t)
  end.

Fixpoint string_filter (p : ascii → bool) (s : string) : string :=
  match s with
  | EmptyString => EmptyString
  | String c t => if p c then String c (string_filter p t) else string_filter p t
  end.

Fixpoint string_forall (p : ascii → bool) (s : string) : bool :=
  match s with
  | EmptyString => true
  | String c t => p c && string_forall p t
  end.

Fixpoint string_take (n : nat) (s : string) : string :=
  match n, s with
  | S m, String c t => String c (string_take m t)
  | _, _ => EmptyString
  end.

Fixpoint string_drop (n : nat) (s : string) : string :=
  match n, s with
  | S m, String c t => string_drop m t
  | _, _ => s
  end.

Fixpoint string_rev_onto (s acc : string) : string :=
  match s with
  | EmptyString => acc
  | String c t => string_rev_onto t (String c acc)
  end.
Definition string_rev (s : string) : string := string_rev_onto s EmptyString.

(** [s.lower()], [s.upper()] *)
Definition lower (s : string) : string := string_map lower_char s.
Definition upper (s : string) : string := string_map upper_char s.

(** [s.replace(c, '')] for a one-character [c] *)
Definition remove_char (a : ascii) (s : string) : string :=
  string_filter (λ c, negb (is_char a c)) s.

(** [s.startswith(a)], as the remainder after [a] *)
Fixpoint strip_prefix (a s : string) : option string :=
  match a with
  | EmptyString => Some s
  | String x a' =>
      match s with
      | String y s' => if Ascii.eqb x y then strip_prefix a' s' else None
      | EmptyString => None
      end
  end.

(** The first occurrence of [a] in [s]: the text before it and after it. *)
Fixpoint find_first (a s : string) : option (string * string) :=
  match strip_prefix a s with
  | Some post => Some (EmptyString, post)
  | None =>
      match s with
      | String c t =>
          match find_first a t with
          | Some (pre, post) => Some (String c pre, post)
          | None => None
          end
      | EmptyString => None
      end
  end.

(** [a in s] *)
Definition contains (a s : string) : bool := bool_decide (is_Some (find_first a s)).

(** The number of positions of [s] at which [a] occurs. *)
Fixpoint occurrences (a s : string) : nat :=
  (match strip_prefix a s with Some _ => 1 | None => 0 end) +
  match s with
  | String _ t => occurrences a t
  | EmptyString => 0
  end.

Fixpoint lstrip (s : string) : string :=
  match s with
  | String c t => if is_space c then lstrip t else s
  | EmptyString => EmptyString
  end.

(** [s.strip()] *)
Definition strip (s : string) : string :=
  string_rev (lstrip (string_rev (lstrip s))).

(** [s.split('\n')] *)
Fixpoint split_on (a : ascii) (s : string) : list string :=
  match s with
  | EmptyString => [EmptyString]
  | String c t =>
      if Ascii.eqb a c then EmptyString :: split_on a t
      else match split_on a t with
           | w :: ws => String c w :: ws
           | [] => [String c EmptyString]
           end
  end.

(** [sep.join(l)] *)
Fixpoint join (sep : string) (l : list string) : string :=
  match l with
  | [] => EmptyString
  | [w] => w
  | w :: ws => w +:+ sep +:+ join sep ws
  end.

Definition concat_strings (l : list string) : string :=
  foldr String.append EmptyString l.

(** ** Regular expressions

    The fragment of [re] syntax the program uses.  Repetition is over one
    character class, which is all the program's patterns need; there is
    one capturing group. *)

Inductive regex : Type :=
| RChar (p : ascii → bool)
| REmpty
| RSeq (a b : regex)
| RAlt (a b : regex)
| RRepeat (greedy : bool) (lo : nat) (p : ascii → bool)
| RGroup (a : regex)
| RLookahead (a : regex)
| RBol
| REol
| REndZ.

(** [p{lo,}] or [p{lo,}?] followed by the continuation [k]. *)
Fixpoint repeat_match {R : Type} (greedy : bool) (p : ascii → bool)
    (k : option ascii → string → option R)
    (lo : nat) (prev : option ascii) (s : string) : option R :=
  match s with
  | String c t =>
      if p c then
        match lo with
        | S lo' => repeat_match greedy p k lo' (Some c) t
        | O =>
            if greedy then
              match repeat_match greedy p k O (Some c) t with
              | Some r => Some r
              | None => k prev s
              end
            else
              match k prev s with
              | Some r => Some r
              | None => repeat_match greedy p k O (Some c) t
              end
        end
      else
        match lo with
        | O => k prev s
        | S _ => None
        end
  | EmptyString =>
      match lo with
      | O => k prev s
      | S _ => None
      end
  end.

(** [rmatch r prev s g k]: match [r] at the front of [s], where [prev] is
    the character before [s] and [g] the text of group 1 so far, then
    continue with [k]; alternatives are tried in Python's order. *)
Fixpoint rmatch (r : regex) (R : Type) (prev : option ascii) (s : string)
    (g : option string)
    (k : option ascii → string → option string → option R) : option R :=
  match r with
  | RChar p =>
      match s with
      | String c t => if p c then k (Some c) t g else None
      | EmptyString => None
      end
  | REmpty => k prev s g
  | RSeq a b => rmatch a R prev s g (λ pv t g', rmatch b R pv t g' k)
  | RAlt a b =>
      match rmatch a R prev s g k with
      | Some r => Some r
      | None => rmatch b R prev s g k
      end
  | RRepeat greedy lo p =>
      repeat_match greedy p (λ pv t, k pv t g) lo prev s
  | RGroup a =>
      rmatch a R prev s g
        (λ pv t _, k pv t (Some (string_take (String.length s - String.length t) s)))
  | RLookahead a =>
      match rmatch a (option string) prev s g (λ _ _ g', Some g') with
      | Some g' => k prev s g'
      | None => None
      end
  | RBol =>
      match prev with
      | None => k prev s g
      | Some c => if is_char nl_char c then k prev s g else None
      end
  | REol =>
      match s with
      | EmptyString => k prev s g
      | String c _ => if is_char nl_char c then k prev s g else None
      end
  | REndZ =>
      match s with
      | EmptyString => k prev s g
      | String _ _ => None
      end
  end.
Arguments rmatch r {R} prev s g k.

(** A literal text, and a literal text under [re.IGNORECASE]. *)
Fixpoint lit (w : string) : regex :=
  match w with
  | EmptyString => REmpty
  | String c t => RSeq (RChar (is_char c)) (lit t)
  end.

Definition is_char_ci (a c : ascii) : bool :=
  Ascii.eqb (lower_char a) (lower_char c).

Fixpoint lit_ci (w : string) : regex :=
  match w with
  | EmptyString => REmpty
  | String c t => RSeq (RChar (is_char_ci c)) (lit_ci t)
  end.

Definition rplus (p : ascii → bool) : regex := RRepeat true 1 p.
Definition rstar_lazy (p : ascii → bool) : regex := RRepeat false 0 p.
Definition rplus_lazy (p : ascii → bool) : regex := RRepeat false 1 p.
Definition ropt (p : ascii → bool) : regex := RAlt (RChar p) REmpty.

Fixpoint rseq (l : list regex) : regex :=
  match l with
  | [] => REmpty
  | [r] => r
  | r :: rs => RSeq r (rseq rs)
  end.

(** The match of [r] at the front of [s]: the remainder and group 1. *)
Definition match_here (r : regex) (prev : option ascii) (s : string)
    : option (string * option string) :=
  rmatch r prev s None (λ _ t g, Some (t, g)).

Record re_match := ReMatch {
  m_before : string;       (* text before the match *)
  m_text : string;         (* group 0 *)
  m_group1 : option string;
  m_after : string         (* text after the match *)
}.

Fixpoint search_from (r : regex) (prev : option ascii) (s : string) : option re_match :=
  match match_here r prev s with
  | Some (t, g) =>
      Some (ReMatch EmptyString (string_take (String.length s - String.length t) s) g t)
  | None =>
      match s with
      | String c t =>
          match search_from r (Some c) t with
          | Some m => Some (ReMatch (String c (m_before m)) (m_text m) (m_group1 m) (m_after m))
          | None => None
          end
      | EmptyString => None
      end
  end.

(** [re.search(r, s)] *)
Definition re_search (r : regex) (s : string) : option re_match :=
  search_from r None s.

(** [m.group(1)] *)
Definition group1 (m : re_match) : string := default EmptyString (m_group1 m).

(** The matches of [r] in [s] from left to right, without overlap: group 1
    of each.  None of the patterns used with [findall] or with a global
    [sub] can match the empty text, and the scan moves by one character
    after an empty match. *)
Fixpoint scan_matches (r : regex) (prev : option ascii) (s : string) (skip : nat)
    : list string :=
  match s with
  | EmptyString => []
  | String c t =>
      match skip with
      | S n => scan_matches r (Some c) t n
      | O =>
          match match_here r prev s with
          | Some (u, g) =>
              default EmptyString g
                :: scan_matches r (Some c) t (String.length s - String.length u - 1)
          | None => scan_matches r (Some c) t 0
          end
      end
  end.

(** [re.findall(r, s)] for a pattern with one group *)
Definition re_findall (r : regex) (s : string) : list string :=
  scan_matches r None s 0.

(** ** Exceptions and results *)

Inductive exn : Set :=
| KeyError | IndexError | TypeError | AttributeError | EOFError
| FileNotFoundError | CalledProcessError | JSONDecodeError
| ReError.     (* re.error *)

Inductive result (A : Type) : Type :=
| Ok (a : A)
| Raise (e : exn).
Arguments Ok {A} a.
Arguments Raise {A} e.

Definition rbind {A B} (r : result A) (f : A → result B) : result B :=
  match r with
  | Ok a => f a
  | Raise e => Raise e
  end.

(** ** Replacement templates of [re.sub]

    [re.sub] compiles a replacement that holds a backslash before it looks
    for a match: [\1] and [\g<1>] refer to the group, [\n] and the like
    are control characters, a backslash before another ASCII letter is an
    error, and so is a reference to a group the pattern does not have. *)

Inductive tpart : Set :=
| TLit (c : ascii)
| TGroup (n : nat).

Definition digit_val (c : ascii) : nat := ord c - 48.

Definition decimal (s : string) : nat :=
  let fix go (acc : nat) (s : string) : nat :=
    match s with
    | EmptyString => acc
    | String c t => go (10 * acc + digit_val c) t
    end in
  go 0 s.

Definition is_identifier (s : string) : bool :=
  match s with
  | String c t => (is_letter c || is_char "_"%char c) && string_forall is_word t
  | EmptyString => false
  end.

(** The control character of an escape letter ([ESCAPES] of [re._parser]). *)
Definition escape_char (c : ascii) : option ascii :=
  if is_char "a"%char c then Some (chr 7)
  else if is_char "b"%char c then Some (chr 8)
  else if is_char "f"%char c then Some (chr 12)
  else if is_char "n"%char c then Some (chr 10)
  else if is_char "r"%char c then Some (chr 13)
  else if is_char "t"%char c then Some (chr 9)
  else if is_char "v"%char c then Some (chr 11)
  else if is_char bs_char c then Some bs_char
  else None.

Section Template.
(** The number of groups of the pattern. *)
Variable groups : nat.

Definition add_group (n : nat) (k : result (list tpart)) : result (list tpart) :=
  if groups <? n then Raise ReError
  else rbind k (λ ps, Ok (TGroup n :: ps)).

Definition add_lit (c : ascii) (k : result (list tpart)) : result (list tpart) :=
  rbind k (λ ps, Ok (TLit c :: ps)).

Definition group_of_name (name : string) (k : result (list tpart))
    : result (list tpart) :=
  match name with
  | EmptyString => Raise ReError
  | _ =>
      if string_forall is_digit name then add_group (decimal name) k
      else if is_identifier name then Raise IndexError
      else Raise ReError
  end.

(** [parse_template None s] reads the template [s]; [parse_template
    (Some acc) s] is inside [\g<...>], with the name read so far in [acc]
    (reversed). *)
Fixpoint parse_template (name : option string) (s : string) : result (list tpart) :=
  match name with
  | Some acc =>
      match s with
      | EmptyString => Raise ReError
      | String c t =>
          if is_char ">"%char c
          then group_of_name (string_rev acc) (parse_template None t)
          else parse_template (Some (String c acc)) t
      end
  | None =>
      match s with
      | EmptyString => Ok []
      | String c t =>
          if negb (is_char bs_char c) then add_lit c (parse_template None t)
          else
            match t with
            | EmptyString => Raise ReError
            | String e u =>
                if is_char "g"%char e then
                  match u with
                  | String lt v =>
                      if is_char "<"%char lt then parse_template (Some EmptyString) v
                      else Raise ReError
                  | EmptyString => Raise ReError
                  end
                else if is_char "0"%char e then
                  match u with
                  | String d1 v =>
                      if is_octdigit d1 then
                        match v with
                        | String d2 w =>
                            if is_octdigit d2
                            then add_lit (chr ((8 * digit_val d1 + digit_val d2) mod 256))
                                   (parse_template None w)
                            else add_lit (chr (digit_val d1)) (parse_template None v)
                        | EmptyString => add_lit (chr (digit_val d1)) (parse_template None v)
                        end
                      else add_lit (chr 0) (parse_template None u)
                  | EmptyString => add_lit (chr 0) (parse_template None u)
                  end
                else if is_digit e then
                  match u with
                  | String d2 v =>
                      if is_digit d2 then
                        match v with
                        | String d3 w =>
                            if is_octdigit e && is_octdigit d2 && is_octdigit d3 then
                              let n := 64 * digit_val e + 8 * digit_val d2 + digit_val d3 in
                              if 255 <? n then Raise ReError
                              else add_lit (chr n) (parse_template None w)
                            else add_group (10 * digit_val e + digit_val d2)
                                   (parse_template None v)
                        | EmptyString =>
                            add_group (10 * digit_val e + digit_val d2)
                              (parse_template None v)
                        end
                      else add_group (digit_val e) (parse_template None u)
                  | EmptyString => add_group (digit_val e) (parse_template None u)
                  end
                else
                  match escape_char e with
                  | Some x => add_lit x (parse_template None u)
                  | None =>
                      if is_letter e then Raise ReError
                      else add_lit c (add_lit e (parse_template None u))
                  end
            end
      end
  end.
End Template.

Definition expand_part (m : re_match) (p : tpart) : string :=
  match p with
  | TLit c => String c EmptyString
  | TGroup 0 => m_text m
  | TGroup _ => group1 m
  end.

Definition expand (m : re_match) (ps : list tpart) : string :=
  concat_strings (map (expand_part m) ps).

(** [re.sub(r, repl, s, count=1)] for a pattern [r] with [groups] groups *)
Definition re_sub_first (groups : nat) (r : regex) (repl s : string) : result string :=
  rbind (parse_template groups None repl) (λ ps,
    match re_search r s with
    | Some m => Ok (m_before m +:+ expand m ps +:+ m_after m)
    | None => Ok s
    end).

(** The global substitution [re.sub(r, repl, s)]. *)
Fixpoint sub_scan (r : regex) (ps : list tpart) (prev : option ascii) (s : string)
    (skip : nat) : string :=
  match s with
  | EmptyString => EmptyString
  | String c t =>
      match skip with
      | S n => sub_scan r ps (Some c) t n
      | O =>
          match match_here r prev s with
          | Some (u, g) =>
              let n := String.length s - String.length u in
              let m := ReMatch EmptyString (string_take n s) g u in
              match n with
              | O => expand m ps +:+ String c (sub_scan r ps (Some c) t 0)
              | S n' => expand m ps +:+ sub_scan r ps (Some c) t n'
              end
          | None => String c (sub_scan r ps (Some c) t 0)
          end
      end
  end.

Definition re_sub (groups : nat) (r : regex) (repl s : string) : result string :=
  rbind (parse_template groups None repl) (λ ps, Ok (sub_scan r ps None s 0)).

(** ** Python values *)

Inductive pyval : Type :=
| PNone
| PBool (b : bool)
| PNum (z : Z)
| PStr (s : string)
| PList (l : list string).

Abbreviation dict := (gmap string pyval).

(** [bool(v)] *)
Definition truthy (v : pyval) : bool :=
  match v with
  | PNone => false
  | PBool b => b
  | PNum z => negb (z =? 0)%Z
  | PStr s => negb (String.eqb s EmptyString)
  | PList l => match l with [] => false | _ => true end
  end.

(** [a or b] *)
Definition py_or (a b : pyval) : pyval := if truthy a then a else b.

Definition hex_digit (n : nat) : ascii :=
  if n <? 10 then chr (48 + n) else chr (87 + n).

(** [repr(s)] of a string, on ASCII text *)
Definition repr_char (q : ascii) (c : ascii) : string :=
  if is_char bs_char c || is_char q c then String bs_char (String c EmptyString)
  else if is_char nl_char c then String bs_char "n"
  else if is_char (chr 13) c then String bs_char "r"
  else if is_char (chr 9) c then String bs_char "t"
  else if (ord c <? 32) || (ord c =? 127)
       then String bs_char (String "x"%char
              (String (hex_digit (ord c / 16)) (String (hex_digit (ord c mod 16)) EmptyString)))
  else String c EmptyString.

Fixpoint repr_chars (q : ascii) (s : string) : string :=
  match s with
  | EmptyString => EmptyString
  | String c t => repr_char q c +:+ repr_chars q t
  end.

Definition repr_str (s : string) : string :=
  let q := if contains sq s && negb (contains dq s) then dq_char else sq_char in
  String q (repr_chars q s) +:+ String q EmptyString.

(** [str(v)], as an f-string interpolates it *)
Definition py_str (v : pyval) : string :=
  match v with
  | PNone => "None"
  | PBool true => "True"
  | PBool false => "False"
  | PNum z => pretty z
  | PStr s => s
  | PList l => "[" +:+ join ", " (map repr_str l) +:+ "]"
  end.

(** [v[:n]] *)
Definition py_slice (v : pyval) (n : nat) : result pyval :=
  match v with
  | PStr s => Ok (PStr (string_take n s))
  | PList l => Ok (PList (take n l))
  | _ => Raise TypeError
  end.

(** [v[0]] *)
Definition py_first (v : pyval) : result pyval :=
  match v with
  | PStr (String c _) => Ok (PStr (String c EmptyString))
  | PList (x :: _) => Ok (PStr x)
  | PStr EmptyString | PList [] => Raise IndexError
  | _ => Raise TypeError
  end.

(** [len(v)] *)
Definition py_len (v : pyval) : result nat :=
  match v with
  | PStr s => Ok (String.length s)
  | PList l => Ok (length l)
  | _ => Raise TypeError
  end.

(** [d.get(k, dflt)] and [d[k]] *)
Definition dict_get (d : dict) (k : string) (dflt : pyval) : pyval :=
  default dflt (d !! k).

Definition dict_item (d : dict) (k : string) : result pyval :=
  match d !! k with
  | Some v => Ok v
  | None => Raise KeyError
  end.

(** [{**a, **b}]: the keys of [b] win. *)
Definition dict_update (a b : dict) : dict := b ∪ a.

(** ** The world and the monad of effects *)

Abbreviation path := (list string).

(** A cloned repository: the text files at its root, and [package.json]
    given by what [json.load] makes of it. *)
Record repo := Repo {
  text_files : gmap string string;
  package_json : option (result dict)
}.

Record state := State {
  stdin : list string;             (* the lines the user will type *)
  prompts : list string;           (* the prompts of [input], latest first *)
  files : gmap path string;        (* the files of the project *)
  folders : gset path;             (* its directories, besides those that hold a file *)
  dirs : gset string;              (* the temporary directories that exist *)
  temp_dir : option string;        (* [ServiceAnalyzer.temp_dir] *)
  remote : option repo             (* what [git clone] fetches, if it succeeds *)
}.

Definition M (A : Type) : Type := state → result A * state.

Definition mret {A} (a : A) : M A := λ s, (Ok a, s).
Definition raise {A} (e : exn) : M A := λ s, (Raise e, s).
Definition bind {A B} (m : M A) (f : A → M B) : M B :=
  λ s, match m s with
       | (Ok a, s1) => f a s1
       | (Raise e, s1) => (Raise e, s1)
       end.
Definition lift {A} (r : result A) : M A := λ s, (r, s).

Declare Scope py_scope.
Delimit Scope py_scope with py.
Notation "x <- m ;; k" := (bind m (λ x, k))
  (at level 100, m at next level, right associativity) : py_scope.
Notation "m ;;; k" := (bind m (λ _, k))
  (at level 100, right associativity) : py_scope.
Local Open Scope py_scope.

(** [try: body finally: fin] *)
Definition try_finally {A} (body : M A) (fin : M unit) : M A :=
  λ s, match body s with
       | (r, s1) =>
           match fin s1 with
           | (Ok _, s2) => (r, s2)
           | (Raise e, s2) => (Raise e, s2)
           end
       end.

Definition modify (f : state → state) : M unit := λ s, (Ok tt, f s).

(** [input(prompt)] *)
Definition input (prompt : string) : M string :=
  λ s, let s1 := State (stdin s) (prompt :: prompts s) (files s) (folders s) (dirs s)
                       (temp_dir s) (remote s) in
       match stdin s with
       | line :: rest =>
           (Ok line, State rest (prompts s1) (files s) (folders s) (dirs s)
                       (temp_dir s) (remote s))
       | [] => (Raise EOFError, s1)
       end.

(** [input(prompt) or dflt] *)
Definition input_or (prompt : string) (dflt : pyval) : M pyval :=
  line <- input prompt ;; mret (py_or (PStr line) dflt).

(** [open(p).read()] *)
Definition read_file (p : path) : M string :=
  λ s, match files s !! p with
       | Some c => (Ok c, s)
       | None => (Raise FileNotFoundError, s)
       end.

Definition set_files (f : gmap path string) (s : state) : state :=
  State (stdin s) (prompts s) f (folders s) (dirs s) (temp_dir s) (remote s).

(** [open(p, 'w').write(c)] *)
Definition write_file (p : path) (c : string) : M unit :=
  λ s, (Ok tt, set_files (<[p := c]> (files s)) s).

(** [open(p, 'a').write(c)] in a directory that exists: the file is created
    when it is missing. *)
Definition append_file (p : path) (c : string) : M unit :=
  λ s, (Ok tt, set_files (<[p := default EmptyString (files s !! p) +:+ c]> (files s)) s).

(** The directory [d] exists: it is one of [folders], or a file lies in it
    or below it. *)
Definition dir_exists (d : path) (s : state) : bool :=
  bool_decide (d ∈ folders s)
  || bool_decide (set_Exists (λ q, d `prefix_of` q ∧ d ≠ q) (dom (files s))).

(** [open(dir / name, 'a').write(c)] in a directory that may be missing:
    [open] then raises [FileNotFoundError] and creates nothing. *)
Definition append_file_in (dir : path) (name : string) (c : string) : M unit :=
  λ s, if dir_exists dir s then append_file (dir ++ [name]) c s
       else (Raise FileNotFoundError, s).

(** ** ServiceAnalyzer

    The class is the same, line for line, in both copies of the program. *)

(** The object after [__init__]: [repo_name] is [Path(github_url).stem] and
    [repo_owner] is [github_url.split('/')[-2]]. *)
Record analyzer := Analyzer {
  github_url : string;
  repo_name : string;
  repo_owner : string
}.

Definition set_temp_dir (d : option string) (s : state) : state :=
  State (stdin s) (prompts s) (files s) (folders s) (dirs s) d (remote s).
Definition set_dirs (ds : gset string) (s : state) : state :=
  State (stdin s) (prompts s) (files s) (folders s) ds (temp_dir s) (remote s).

(** [tempfile.mkdtemp()]: a directory that did not exist is created. *)
Definition mkdtemp : M string :=
  λ s, let d := fresh (dirs s) in (Ok d, set_dirs ({[d]} ∪ dirs s) s).

(** [subprocess.run(['git', 'clone', ...], check=True)] *)
Definition git_clone : M repo :=
  λ s, match remote s with
       | Some r => (Ok r, s)
       | None => (Raise CalledProcessError, s)
       end.

(** The tree that [git clone] has put at [repo_path] stands for [repo_path]. *)
Definition clone_repo (self : analyzer) : M repo :=
  d <- mkdtemp ;;
  modify (set_temp_dir (Some d)) ;;;
  git_clone.

(** [EXPOSE\s+(\d+)] *)
Definition re_expose : regex :=
  rseq [lit "EXPOSE"; rplus is_space; RGroup (rplus is_digit)].

(** [[A-Z_]] *)
Definition is_upper_us (c : ascii) : bool := is_upper c || is_char "_"%char c.

(** [ENV\s+([A-Z_]+)] *)
Definition re_env : regex :=
  rseq [lit "ENV"; rplus is_space; RGroup (rplus is_upper_us)].

Definition analyze_dockerfile (repo_path : repo) : dict :=
  match text_files repo_path !! "Dockerfile" with
  | None => ∅
  | Some content =>
      let ports := re_findall re_expose content in
      let env_vars := re_findall re_env content in
      <["has_dockerfile" := PBool true]>
        (<["exposed_ports" := PList ports]>
           (<["env_vars" := PList env_vars]> ∅))
  end.

(** The first name of [names] that exists at the root of the repository. *)
Fixpoint first_existing (repo_path : repo) (names : list string)
    : option (string * string) :=
  match names with
  | [] => None
  | n :: ns =>
      match text_files repo_path !! n with
      | Some content => Some (n, content)
      | None => first_existing repo_path ns
      end
  end.

(** [^\s{2}(\w+):] with [re.MULTILINE] *)
Definition re_services : regex :=
  rseq [RBol; RChar is_space; RChar is_space; RGroup (rplus is_word); lit ":"].

(** [image:\s+(.+)] *)
Definition re_image : regex :=
  rseq [lit "image:"; rplus is_space; RGroup (rplus not_newline)].

Definition is_quote (c : ascii) : bool := is_char dq_char c || is_char sq_char c.

(** A dash and a space, an optional quote of either kind, then [(\d+):] *)
Definition re_ports : regex :=
  rseq [lit "- "; ropt is_quote; RGroup (rplus is_digit); lit ":"].

(** [environment:(.*?)(?=\n  [a-z]|\Z)] with [re.DOTALL] *)
Definition re_env_section : regex :=
  rseq [lit "environment:"; RGroup (rstar_lazy any_char);
        RLookahead (RAlt (rseq [lit (nl +:+ "  "); RChar is_lower]) REndZ)].

(** [- ([A-Z_]+)(?:=|:)] *)
Definition re_env_entry : regex :=
  rseq [lit "- "; RGroup (rplus is_upper_us); RAlt (lit "=") (lit ":")].

Definition analyze_docker_compose (repo_path : repo) : dict :=
  match first_existing repo_path ["docker-compose.yml"; "docker-compose.yaml"] with
  | None => ∅
  | Some (compose_file, content) =>
      let services := re_findall re_services content in
      let image :=
        match re_search re_image content with
        | Some m => PStr (strip (group1 m))
        | None => PNone
        end in
      let ports := re_findall re_ports content in
      let env_vars :=
        match re_search re_env_section content with
        | Some m => re_findall re_env_entry (group1 m)
        | None => []
        end in
      let needs_postgres := contains "postgres" (lower content) in
      let needs_redis := contains "redis" (lower content) in
      let needs_mysql :=
        contains "mysql" (lower content) || contains "mariadb" (lower content) in
      <["has_docker_compose" := PBool true]>
        (<["compose_file" := PStr compose_file]>
        (<["services" := PList services]>
        (<["image" := image]>
        (<["ports" := PList ports]>
        (<["env_vars" := PList env_vars]>
        (<["needs_postgres" := PBool needs_postgres]>
        (<["needs_redis" := PBool needs_redis]>
        (<["needs_mysql" := PBool needs_mysql]> ∅))))))))
  end.

(** [^#\s+(.+)$] with [re.MULTILINE] *)
Definition re_title : regex :=
  rseq [RBol; lit "#"; rplus is_space; RGroup (rplus not_newline); REol].

(** [\n\n(.+?)(?:\n\n|\Z)] with [re.DOTALL] *)
Definition re_description : regex :=
  rseq [lit (nl +:+ nl); RGroup (rplus_lazy any_char); RAlt (lit (nl +:+ nl)) REndZ].

(** [##?\s+Environment Variables(.*?)(?=\n##?\s+|\Z)] with [re.DOTALL]
    and [re.IGNORECASE] *)
Definition re_env_doc : regex :=
  rseq [lit "#"; ropt (is_char "#"%char); rplus is_space;
        lit_ci "Environment Variables"; RGroup (rstar_lazy any_char);
        RLookahead (RAlt (rseq [lit (nl +:+ "#"); ropt (is_char "#"%char); rplus is_space])
                      REndZ)].

(** [`([A-Z_]+)`] *)
Definition re_backticked : regex :=
  rseq [lit "`"; RGroup (rplus is_upper_us); lit "`"].

Definition analyze_readme (self : analyzer) (repo_path : repo) : dict :=
  match first_existing repo_path ["README.md"; "readme.md"; "README"; "README.txt"] with
  | None => ∅
  | Some (_, content) =>
      let title :=
        match re_search re_title content with
        | Some m => group1 m
        | None => repo_name self
        end in
      let description :=
        match re_search re_description content with
        | Some m => strip (group1 m)
        | None => EmptyString
        end in
      let description :=
        string_take 200 (join " " (take 3 (split_on nl_char description))) in
      let has_docker_section := contains "docker" (lower content) in
      let env_vars_documented :=
        match re_search re_env_doc content with
        | Some m => re_findall re_backticked (group1 m)
        | None => []
        end in
      <["title" := PStr title]>
        (<["description" := PStr description]>
        (<["has_docker_section" := PBool has_docker_section]>
        (<["documented_env_vars" := PList env_vars_documented]> ∅)))
  end.

Definition analyze_package_json (repo_path : repo) : result dict :=
  match package_json repo_path with
  | None => Ok ∅
  | Some (Raise e) => Raise e
  | Some (Ok data) =>
      Ok (<["name" := dict_get data "name" PNone]>
         (<["description" := dict_get data "description" PNone]>
         (<["version" := dict_get data "version" PNone]>
         (<["is_nodejs" := PBool true]> ∅))))
  end.

Definition base_facts (self : analyzer) : dict :=
  <["repo_name" := PStr (repo_name self)]>
    (<["repo_owner" := PStr (repo_owner self)]>
    (<["github_url" := PStr (github_url self)]> ∅)).

(** The dict literal of [run_analysis]: each [**] overrides what is before it. *)
Definition merge_facts (self : analyzer) (repo_path : repo) (pkg : dict) : dict :=
  dict_update
    (dict_update
       (dict_update
          (dict_update (base_facts self) (analyze_dockerfile repo_path))
          (analyze_docker_compose repo_path))
       (analyze_readme self repo_path))
    pkg.

Definition run_analysis (self : analyzer) : M dict :=
  repo_path <- clone_repo self ;;
  pkg <- lift (analyze_package_json repo_path) ;;
  mret (merge_facts self repo_path pkg).

Definition cleanup (self : analyzer) : M unit :=
  λ s, match temp_dir s with
       | Some d =>
           if bool_decide (d ∈ dirs s)
           then (Ok tt, set_dirs (dirs s ∖ {[d]}) s)
           else (Ok tt, s)
       | None => (Ok tt, s)
       end.

(** ** ServiceIntegrator *)

(** [self.service_config], a dict with these eight keys. *)
Record service_config := ServiceConfig {
  name : string;
  display_name : pyval;
  description : pyval;
  port : pyval;
  image : pyval;
  hostname : string;
  needs_postgres : pyval;
  needs_redis : pyval
}.

(** The receiver of a [str] method. *)
Definition as_str (v : pyval) : result string :=
  match v with
  | PStr s => Ok s
  | _ => Raise AttributeError
  end.

(** [[^a-z0-9-]] *)
Definition not_name_char (c : ascii) : bool :=
  negb (is_lower c || is_digit c || is_char "-"%char c).

(** [re.sub(r'[^a-z0-9-]', '', s)] *)
Definition normalize_name (s : string) : result string :=
  re_sub 0 (RChar not_name_char) EmptyString s.

Definition volumes_anchor : string := "volumes:" +:+ nl.

(** [(volumes:\n)] *)
Definition re_volumes : regex := RGroup (lit volumes_anchor).

(** The first line of a wizard entry and what follows it up to the next
    quote on the line, then a newline: [("outline" ".*?")\n] for [who] =
    [outline]. *)
Definition re_wizard_entry (who : string) : regex :=
  rseq [RGroup (rseq [lit (dq +:+ who +:+ dq +:+ " " +:+ dq);
                      rstar_lazy not_newline; lit dq]);
        lit nl].

Definition not_rparen (c : ascii) : bool := negb (is_char ")"%char c).

(** The opening of the data block of the wizard, at the start of a line. *)
Definition services_marker : string := nl +:+ "base_services_data=(".

(** [(\nbase_services_data=\([^)]+)] *)
Definition re_services_data : regex :=
  RGroup (rseq [lit services_marker; rplus not_rparen]).

(** [(\["OUTLINE_APP_SECRET"\]="hex:64")\n] for [who] = [OUTLINE] *)
Definition re_secret_entry (who : string) : regex :=
  rseq [RGroup (lit ("[" +:+ dq +:+ who +:+ "_APP_SECRET" +:+ dq +:+ "]=" +:+ dq
                     +:+ "hex:64" +:+ dq));
        lit nl].

(** [(\n\))] *)
Definition re_closing : regex := RGroup (lit (nl +:+ ")")).

(** [(if is_profile_active "outline"; then.*?^fi)] with [re.MULTILINE] and
    [re.DOTALL], for [who] = [outline] *)
Definition re_report_block (who : string) : regex :=
  RGroup (rseq [lit ("if is_profile_active " +:+ dq +:+ who +:+ dq +:+ "; then");
                rstar_lazy any_char; RBol; lit "fi"]).

(** [(if is_profile_active "paddleocr")] for [who] = [paddleocr] *)
Definition re_report_test (who : string) : regex :=
  RGroup (lit ("if is_profile_active " +:+ dq +:+ who +:+ dq)).

(** The stanza appended to [docker-compose.yml]. *)
Definition service_block (cfg : service_config) : string :=
  concat_strings [
    nl;
    "  "; name cfg; ":"; nl;
    "    image: "; py_str (image cfg); nl;
    "    container_name: "; name cfg; nl;
    "    profiles: ["; dq; name cfg; dq; "]"; nl;
    "    restart: unless-stopped"; nl;
    "    environment:"; nl;
    "      APP_URL: ${"; upper (name cfg); "_HOSTNAME:+https://}${";
      upper (name cfg); "_HOSTNAME}"; nl
  ] +:+
  (if truthy (needs_postgres cfg) || truthy (needs_redis cfg) then
     concat_strings ["    depends_on:"; nl] +:+
     (if truthy (needs_postgres cfg)
      then concat_strings ["      postgres:"; nl; "        condition: service_healthy"; nl]
      else EmptyString) +:+
     (if truthy (needs_redis cfg)
      then concat_strings ["      redis:"; nl; "        condition: service_healthy"; nl]
      else EmptyString)
   else EmptyString).

Definition volume_name (cfg : service_config) : string := name cfg +:+ "_data".

(** [f'\\1  {volume_name}:\n'] *)
Definition volume_repl (cfg : service_config) : string :=
  concat_strings [bs; "1  "; volume_name cfg; ":"; nl].

Definition caddy_block (cfg : service_config) : string :=
  concat_strings [
    nl;
    "# "; py_str (display_name cfg); nl;
    "{"; upper (name cfg); "_HOSTNAME} {"; nl;
    "    reverse_proxy "; name cfg; ":"; py_str (port cfg); nl;
    "}"; nl
  ].

Definition env_block (cfg : service_config) (description_line : string) : string :=
  concat_strings [
    nl;
    "############"; nl;
    "# "; py_str (display_name cfg); " Configuration"; nl;
    "# "; description_line; nl;
    "############"; nl;
    upper (name cfg); "_HOSTNAME="; hostname cfg; ".yourdomain.com"; nl;
    upper (name cfg); "_APP_SECRET="; nl
  ].

Definition service_line (cfg : service_config) : string :=
  concat_strings ["    "; dq; name cfg; dq; " "; dq; py_str (display_name cfg); dq; nl].

Definition secret_line (cfg : service_config) : string :=
  concat_strings ["    ["; dq; upper (name cfg); "_APP_SECRET"; dq; "]="; dq; "hex:64"; dq; nl].

Definition report_block (cfg : service_config) : string :=
  concat_strings [
    nl;
    "if is_profile_active "; dq; name cfg; dq; "; then"; nl;
    "  echo"; nl;
    "  echo "; dq; "================================= "; py_str (display_name cfg);
      " ============================"; dq; nl;
    "  echo"; nl;
    "  echo "; dq; "Host: ${"; upper (name cfg); "_HOSTNAME:-<hostname_not_set>}"; dq; nl;
    "  echo "; dq; "Description: "; py_str (description cfg); dq; nl;
    "  echo"; nl;
    "  echo "; dq; "First Time Setup:"; dq; nl;
    "  echo "; dq; "  - Visit https://${"; upper (name cfg);
      "_HOSTNAME:-<hostname_not_set>}"; dq; nl;
    "  echo "; dq; "  - Create your admin account"; dq; nl;
    "fi"; nl
  ].

(** [confirm.lower() == 'yes'] *)
Definition is_yes (confirm : string) : bool := String.eqb (lower confirm) "yes".

(** [scripts/integrate/analyze_and_integrate.py] *)
Module Integrate.

(** Lines 231-232: the default of the port prompt. *)
Definition default_port (analysis : dict) : result pyval :=
  let ports_list := dict_get analysis "ports" (PList []) in
  if truthy ports_list then py_first ports_list else Ok (PStr "3000").

Definition interactive_config (analysis : dict) : M (bool * service_config) :=
  repo <- lift (dict_item analysis "repo_name") ;;
  repo_s <- lift (as_str repo) ;;
  let default_name := remove_char "_"%char (remove_char "-"%char (lower repo_s)) in
  line <- input (concat_strings ["Service name ["; default_name; "]: "]) ;;
  let service_name := if String.eqb line EmptyString then default_name else line in
  service_name <- lift (normalize_name service_name) ;;
  let default_display := dict_get analysis "title" repo in
  display_name <- input_or (concat_strings ["Display name ["; py_str default_display; "]: "])
                    default_display ;;
  let default_desc := py_or (dict_get analysis "description" (PStr EmptyString))
                        (PStr EmptyString) in
  desc_preview <- lift (if truthy default_desc then py_slice default_desc 50
                        else Ok (PStr "No description available")) ;;
  len <- lift (py_len default_desc) ;;
  description <- input_or (concat_strings ["Description ["; py_str desc_preview;
                                           (if 50 <? len then "..." else EmptyString);
                                           "]: "])
                   default_desc ;;
  default_port <- lift (default_port analysis) ;;
  port <- input_or (concat_strings ["Internal port ["; py_str default_port; "]: "])
            default_port ;;
  owner <- lift (dict_item analysis "repo_owner") ;;
  let default_image :=
    dict_get analysis "image"
      (PStr (concat_strings [py_str owner; "/"; py_str repo; ":latest"])) in
  image <- input_or (concat_strings ["Docker image ["; py_str default_image; "]: "])
             default_image ;;
  line <- input (concat_strings ["Hostname subdomain ["; service_name; "]: "]) ;;
  let hostname := if String.eqb line EmptyString then service_name else line in
  let cfg := ServiceConfig service_name display_name description port image hostname
               (dict_get analysis "needs_postgres" (PBool false))
               (dict_get analysis "needs_redis" (PBool false)) in
  confirm <- input (nl +:+ "Proceed? (yes/no): ") ;;
  mret (is_yes confirm, cfg).

(** [project_root] is the directory above [scripts], where the script that
    runs is ([main] takes it from [__file__]): it exists, so the files that
    are opened for appending right under it are created when missing. *)
Definition add_to_docker_compose (project_root : path) (cfg : service_config) : M unit :=
  let docker_compose := project_root ++ ["docker-compose.yml"] in
  append_file docker_compose (service_block cfg) ;;;
  content <- read_file docker_compose ;;
  content <- lift (re_sub_first 1 re_volumes (volume_repl cfg) content) ;;
  write_file docker_compose content.

Definition add_to_env_example (project_root : path) (cfg : service_config) : M unit :=
  let env_example := project_root ++ [".env.example"] in
  description_line <- lift (if truthy (description cfg)
                            then rbind (py_slice (description cfg) 100)
                                   (λ v, Ok (py_str v))
                            else Ok "Service configuration") ;;
  append_file env_example (env_block cfg description_line).

(** The Caddyfile is under [config/caddy], which may be missing. *)
Definition add_to_caddyfile (project_root : path) (cfg : service_config) : M unit :=
  append_file_in (project_root ++ ["config"; "caddy"]) "Caddyfile" (caddy_block cfg).

Definition add_to_wizard (project_root : path) (cfg : service_config) : M unit :=
  let wizard_file := project_root ++ ["scripts"; "install"; "04_wizard.sh"] in
  content <- read_file wizard_file ;;
  let repl := concat_strings [bs; "1"; nl; service_line cfg] in
  content <- lift (
    if contains (dq +:+ "outline" +:+ dq) content
    then re_sub_first 1 (re_wizard_entry "outline") repl content
    else if contains (dq +:+ "docmost" +:+ dq) content
    then re_sub_first 1 (re_wizard_entry "docmost") repl content
    else re_sub_first 1 re_services_data repl content) ;;
  write_file wizard_file content.

Definition add_to_secrets (project_root : path) (cfg : service_config) : M unit :=
  let secrets_file := project_root ++ ["scripts"; "install"; "03_generate_secrets.sh"] in
  content <- read_file secrets_file ;;
  content <- lift (
    if contains "OUTLINE_APP_SECRET" content
    then re_sub_first 1 (re_secret_entry "OUTLINE")
           (concat_strings [bs; "1"; nl; secret_line cfg]) content
    else if contains "DOCMOST_APP_SECRET" content
    then re_sub_first 1 (re_secret_entry "DOCMOST")
           (concat_strings [bs; "1"; nl; secret_line cfg]) content
    else re_sub_first 1 re_closing (concat_strings [secret_line cfg; bs; "1"]) content) ;;
  write_file secrets_file content.

Definition report_anchor (who : string) : string :=
  concat_strings ["is_profile_active "; dq; who; dq].

Definition add_to_final_report (project_root : path) (cfg : service_config) : M unit :=
  let report_file := project_root ++ ["scripts"; "install"; "07_final_report.sh"] in
  content <- read_file report_file ;;
  let after := concat_strings [bs; "1"; nl; report_block cfg] in
  let before := concat_strings [report_block cfg; nl; bs; "1"] in
  content <- lift (
    if contains (report_anchor "outline") content
    then re_sub_first 1 (re_report_block "outline") after content
    else if contains (report_anchor "docmost") content
    then re_sub_first 1 (re_report_block "docmost") after content
    else if contains (report_anchor "paddleocr") content
    then re_sub_first 1 (re_report_test "paddleocr") before content
    else if contains (report_anchor "python-runner") content
    then re_sub_first 1 (re_report_test "python-runner") before content
    else Ok content) ;;
  write_file report_file content.

Definition integrate (project_root : path) (cfg : service_config) : M unit :=
  add_to_docker_compose project_root cfg ;;;
  add_to_env_example project_root cfg ;;;
  add_to_caddyfile project_root cfg ;;;
  add_to_wizard project_root cfg ;;;
  add_to_secrets project_root cfg ;;;
  add_to_final_report project_root cfg.

(** [main], from the construction of the analyzer on; [project_root] is
    the parent of the directory of the script. *)
Definition main (analyzer : analyzer) (project_root : path) : M Z :=
  modify (set_temp_dir None) ;;;
  early <- try_finally
    (analysis <- run_analysis analyzer ;;
     if negb (truthy (dict_get analysis "has_docker_compose" PNone))
        && negb (truthy (dict_get analysis "has_dockerfile" PNone))
     then mret (Some 1%Z)
     else
       r <- interactive_config analysis ;;
       if r.1 then integrate project_root r.2 ;;; mret None
       else mret (Some 1%Z))
    (cleanup analyzer) ;;
  mret (default 0%Z early).

End Integrate.

(** [scripts/analyze_and_integrate.py], the older copy *)
Module Legacy.

(** Line 230: [self.analysis.get('ports', [None])[0] or '3000'] *)
Definition default_port (analysis : dict) : result pyval :=
  match analysis !! "ports" with
  | None => Ok (py_or PNone (PStr "3000"))
  | Some ports => rbind (py_first ports) (λ p, Ok (py_or p (PStr "3000")))
  end.

Definition interactive_config (analysis : dict) : M (bool * service_config) :=
  repo <- lift (dict_item analysis "repo_name") ;;
  repo_s <- lift (as_str repo) ;;
  let default_name := remove_char "_"%char (remove_char "-"%char (lower repo_s)) in
  line <- input (concat_strings ["Service name ["; default_name; "]: "]) ;;
  let service_name := if String.eqb line EmptyString then default_name else line in
  service_name <- lift (normalize_name service_name) ;;
  let default_display := dict_get analysis "title" repo in
  display_name <- input_or (concat_strings ["Display name ["; py_str default_display; "]: "])
                    default_display ;;
  let default_desc := dict_get analysis "description" (PStr EmptyString) in
  desc_preview <- lift (py_slice default_desc 50) ;;
  description <- input_or (concat_strings ["Description ["; py_str desc_preview; "...]: "])
                   default_desc ;;
  default_port <- lift (default_port analysis) ;;
  port <- input_or (concat_strings ["Internal port ["; py_str default_port; "]: "])
            default_port ;;
  owner <- lift (dict_item analysis "repo_owner") ;;
  let default_image :=
    dict_get analysis "image"
      (PStr (concat_strings [py_str owner; "/"; py_str repo; ":latest"])) in
  image <- input_or (concat_strings ["Docker image ["; py_str default_image; "]: "])
             default_image ;;
  line <- input (concat_strings ["Hostname subdomain ["; service_name; "]: "]) ;;
  let hostname := if String.eqb line EmptyString then service_name else line in
  let cfg := ServiceConfig service_name display_name description port image hostname
               (dict_get analysis "needs_postgres" (PBool false))
               (dict_get analysis "needs_redis" (PBool false)) in
  confirm <- input (nl +:+ "Proceed? (yes/no): ") ;;
  mret (is_yes confirm, cfg).

Definition add_to_docker_compose (project_root : path) (cfg : service_config) : M unit :=
  let docker_compose := project_root ++ ["docker-compose.yml"] in
  append_file docker_compose (service_block cfg) ;;;
  content <- read_file docker_compose ;;
  content <- lift (re_sub_first 1 re_volumes (volume_repl cfg) content) ;;
  write_file docker_compose content.

Definition add_to_env_example (project_root : path) (cfg : service_config) : M unit :=
  let env_example := project_root ++ [".env.example"] in
  description_line <- lift (rbind (py_slice (description cfg) 100) (λ v, Ok (py_str v))) ;;
  append_file env_example (env_block cfg description_line).

Definition add_to_caddyfile (project_root : path) (cfg : service_config) : M unit :=
  let caddyfile := project_root ++ ["Caddyfile"] in
  append_file caddyfile (caddy_block cfg).

Definition integrate (project_root : path) (cfg : service_config) : M unit :=
  add_to_docker_compose project_root cfg ;;;
  add_to_env_example project_root cfg ;;;
  add_to_caddyfile project_root cfg.

Definition main (analyzer : analyzer) (project_root : path) : M Z :=
  modify (set_temp_dir None) ;;;
  early <- try_finally
    (analysis <- run_analysis analyzer ;;
     if negb (truthy (dict_get analysis "has_docker_compose" PNone))
        && negb (truthy (dict_get analysis "has_dockerfile" PNone))
     then mret (Some 1%Z)
     else
       r <- interactive_config analysis ;;
       if r.1 then integrate project_root r.2 ;;; mret None
       else mret (Some 1%Z))
    (cleanup analyzer) ;;
  mret (default 0%Z early).

End Legacy.

(** * The vocabulary of the properties *)

(** The character before the position that follows [w]. *)
Fixpoint last_of (prev : option ascii) (w : string) : option ascii :=
  match w with
  | EmptyString => prev
  | String c t => last_of (Some c) t
  end.

(** A pattern that begins with the literal [w]. *)
Definition begins_with (w : string) (r : regex) : Prop :=
  ∀ prev s, strip_prefix w s = None → match_here r prev s = None.

(** No character of [t] is a backslash. *)
Definition no_backslash (t : string) : bool :=
  string_forall (λ c, negb (is_char bs_char c)) t.

(** The template of a text without a backslash: the text itself. *)
Fixpoint lits (t : string) : list tpart :=
  match t with
  | EmptyString => []
  | String c u => TLit c :: lits u
  end.

(** [t] does not begin with a digit. *)
Definition head_not_digit (t : string) : Prop :=
  match t with
  | String c _ => is_digit c = false
  | EmptyString => True
  end.

(** [[a-z0-9-]] *)
Definition is_name_char (c : ascii) : bool :=
  is_lower c || is_digit c || is_char "-"%char c.

(** Only lowercase letters, digits and hyphens. *)
Definition valid_name (n : string) : Prop := string_forall is_name_char n = true.

(** The line of the new volume key. *)
Definition volume_line (cfg : service_config) : string :=
  "  " +:+ volume_name cfg +:+ ":" +:+ nl.

(** The files of the project that the properties speak of. *)
Definition compose_path (project_root : path) : path :=
  project_root ++ ["docker-compose.yml"].

(** A concrete descriptor and project, used to run the operations. *)
Definition example_config : service_config :=
  ServiceConfig "myapp" (PStr "My App") (PStr "A small service") (PStr "3000")
    (PStr "acme/my-app:latest") "myapp" (PBool false) (PBool false).

Definition example_manifest : string :=
  concat_strings ["services:"; nl; "  n8n:"; nl; "    image: n8n"; nl;
                  "volumes:"; nl; "  n8n_storage:"; nl].

Definition state_with_files (f : gmap path string) : state :=
  State [] [] f ∅ ∅ None None.

Definition wizard_path (project_root : path) : path :=
  project_root ++ ["scripts"; "install"; "04_wizard.sh"].

(** What follows a repetition of [[^)]]: the end of the text or a closing
    parenthesis. *)
Definition closes_block (rest : string) : Prop :=
  match rest with
  | EmptyString => True
  | String c _ => c = ")"%char
  end.

(** An entry of the data block of the wizard, a name and a label, as
    [add_to_wizard] writes them: on a line of its own, each in quotes. *)
Definition wizard_entry (e : string * string) : string :=
  concat_strings ["    "; dq; e.1; dq; " "; dq; e.2; dq; nl].

Definition wizard_entries (es : list (string * string)) : string :=
  concat_strings (map wizard_entry es).

(** A name or a label that holds no quote, no newline and no closing
    parenthesis. *)
Definition entry_text_ok (t : string) : bool :=
  string_forall
    (λ c, negb (is_char dq_char c) && not_newline c && not_rparen c) t.

Definition wizard_entry_ok (e : string * string) : Prop :=
  entry_text_ok e.1 = true ∧ entry_text_ok e.2 = true.

(** A wizard script in which a label holds a closing parenthesis. *)
Definition wizard_with_paren : string :=
  concat_strings [
    "#!/bin/bash"; nl;
    "base_services_data=("; nl;
    "    "; dq; "n8n"; dq; " "; dq; "n8n (workflows)"; dq; nl;
    ")"; nl
  ].

(** The fallback in the words of the specification: the entry goes right
    after the line that opens the data block. *)
Definition insert_after_opening_marker (cfg : service_config) (content : string)
    : string :=
  match find_first (services_marker +:+ nl) content with
  | Some (pre, post) => pre +:+ (services_marker +:+ nl) +:+ service_line cfg +:+ post
  | None => content
  end.

Definition example_wizard : string :=
  concat_strings [
    "#!/bin/bash"; nl;
    "base_services_data=("; nl;
    "    "; dq; "n8n"; dq; " "; dq; "n8n workflows"; dq; nl;
    "    "; dq; "flowise"; dq; " "; dq; "Flowise"; dq; nl;
    ")"; nl;
    "echo done"; nl
  ].

Definition report_path (project_root : path) : path :=
  project_root ++ ["scripts"; "install"; "07_final_report.sh"].

Definition example_report : string :=
  concat_strings [
    "#!/bin/bash"; nl;
    "if is_profile_active "; dq; "n8n"; dq; "; then"; nl;
    "  echo n8n"; nl;
    "fi"; nl
  ].

(** [m] neither creates nor removes a temporary directory and does not
    touch [temp_dir]. *)
Definition keeps_workspace {A} (m : M A) : Prop :=
  ∀ s, dirs (m s).2 = dirs s ∧ temp_dir (m s).2 = temp_dir s.

(** The state once [clone_repo] has made the workspace. *)
Definition with_workspace (s : state) : state :=
  set_temp_dir (Some (fresh (dirs s))) (set_dirs ({[fresh (dirs s)]} ∪ dirs s) s).

(** The [try] block of [main]. *)
Definition main_body (self : analyzer) (project_root : path) : M (option Z) :=
  analysis <- run_analysis self ;;
  if negb (truthy (dict_get analysis "has_docker_compose" PNone))
     && negb (truthy (dict_get analysis "has_dockerfile" PNone))
  then mret (Some 1%Z)
  else
    r <- Integrate.interactive_config analysis ;;
    if r.1 then Integrate.integrate project_root r.2 ;;; mret None
    else mret (Some 1%Z).

(** The state after [input(prompt)] has read a line. *)
Definition consume (prompt : string) (s : state) : state :=
  State (tail (stdin s)) (prompt :: prompts s) (files s) (folders s) (dirs s)
    (temp_dir s) (remote s).

(** The default of the service name, for the repository name [rn]. *)
Definition default_name_of (rn : string) : string :=
  remove_char "_"%char (remove_char "-"%char (lower rn)).

(** [v[:n]] and [len(v)] are defined. *)
Definition sliceable (v : pyval) : Prop :=
  match v with PStr _ | PList _ => True | _ => False end.

(** A repository that holds a Dockerfile and nothing else. *)
Definition dockerfile_only (dockerfile : string) : repo :=
  Repo {[ "Dockerfile" := dockerfile ]} None.

Definition example_analyzer : analyzer :=
  Analyzer "https://github.com/acme/my-app.git" "my-app" "acme".

Definition example_dockerfile : string :=
  concat_strings ["FROM python:3.12"; nl; "EXPOSE 5000"; nl].

(** An empty answer to each of the six prompts, then [yes]. *)
Definition accept_all : list string := [""; ""; ""; ""; ""; ""; "yes"].

Definition state_with_remote (answers : list string) (r : option repo) : state :=
  State answers [] ∅ ∅ ∅ None r.

(** A repository with a README and no Dockerfile or compose manifest. *)
Definition readme_only : repo :=
  Repo {[ "README.md" := concat_strings ["# My App"; nl; nl; "A tiny web app."; nl] ]} None.

(** A repository whose compose manifest maps no port. *)
Definition compose_without_ports : repo :=
  Repo {[ "docker-compose.yml" :=
            concat_strings ["services:"; nl; "  web:"; nl;
                            "    image: nginx:latest"; nl] ]} None.

(** A repository with a Dockerfile, a compose manifest, a README and a
    [package.json] that is [{}]. *)
Definition example_repo : repo :=
  Repo (<["Dockerfile" := concat_strings ["FROM node:20"; nl; "ENV API_KEY=unset"; nl;
                                           "EXPOSE 3000"; nl]]>
       (<["docker-compose.yml" := concat_strings ["services:"; nl; "  web:"; nl;
                                                   "    build: ."; nl]]>
       (<["README.md" := concat_strings ["# My App"; nl; nl; "A tiny web app."; nl]]> ∅)))
       (Some (Ok ∅)).

(** The keys of the dict each inspector returns when its file exists. *)
Definition dockerfile_keys : gset string :=
  {[ "has_dockerfile"; "exposed_ports"; "env_vars" ]}.

Definition compose_keys : gset string :=
  {[ "has_docker_compose"; "compose_file"; "services"; "image"; "ports"; "env_vars";
     "needs_postgres"; "needs_redis"; "needs_mysql" ]}.

Definition readme_keys : gset string :=
  {[ "title"; "description"; "has_docker_section"; "documented_env_vars" ]}.

Definition package_keys : gset string :=
  {[ "name"; "description"; "version"; "is_nodejs" ]}.

(** The states agree on everything but the text of the prompts. *)
Definition same_but_prompts (s1 s2 : state) : Prop :=
  stdin s1 = stdin s2 ∧ files s1 = files s2 ∧ folders s1 = folders s2 ∧
  dirs s1 = dirs s2 ∧ temp_dir s1 = temp_dir s2 ∧ remote s1 = remote s2.

(** The state in which [c] was added at the end of the file [p], created
    when it was missing. *)
Definition appended (p : path) (c : string) (s : state) : state :=
  set_files (<[p := default EmptyString (files s !! p) +:+ c]> (files s)) s.

(** From such states [m1] and [m2] return or raise the same and end in such
    states. *)
Definition agree {A} (m1 m2 : M A) : Prop :=
  ∀ s1 s2, same_but_prompts s1 s2 →
    (m1 s1).1 = (m2 s2).1 ∧ same_but_prompts (m1 s1).2 (m2 s2).2.

(** [description] is absent from the analysis or is a text. *)
Definition description_is_text (analysis : dict) : Prop :=
  match analysis !! "description" with
  | None | Some (PStr _) => True
  | Some _ => False
  end.

(** [ports] is absent from the analysis or begins with a port that is not
    the empty text. *)
Definition ports_usable (analysis : dict) : Prop :=
  match analysis !! "ports" with
  | None => True
  | Some (PList (p :: _)) => p ≠ EmptyString
  | Some _ => False
  end.

(** An analysis in which the compose manifest maps no port. *)
Definition facts_without_ports : dict :=
  merge_facts example_analyzer compose_without_ports ∅.

Definition config_without_description : service_config :=
  ServiceConfig "myapp" (PStr "My App") (PStr EmptyString) (PStr "3000")
    (PStr "acme/my-app:latest") "myapp" (PBool false) (PBool false).

Definition facts_with_port : dict :=
  <["repo_name" := PStr "my-app"]> (<["repo_owner" := PStr "acme"]>
    (<["description" := PStr "A tiny web app."]> (<["ports" := PList ["8080"]]> ∅))).

(** A project with the six files the integrator edits. *)
Definition example_project : gmap path string :=
  <[compose_path ["opt"] := example_manifest]>
  (<[["opt"; ".env.example"] := "N8N_HOSTNAME=n8n.yourdomain.com" +:+ nl]>
  (<[["opt"; "config"; "caddy"; "Caddyfile"] := "# Caddyfile" +:+ nl]>
  (<[wizard_path ["opt"] := example_wizard]>
  (<[["opt"; "scripts"; "install"; "03_generate_secrets.sh"] :=
       concat_strings ["declare -A VARS=("; nl; "    [";  dq; "N8N_KEY"; dq; "]=";
                       dq; "hex:64"; dq; nl; ")"; nl]]>
  (<[report_path ["opt"] := example_report]> ∅))))).

Definition example_state (answers : list string) (r : option repo) : state :=
  State answers [] example_project ∅ {[ "tmp-of-another-run" ]} None r.

(** A repository whose [package.json] does not parse. *)
Definition broken_package : repo :=
  Repo {[ "Dockerfile" := example_dockerfile ]} (Some (Raise JSONDecodeError)).

(** ** More vocabulary: the inspectors *)

(** A piece of a Dockerfile: an [EXPOSE] line for a port, or a text without
    the letter [E]. *)
Inductive dockerfile_item : Type :=
| ExposeLine (port : string)
| OtherText (t : string).

Definition render_item (i : dockerfile_item) : string :=
  match i with
  | ExposeLine p => "EXPOSE " +:+ p +:+ nl
  | OtherText t => t
  end.

Definition render_dockerfile (items : list dockerfile_item) : string :=
  concat_strings (map render_item items).

(** The ports of the [EXPOSE] lines, in their order. *)
Definition exposed_of (items : list dockerfile_item) : list string :=
  omap (λ i, match i with ExposeLine p => Some p | OtherText _ => None end) items.

(** A port is a digit or more; a text between [EXPOSE] lines has no [E]. *)
Definition item_ok (i : dockerfile_item) : Prop :=
  match i with
  | ExposeLine p => p ≠ EmptyString ∧ string_forall is_digit p = true
  | OtherText t => string_forall (λ c, negb (is_char "E"%char c)) t = true
  end.

(** A repository whose only text file is [name]. *)
Definition single_file (name content : string) : repo :=
  Repo {[ name := content ]} None.

(** The keys that [run_analysis] sets itself. *)
Definition base_keys : gset string := {[ "repo_name"; "repo_owner"; "github_url" ]}.

(** A phrase of a compose manifest that mentions a dependency: [w] is
    [word] in some mix of cases. *)
Definition mentions (word w : string) : Prop := lower w = word.

(** [github_url.split('/')[-2]], the [repo_owner] of [ServiceAnalyzer.__init__] *)
Definition init_repo_owner (github_url : string) : result string :=
  match reverse (split_on "/"%char github_url) with
  | _ :: owner :: _ => Ok owner
  | _ => Raise IndexError
  end.

(** No character of [t] is a slash. *)
Definition no_slash (t : string) : Prop :=
  string_forall (λ c, negb (Ascii.eqb "/"%char c)) t = true.

(** ** More vocabulary: effects *)

(** [m] leaves the part [proj] of the state as it is, whatever it returns
    or raises. *)
Definition preserves {A X} (proj : state → X) (m : M A) : Prop :=
  ∀ s, proj (m s).2 = proj s.

(** What [m] returns, when it returns, satisfies [Q]. *)
Definition returns {A} (m : M A) (Q : A → Prop) : Prop :=
  ∀ s a s', m s = (Ok a, s') → Q a.

(** When [m] returns it has read [n] lines of the input. *)
Definition reads {A} (n : nat) (m : M A) : Prop :=
  ∀ s a s', m s = (Ok a, s') → ∃ ls, length ls = n ∧ stdin s = ls ++ stdin s'.

(** The content of the file at [p]. *)
Definition file_at (p : path) (s : state) : option string := files s !! p.

(** [ins] put right after the first occurrence of [anchor] in [content], and
    [content] as it is when [anchor] does not occur. *)
Definition insert_after_first (anchor ins content : string) : string :=
  match find_first anchor content with
  | Some (pre, post) => pre +:+ anchor +:+ ins +:+ post
  | None => content
  end.

(** [ins] put right before the first occurrence of [anchor] in [content]. *)
Definition insert_before_first (anchor ins content : string) : string :=
  match find_first anchor content with
  | Some (pre, post) => pre +:+ ins +:+ anchor +:+ post
  | None => content
  end.

Definition env_path (project_root : path) : path := project_root ++ [".env.example"].

Definition caddy_path (project_root : path) : path :=
  project_root ++ ["config"; "caddy"; "Caddyfile"].

(** The directory of the Caddyfile. *)
Definition caddy_dir (project_root : path) : path := project_root ++ ["config"; "caddy"].

Definition secrets_path (project_root : path) : path :=
  project_root ++ ["scripts"; "install"; "03_generate_secrets.sh"].

(** The six files that [integrate] edits. *)
Definition integrate_targets (project_root : path) : list path :=
  [compose_path project_root; env_path project_root; caddy_path project_root;
   wizard_path project_root; secrets_path project_root; report_path project_root].

(** The line of [add_to_env_example] for the description [d]. *)
Definition env_description_line (d : string) : string :=
  if truthy (PStr d) then string_take 100 d else "Service configuration".

(** The start of the wizard entry of [who], up to the quote that opens its
    label. *)
Definition wizard_anchor (who : string) : string :=
  dq +:+ who +:+ dq +:+ " " +:+ dq.

(** The closing of the array of secrets, at the start of a line. *)
Definition closing_anchor : string := nl +:+ ")".

(** The test that opens the report section of [who]. *)
Definition report_test (who : string) : string :=
  "if is_profile_active " +:+ dq +:+ who +:+ dq.

(** The declaration of the secret of [who] in the secrets script. *)
Definition secret_entry (who : string) : string :=
  "[" +:+ dq +:+ who +:+ "_APP_SECRET" +:+ dq +:+ "]=" +:+ dq +:+ "hex:64" +:+ dq.

(** The [try] block of the older [main]. *)
Definition legacy_main_body (self : analyzer) (project_root : path) : M (option Z) :=
  analysis <- run_analysis self ;;
  if negb (truthy (dict_get analysis "has_docker_compose" PNone))
     && negb (truthy (dict_get analysis "has_dockerfile" PNone))
  then mret (Some 1%Z)
  else
    r <- Legacy.interactive_config analysis ;;
    if r.1 then Legacy.integrate project_root r.2 ;;; mret None
    else mret (Some 1%Z).

(** The three files that the older [integrate] edits. *)
Definition legacy_targets (project_root : path) : list path :=
  [compose_path project_root; env_path project_root; project_root ++ ["Caddyfile"]].

(** No quote, a double quote or a single quote: what may stand before the
    host port of a port mapping. *)
Definition opening_quote (q : string) : Prop :=
  q = EmptyString ∨ q = dq ∨ q = sq.

(** [t] holds no dash. *)
Definition no_dash (t : string) : bool :=
  string_forall (λ c, negb (is_char "-"%char c)) t.

(** * Properties *)

(** ** Text *)

Section TextFacts.
Implicit Types a b s t pre post : string.

Lemma sapp_assoc a b s : (a +:+ b) +:+ s = a +:+ b +:+ s.
Proof. induction a as [|c a IH]; simpl; [done | by rewrite IH]. Qed.

Lemma sapp_nil_r a : a +:+ EmptyString = a.
Proof. induction a as [|c a IH]; simpl; [done | by rewrite IH]. Qed.

Lemma slength_app a b : String.length (a +:+ b) = String.length a + String.length b.
Proof. induction a as [|c a IH]; simpl; [done | by rewrite IH]. Qed.

Lemma string_take_app a b : string_take (String.length a) (a +:+ b) = a.
Proof. induction a as [|c a IH]; simpl; [by destruct b | by rewrite IH]. Qed.

Lemma string_take_consumed a b :
  string_take (String.length (a +:+ b) - String.length b) (a +:+ b) = a.
Proof.
  rewrite slength_app.
  replace (String.length a + String.length b - String.length b)
    with (String.length a) by lia.
  apply string_take_app.
Qed.

Lemma string_forall_app p a b :
  string_forall p (a +:+ b) = string_forall p a && string_forall p b.
Proof. induction a as [|c a IH]; simpl; [done | by rewrite IH, andb_assoc]. Qed.

Lemma string_forall_impl (p q : ascii → bool) s :
  (∀ c, p c = true → q c = true) →
  string_forall p s = true → string_forall q s = true.
Proof.
  intros Hpq. induction s as [|c s IH]; simpl; [done|].
  rewrite !andb_true_iff. intros [Hc Hs]. auto.
Qed.

Lemma string_forall_filter p s : string_forall p (string_filter p s) = true.
Proof.
  induction s as [|c s IH]; simpl; [done|].
  destruct (p c) eqn:Hc; simpl; [by rewrite Hc | done].
Qed.

Lemma string_filter_id p s : string_forall p s = true → string_filter p s = s.
Proof.
  induction s as [|c s IH]; simpl; [done|].
  rewrite andb_true_iff. intros [-> Hs]. by rewrite IH.
Qed.

Lemma strip_prefix_app a s : strip_prefix a (a +:+ s) = Some s.
Proof.
  induction a as [|c a IH]; simpl; [done|]. by rewrite Ascii.eqb_refl.
Qed.

Lemma strip_prefix_Some a s t : strip_prefix a s = Some t → s = a +:+ t.
Proof.
  revert s. induction a as [|c a IH]; intros s; simpl.
  - by intros [= ->].
  - destruct s as [|d s]; [done|].
    destruct (Ascii.eqb c d) eqn:Hcd; [|done].
    apply Ascii.eqb_eq in Hcd as ->. intros H. by rewrite (IH _ H).
Qed.

Lemma strip_prefix_more a s t b :
  strip_prefix a s = Some t → strip_prefix a (s +:+ b) = Some (t +:+ b).
Proof.
  intros H. rewrite (strip_prefix_Some _ _ _ H), sapp_assoc.
  apply strip_prefix_app.
Qed.

Lemma strip_prefix_less a s b :
  strip_prefix a s = None → String.length a ≤ String.length s →
  strip_prefix a (s +:+ b) = None.
Proof.
  revert s. induction a as [|c a IH]; intros s; simpl; [done|].
  destruct s as [|d s]; simpl; [lia|].
  destruct (Ascii.eqb c d); [|done]. intros H Hl. apply IH; [done | lia].
Qed.

Lemma find_first_Some a s pre post :
  find_first a s = Some (pre, post) → s = pre +:+ a +:+ post.
Proof.
  revert pre. induction s as [|c s IH]; intros pre; simpl.
  - destruct (strip_prefix a EmptyString) eqn:H; [|done].
    intros [= <- <-]. simpl. by apply strip_prefix_Some.
  - destruct (strip_prefix a (String c s)) eqn:H.
    + intros [= <- <-]. simpl. by apply strip_prefix_Some.
    + destruct (find_first a s) as [[p q]|] eqn:Hf; [|done].
      intros [= <- <-]. simpl. by rewrite (IH p).
Qed.

Lemma find_first_here a post : find_first a (a +:+ post) = Some (EmptyString, post).
Proof.
  pose proof (strip_prefix_app a post) as H.
  destruct (a +:+ post); simpl; by rewrite H.
Qed.

(** Where [a] first occurs does not depend on what follows that
    occurrence. *)
Lemma find_first_tail a pre post post' :
  find_first a (pre +:+ a +:+ post) = Some (pre, post) →
  find_first a (pre +:+ a +:+ post') = Some (pre, post').
Proof.
  induction pre as [|c pre IH]; simpl.
  - intros _. apply find_first_here.
  - destruct (strip_prefix a (String c (pre +:+ a +:+ post))) eqn:H; [done|].
    destruct (find_first a (pre +:+ a +:+ post)) as [[p q]|] eqn:Hf; [|done].
    intros [= -> ->].
    assert (strip_prefix a (String c (pre +:+ a +:+ post')) = None) as ->.
    { destruct (strip_prefix a (String c (pre +:+ a))) eqn:Hpa.
      - apply (strip_prefix_more _ _ _ post) in Hpa.
        simpl in Hpa. rewrite sapp_assoc in Hpa. congruence.
      - apply (strip_prefix_less _ _ post') in Hpa.
        + simpl in Hpa. by rewrite sapp_assoc in Hpa.
        + simpl. rewrite slength_app. lia. }
    by rewrite IH.
Qed.

Lemma occurrences_find a s : 0 < occurrences a s → is_Some (find_first a s).
Proof.
  induction s as [|c s IH]; simpl.
  - destruct (strip_prefix a EmptyString); [eauto | lia].
  - destruct (strip_prefix a (String c s)); [eauto|]. simpl.
    intros H. destruct (IH H) as [[p q] ->]. eauto.
Qed.

Lemma contains_false a s : contains a s = false → find_first a s = None.
Proof.
  unfold contains. intros H%bool_decide_eq_false.
  destruct (find_first a s); [|done]. by destruct H.
Qed.

Lemma contains_true a s : contains a s = true → is_Some (find_first a s).
Proof. unfold contains. by intros H%bool_decide_eq_true. Qed.

End TextFacts.

(** ** The matcher on the shapes of pattern the integrator uses *)

Section RegexFacts.
Implicit Types w s t pre post : string.

Lemma is_char_true a c : is_char a c = true ↔ a = c.
Proof. apply Ascii.eqb_eq. Qed.

Lemma rmatch_lit {R} w prev s g (k : option ascii → string → option string → option R) :
  rmatch (lit w) prev s g k =
  match strip_prefix w s with
  | Some t => k (last_of prev w) t g
  | None => None
  end.
Proof.
  revert prev s. induction w as [|c w IH]; intros prev s; simpl; [done|].
  destruct s as [|d s]; [done|]. unfold is_char.
  destruct (Ascii.eqb c d) eqn:Hcd; [|done].
  apply Ascii.eqb_eq in Hcd as ->. apply IH.
Qed.

Lemma begins_with_group_lit w : begins_with w (RGroup (lit w)).
Proof.
  intros prev s H. unfold match_here. simpl. by rewrite rmatch_lit, H.
Qed.

Lemma begins_with_group_seq w r : begins_with w (RGroup (RSeq (lit w) r)).
Proof.
  intros prev s H. unfold match_here. simpl. by rewrite rmatch_lit, H.
Qed.

Lemma begins_with_seq_group_seq w r r' :
  begins_with w (RSeq (RGroup (RSeq (lit w) r)) r').
Proof.
  intros prev s H. unfold match_here. simpl. by rewrite rmatch_lit, H.
Qed.

Lemma begins_with_seq_group_lit w r' : begins_with w (RSeq (RGroup (lit w)) r').
Proof.
  intros prev s H. unfold match_here. simpl. by rewrite rmatch_lit, H.
Qed.

(** The search stops at the first occurrence of the literal when the
    pattern matches there. *)
Lemma search_from_first w r :
  begins_with w r →
  ∀ s prev pre post t g,
    find_first w s = Some (pre, post) →
    match_here r (last_of prev pre) (w +:+ post) = Some (t, g) →
    search_from r prev s =
    Some (ReMatch pre
            (string_take (String.length (w +:+ post) - String.length t) (w +:+ post))
            g t).
Proof.
  intros Hr. induction s as [|c s IH]; intros prev pre post t g; simpl.
  - destruct (strip_prefix w EmptyString) as [q|] eqn:H; [|done].
    intros [= <- <-]. simpl. rewrite <- (strip_prefix_Some _ _ _ H).
    by intros ->.
  - destruct (strip_prefix w (String c s)) as [q|] eqn:H.
    + intros [= <- <-]. simpl. rewrite <- (strip_prefix_Some _ _ _ H).
      by intros ->.
    + destruct (find_first w s) as [[p q]|] eqn:Hf; [|done].
      intros [= <- <-]. simpl. intros Hm.
      rewrite (Hr _ _ H). by rewrite (IH _ _ _ _ _ eq_refl Hm).
Qed.

Lemma search_from_none w r :
  begins_with w r →
  ∀ s prev, find_first w s = None → search_from r prev s = None.
Proof.
  intros Hr. induction s as [|c s IH]; intros prev; simpl.
  - destruct (strip_prefix w EmptyString) eqn:H; [done|].
    intros _. by rewrite (Hr _ _ H).
  - destruct (strip_prefix w (String c s)) eqn:H; [done|].
    destruct (find_first w s) as [[p q]|] eqn:Hf; [done|].
    intros _. by rewrite (Hr _ _ H), IH.
Qed.

Lemma match_here_group_lit w prev post :
  match_here (RGroup (lit w)) prev (w +:+ post) = Some (post, Some w).
Proof.
  unfold match_here. simpl.
  by rewrite rmatch_lit, strip_prefix_app, string_take_consumed.
Qed.

(** [re.search] for [(w)], a group around a literal. *)
Lemma re_search_group_lit w s pre post :
  find_first w s = Some (pre, post) →
  re_search (RGroup (lit w)) s = Some (ReMatch pre w (Some w) post).
Proof.
  intros H. unfold re_search.
  rewrite (search_from_first w _ (begins_with_group_lit w) _ _ _ _ post (Some w) H).
  - by rewrite string_take_consumed.
  - apply match_here_group_lit.
Qed.

(** A greedy repetition takes every character of the class when what
    follows the repetition then succeeds. *)
Lemma repeat_match_greedy {R} p (k : option ascii → string → option R) body :
  ∀ lo prev rest,
    string_forall p body = true →
    lo ≤ String.length body →
    match rest with String c _ => p c = false | EmptyString => True end →
    is_Some (k (last_of prev body) rest) →
    repeat_match true p k lo prev (body +:+ rest) = k (last_of prev body) rest.
Proof.
  induction body as [|c body IH]; intros lo prev rest Hall Hlo Hrest Hk; simpl in *.
  - assert (lo = 0) as -> by lia.
    destruct rest as [|d rest]; simpl; [done|]. by rewrite Hrest.
  - apply andb_true_iff in Hall as [Hc Hall]. rewrite Hc.
    destruct lo as [|lo].
    + rewrite (IH 0 (Some c) rest) by (done || lia).
      by destruct Hk as [x ->].
    + apply IH; [done | lia | done | done].
Qed.

End RegexFacts.

(** ** Replacement templates *)

Section TemplateFacts.
Implicit Types t u : string.

Lemma parse_template_lits g t u :
  no_backslash t = true →
  parse_template g None (t +:+ u) =
  rbind (parse_template g None u) (λ ps, Ok (lits t ++ ps)).
Proof.
  unfold no_backslash. induction t as [|c t IH]; simpl.
  - intros _. by destruct (parse_template g None u).
  - rewrite andb_true_iff. intros [-> Ht]. rewrite (IH Ht). unfold add_lit.
    by destruct (parse_template g None u).
Qed.

Lemma parse_template_literal g t :
  no_backslash t = true → parse_template g None t = Ok (lits t).
Proof.
  intros H. rewrite <- (sapp_nil_r t) at 1.
  rewrite parse_template_lits by done. simpl. by rewrite app_nil_r.
Qed.

(** [\\1] followed by something that is not a digit. *)
Lemma parse_template_group1 g u :
  head_not_digit u →
  parse_template g None (String bs_char (String "1"%char u)) =
  add_group g 1 (parse_template g None u).
Proof.
  intros Hu. remember u as v eqn:Ev in Hu.
  simpl. destruct u as [|d w]; [done|]. subst v. simpl in Hu. by rewrite Hu.
Qed.

Lemma expand_app m ps qs : expand m (ps ++ qs) = expand m ps +:+ expand m qs.
Proof.
  unfold expand. induction ps as [|p ps IH]; simpl; [done|].
  by rewrite IH, sapp_assoc.
Qed.

Lemma expand_lits m t : expand m (lits t) = t.
Proof.
  unfold expand. induction t as [|c t IH]; simpl; [done | by rewrite IH].
Qed.

Lemma expand_after m t : expand m (TGroup 1 :: lits t) = group1 m +:+ t.
Proof. rewrite <- (expand_lits m t) at 2. reflexivity. Qed.

Lemma expand_before m t : expand m (lits t ++ [TGroup 1]) = t +:+ group1 m.
Proof.
  rewrite expand_app, expand_lits. unfold expand. simpl. by rewrite sapp_nil_r.
Qed.

(** The two templates of the integrator: the group, then a text; a text,
    then the group. *)
Lemma parse_template_after t :
  no_backslash t = true → head_not_digit t →
  parse_template 1 None (String bs_char (String "1"%char t)) = Ok (TGroup 1 :: lits t).
Proof.
  intros Ht Hd. rewrite parse_template_group1 by done.
  by rewrite parse_template_literal.
Qed.

Lemma parse_template_before t :
  no_backslash t = true →
  parse_template 1 None (t +:+ String bs_char "1") = Ok (lits t ++ [TGroup 1]).
Proof. intros Ht. by rewrite parse_template_lits. Qed.

Lemma no_backslash_app t u :
  no_backslash (t +:+ u) = no_backslash t && no_backslash u.
Proof. apply string_forall_app. Qed.

End TemplateFacts.

(** ** Service names *)

Section NameFacts.

Lemma sub_scan_class p s prev :
  sub_scan (RChar p) [] prev s 0 = string_filter (λ c, negb (p c)) s.
Proof.
  revert prev. induction s as [|c s IH]; intros prev; [done|].
  simpl. unfold match_here. simpl. destruct (p c) eqn:Hc; simpl.
  - replace (S (String.length s) - String.length s) with 1 by lia.
    unfold expand. simpl. apply IH.
  - by rewrite IH.
Qed.

Lemma normalize_name_filter s : normalize_name s = Ok (string_filter is_name_char s).
Proof.
  unfold normalize_name, re_sub. simpl. rewrite sub_scan_class.
  f_equal. induction s as [|c s IH]; simpl; [done|].
  unfold not_name_char at 1. fold (is_name_char c). rewrite negb_involutive.
  by rewrite IH.
Qed.

Lemma normalize_name_valid s t : normalize_name s = Ok t → valid_name t.
Proof.
  rewrite normalize_name_filter. intros [= <-]. apply string_forall_filter.
Qed.

Lemma name_char_not_backslash c : is_name_char c = true → negb (is_char bs_char c) = true.
Proof.
  intros H. destruct (is_char bs_char c) eqn:E; [|done].
  apply is_char_true in E as <-. by vm_compute in H.
Qed.

Lemma valid_name_no_backslash n : valid_name n → no_backslash n = true.
Proof. apply string_forall_impl, name_char_not_backslash. Qed.

End NameFacts.

(** C7.  The normalisation of the service name, [re.sub(r'[^a-z0-9-]', '',
    name)], returns on every text, its result holds only lowercase letters,
    digits and hyphens, and normalising the result again leaves it as it
    is. *)
Theorem normalize_name_total_valid_idempotent (s : string) :
  ∃ t, normalize_name s = Ok t ∧ valid_name t ∧ normalize_name t = Ok t.
Proof.
  exists (string_filter is_name_char s).
  split; [apply normalize_name_filter|].
  split; [apply string_forall_filter|].
  rewrite normalize_name_filter. f_equal.
  apply string_filter_id, string_forall_filter.
Qed.

(** ** The manifest: [add_to_docker_compose] *)

#[local] Arguments volumes_anchor : simpl never.
#[local] Arguments volume_line : simpl never.
#[local] Arguments service_block : simpl never.

Section Manifest.
Implicit Types (cfg : service_config) (s : state) (root : path).

Lemma volume_repl_eq cfg :
  volume_repl cfg = String bs_char (String "1"%char (volume_line cfg)).
Proof. reflexivity. Qed.

Lemma volume_line_no_backslash cfg :
  valid_name (name cfg) → no_backslash (volume_line cfg) = true.
Proof.
  intros H. unfold volume_line, volume_name.
  rewrite !no_backslash_app, (valid_name_no_backslash _ H). reflexivity.
Qed.

Lemma re_sub_first_volumes cfg content pre post :
  valid_name (name cfg) →
  find_first volumes_anchor content = Some (pre, post) →
  re_sub_first 1 re_volumes (volume_repl cfg) content =
  Ok (pre +:+ volumes_anchor +:+ volume_line cfg +:+ post).
Proof.
  intros Hn Hf. unfold re_sub_first, re_volumes.
  rewrite volume_repl_eq, parse_template_after;
    [|by apply volume_line_no_backslash|reflexivity].
  cbn [rbind]. rewrite (re_search_group_lit _ _ _ _ Hf). cbn [m_before m_after].
  rewrite expand_after. unfold group1. simpl. by rewrite sapp_assoc.
Qed.

(** One run, for a manifest whose first [volumes:] line is known. *)
Lemma add_to_docker_compose_first root cfg s content pre post :
  files s !! compose_path root = Some content →
  valid_name (name cfg) →
  find_first volumes_anchor content = Some (pre, post) →
  Integrate.add_to_docker_compose root cfg s =
  (Ok tt,
   set_files (<[compose_path root :=
                  pre +:+ volumes_anchor +:+ volume_line cfg +:+ post
                  +:+ service_block cfg]> (files s)) s).
Proof.
  intros Hfile Hn Hf.
  pose proof (find_first_Some _ _ _ _ Hf) as Hc.
  assert (find_first volumes_anchor (content +:+ service_block cfg)
          = Some (pre, post +:+ service_block cfg)) as Hf'.
  { rewrite Hc, !sapp_assoc. apply (find_first_tail _ _ post). by rewrite <- Hc. }
  unfold Integrate.add_to_docker_compose, bind, append_file, read_file, lift,
    write_file. fold (compose_path root). rewrite Hfile. simpl.
  rewrite lookup_insert_eq.
  rewrite (re_sub_first_volumes _ _ _ _ Hn Hf'). simpl.
  unfold set_files. simpl. by rewrite insert_insert_eq.
Qed.

End Manifest.

(** C2.  For a manifest that holds [volumes:\n] exactly once, one run of
    [add_to_docker_compose] returns and leaves the manifest with one new
    line, the volume key, right after that occurrence and with the service
    stanza at its end, nothing else changed; a second run on the result
    returns too and puts its volume key after the same occurrence. *)
Theorem add_to_docker_compose_one_volume_key
    (root : path) (cfg cfg2 : service_config) (s : state) (content : string) :
  files s !! compose_path root = Some content →
  valid_name (name cfg) → valid_name (name cfg2) →
  occurrences volumes_anchor content = 1 →
  ∃ pre post,
    content = pre +:+ volumes_anchor +:+ post ∧
    find_first volumes_anchor content = Some (pre, post) ∧
    let once := pre +:+ volumes_anchor +:+ volume_line cfg +:+ post
                +:+ service_block cfg in
    let twice := pre +:+ volumes_anchor +:+ volume_line cfg2 +:+ volume_line cfg
                 +:+ post +:+ service_block cfg +:+ service_block cfg2 in
    let s1 := set_files (<[compose_path root := once]> (files s)) s in
    Integrate.add_to_docker_compose root cfg s = (Ok tt, s1) ∧
    Integrate.add_to_docker_compose root cfg2 s1
    = (Ok tt, set_files (<[compose_path root := twice]> (files s)) s).
Proof.
  intros Hfile Hn Hn2 Hocc.
  destruct (occurrences_find volumes_anchor content) as [[pre post] Hf]; [lia|].
  exists pre, post.
  pose proof (find_first_Some _ _ _ _ Hf) as Hc.
  split; [done|]. split; [done|]. cbv zeta.
  split; [by apply (add_to_docker_compose_first _ _ _ content)|].
  erewrite (add_to_docker_compose_first root cfg2 _ _ pre
              (volume_line cfg +:+ post +:+ service_block cfg)).
  - unfold set_files. cbn [files stdin prompts dirs temp_dir remote].
    rewrite insert_insert_eq. by rewrite !sapp_assoc.
  - cbn [files set_files]. by rewrite lookup_insert_eq.
  - done.
  - apply (find_first_tail _ _ post). by rewrite <- Hc.
Qed.

Lemma add_to_docker_compose_one_volume_key_witness :
  let s := state_with_files {[ compose_path ["opt"] := example_manifest ]} in
  (files s !! compose_path ["opt"] = Some example_manifest
   ∧ valid_name (name example_config)
   ∧ occurrences volumes_anchor example_manifest = 1)
  ∧ ∃ pre post,
      example_manifest = pre +:+ volumes_anchor +:+ post ∧
      find_first volumes_anchor example_manifest = Some (pre, post) ∧
      let once := pre +:+ volumes_anchor +:+ volume_line example_config +:+ post
                  +:+ service_block example_config in
      let twice := pre +:+ volumes_anchor +:+ volume_line example_config
                   +:+ volume_line example_config
                   +:+ post +:+ service_block example_config
                   +:+ service_block example_config in
      let s1 := set_files (<[compose_path ["opt"] := once]> (files s)) s in
      Integrate.add_to_docker_compose ["opt"] example_config s = (Ok tt, s1) ∧
      Integrate.add_to_docker_compose ["opt"] example_config s1
      = (Ok tt, set_files (<[compose_path ["opt"] := twice]> (files s)) s).
Proof.
  intros s.
  assert (files s !! compose_path ["opt"] = Some example_manifest) as H1
    by reflexivity.
  assert (valid_name (name example_config)) as H2 by reflexivity.
  assert (occurrences volumes_anchor example_manifest = 1) as H3 by reflexivity.
  split; [done|].
  exact (add_to_docker_compose_one_volume_key ["opt"] example_config example_config
           s example_manifest H1 H2 H2 H3).
Defined.

(** ** The wizard script: [add_to_wizard] *)

#[local] Arguments services_marker : simpl never.
#[local] Arguments service_line : simpl never.

Section Wizard.
Implicit Types (cfg : service_config) (s : state) (root : path).

Lemma match_here_services_data prev body rest :
  string_forall not_rparen body = true →
  body ≠ EmptyString →
  closes_block rest →
  match_here re_services_data prev (services_marker +:+ body +:+ rest) =
  Some (rest, Some (services_marker +:+ body)).
Proof.
  intros Hbody Hne Hrest. unfold match_here, re_services_data.
  cbn [rseq rmatch rplus]. rewrite rmatch_lit, strip_prefix_app.
  rewrite repeat_match_greedy.
  - by rewrite <- sapp_assoc, string_take_consumed.
  - done.
  - destruct body; [done | simpl; lia].
  - destruct rest as [|c rest]; [done|]. simpl in Hrest. by subst c.
  - eauto.
Qed.

Lemma re_search_services_data content pre body rest :
  find_first services_marker content = Some (pre, body +:+ rest) →
  string_forall not_rparen body = true →
  body ≠ EmptyString →
  closes_block rest →
  re_search re_services_data content =
  Some (ReMatch pre (services_marker +:+ body) (Some (services_marker +:+ body)) rest).
Proof.
  intros Hf Hbody Hne Hrest. unfold re_search.
  rewrite (search_from_first services_marker re_services_data
             (begins_with_group_seq _ _) _ _ _ _ rest
             (Some (services_marker +:+ body)) Hf).
  - by rewrite <- sapp_assoc, string_take_consumed.
  - by apply match_here_services_data.
Qed.

Lemma service_line_no_backslash cfg :
  valid_name (name cfg) →
  no_backslash (py_str (display_name cfg)) = true →
  no_backslash (service_line cfg) = true.
Proof.
  intros Hn Hd. unfold service_line, concat_strings. cbn [foldr].
  rewrite !no_backslash_app, (valid_name_no_backslash _ Hn), Hd. reflexivity.
Qed.

Lemma wizard_repl_eq cfg :
  concat_strings [bs; "1"; nl; service_line cfg]
  = String bs_char (String "1"%char (nl +:+ service_line cfg)).
Proof.
  unfold concat_strings. cbn [foldr]. by rewrite sapp_nil_r.
Qed.

End Wizard.

(** C5, as the claim states it, fails: with neither anchor in the wizard
    script, the entry does not go right after the opening line of the data
    block but after the entries that are already there. *)
Lemma add_to_wizard_fallback_not_after_opening :
  let s := state_with_files {[ wizard_path ["opt"] := example_wizard ]} in
  contains (dq +:+ "outline" +:+ dq) example_wizard = false ∧
  contains (dq +:+ "docmost" +:+ dq) example_wizard = false ∧
  files (Integrate.add_to_wizard ["opt"] example_config s).2 !! wizard_path ["opt"]
  = Some (concat_strings [
      "#!/bin/bash"; nl;
      "base_services_data=("; nl;
      "    "; dq; "n8n"; dq; " "; dq; "n8n workflows"; dq; nl;
      "    "; dq; "flowise"; dq; " "; dq; "Flowise"; dq; nl;
      nl;
      "    "; dq; "myapp"; dq; " "; dq; "My App"; dq; nl;
      ")"; nl;
      "echo done"; nl ]) ∧
  files (Integrate.add_to_wizard ["opt"] example_config s).2 !! wizard_path ["opt"]
  ≠ Some (insert_after_opening_marker example_config example_wizard).
Proof.
  vm_compute. repeat split; congruence.
Qed.

(** The fallback of [add_to_wizard] at large: the entry is written, after a
    newline, at the end of the run of characters other than [)] that
    follows the first opening of the data block. *)
Lemma add_to_wizard_fallback_run
    (root : path) (cfg : service_config) (s : state) (content pre body rest : string) :
  files s !! wizard_path root = Some content →
  contains (dq +:+ "outline" +:+ dq) content = false →
  contains (dq +:+ "docmost" +:+ dq) content = false →
  find_first services_marker content = Some (pre, body +:+ rest) →
  body ≠ EmptyString →
  string_forall not_rparen body = true →
  closes_block rest →
  valid_name (name cfg) →
  no_backslash (py_str (display_name cfg)) = true →
  Integrate.add_to_wizard root cfg s =
  (Ok tt,
   set_files (<[wizard_path root :=
                  pre +:+ services_marker +:+ body +:+ nl +:+ service_line cfg +:+ rest]>
                (files s)) s).
Proof.
  intros Hfile Ho Hd Hf Hne Hbody Hrest Hn Hdn.
  unfold Integrate.add_to_wizard, bind, read_file, lift, write_file.
  fold (wizard_path root). rewrite Hfile, Ho, Hd, wizard_repl_eq.
  unfold re_sub_first. rewrite parse_template_after.
  - cbn [rbind]. rewrite (re_search_services_data _ _ _ _ Hf Hbody Hne Hrest).
    cbn [m_before m_after]. rewrite expand_after. unfold group1. cbn [m_group1 default].
    by rewrite !sapp_assoc.
  - rewrite no_backslash_app. by rewrite service_line_no_backslash.
  - reflexivity.
Qed.

(** A label that holds [)] stops the run: the entry is then written inside
    that label, not before the parenthesis that closes the block. *)
Example add_to_wizard_fallback_label_with_paren :
  let s := state_with_files {[ wizard_path ["opt"] := wizard_with_paren ]} in
  files (Integrate.add_to_wizard ["opt"] example_config s).2 !! wizard_path ["opt"]
  = Some (concat_strings [
      "#!/bin/bash"; nl;
      "base_services_data=("; nl;
      "    "; dq; "n8n"; dq; " "; dq; "n8n (workflows"; nl;
      "    "; dq; "myapp"; dq; " "; dq; "My App"; dq; nl;
      ")"; dq; nl;
      ")"; nl ]).
Proof. vm_compute. reflexivity. Qed.

Section WizardBlock.
Implicit Types (e : string * string) (es : list (string * string)).

Lemma entry_text_no_rparen t :
  entry_text_ok t = true → string_forall not_rparen t = true.
Proof.
  apply string_forall_impl. intros c Hc. by apply andb_true_iff in Hc as [_ Hc].
Qed.

Lemma wizard_entry_no_rparen e :
  wizard_entry_ok e → string_forall not_rparen (wizard_entry e) = true.
Proof.
  intros [H1 H2]. unfold wizard_entry, concat_strings. cbn [foldr].
  rewrite !string_forall_app, (entry_text_no_rparen _ H1), (entry_text_no_rparen _ H2).
  reflexivity.
Qed.

Lemma wizard_entries_no_rparen es :
  Forall wizard_entry_ok es → string_forall not_rparen (wizard_entries es) = true.
Proof.
  unfold wizard_entries, concat_strings.
  induction 1 as [|e es He Hes IH]; cbn [map foldr]; [done|].
  by rewrite string_forall_app, (wizard_entry_no_rparen _ He), IH.
Qed.

End WizardBlock.

(** C5, amended.  With neither anchor in the wizard script, when the first
    [base_services_data=(] at the start of a line opens a block of entries,
    each a quoted name and a quoted label on a line of its own, none of
    which holds [)], the new entry is written, after a newline, after the
    entries of the block and right before the parenthesis that closes it,
    not right after the opening; the display name holds no backslash. *)
Theorem add_to_wizard_fallback_before_closing
    (root : path) (cfg : service_config) (s : state) (content pre post : string)
    (entries : list (string * string)) :
  files s !! wizard_path root = Some content →
  contains (dq +:+ "outline" +:+ dq) content = false →
  contains (dq +:+ "docmost" +:+ dq) content = false →
  find_first services_marker content
  = Some (pre, nl +:+ wizard_entries entries +:+ ")" +:+ post) →
  Forall wizard_entry_ok entries →
  valid_name (name cfg) →
  no_backslash (py_str (display_name cfg)) = true →
  Integrate.add_to_wizard root cfg s =
  (Ok tt,
   set_files (<[wizard_path root :=
                  pre +:+ services_marker +:+ nl +:+ wizard_entries entries
                  +:+ nl +:+ wizard_entry (name cfg, py_str (display_name cfg))
                  +:+ ")" +:+ post]>
                (files s)) s).
Proof.
  intros Hfile Ho Hd Hf Hes Hn Hdn.
  rewrite (add_to_wizard_fallback_run root cfg s content pre
             (nl +:+ wizard_entries entries) (")" +:+ post) Hfile Ho Hd).
  - by rewrite !sapp_assoc.
  - by rewrite sapp_assoc.
  - discriminate.
  - rewrite string_forall_app, (wizard_entries_no_rparen _ Hes). reflexivity.
  - reflexivity.
  - exact Hn.
  - exact Hdn.
Qed.

Lemma add_to_wizard_fallback_before_closing_witness :
  let s := state_with_files {[ wizard_path ["opt"] := example_wizard ]} in
  let entries := [("n8n", "n8n workflows"); ("flowise", "Flowise")] in
  let post := concat_strings [nl; "echo done"; nl] in
  Forall wizard_entry_ok entries ∧
  Integrate.add_to_wizard ["opt"] example_config s =
  (Ok tt,
   set_files (<[wizard_path ["opt"] :=
                  "#!/bin/bash" +:+ services_marker +:+ nl +:+ wizard_entries entries
                  +:+ nl +:+ wizard_entry ("myapp", "My App") +:+ ")" +:+ post]>
                (files s)) s).
Proof.
  intros s entries post.
  assert (Forall wizard_entry_ok entries) as Hes by (repeat constructor).
  split; [exact Hes|].
  apply (add_to_wizard_fallback_before_closing ["opt"] example_config s example_wizard
           "#!/bin/bash" post entries); try reflexivity.
  exact Hes.
Defined.

(** ** The report script: [add_to_final_report] *)

Lemma set_files_same (s : state) (p : path) (c : string) :
  files s !! p = Some c → set_files (<[p := c]> (files s)) s = s.
Proof.
  intros H. unfold set_files. rewrite (insert_id _ _ _ H). by destruct s.
Qed.

(** C8.  When the report script holds none of the four anchors
    [is_profile_active "outline"], [... "docmost"], [... "paddleocr"] and
    [... "python-runner"], [add_to_final_report] returns and writes back the
    content it has read: the file, and the rest of the state, is as before. *)
Theorem add_to_final_report_no_anchor_unchanged
    (root : path) (cfg : service_config) (s : state) (content : string) :
  files s !! report_path root = Some content →
  contains (Integrate.report_anchor "outline") content = false →
  contains (Integrate.report_anchor "docmost") content = false →
  contains (Integrate.report_anchor "paddleocr") content = false →
  contains (Integrate.report_anchor "python-runner") content = false →
  Integrate.add_to_final_report root cfg s = (Ok tt, s) ∧
  files (Integrate.add_to_final_report root cfg s).2 !! report_path root = Some content.
Proof.
  intros Hfile H1 H2 H3 H4.
  assert (Integrate.add_to_final_report root cfg s = (Ok (), s)) as E.
  { unfold Integrate.add_to_final_report, bind, read_file, lift, write_file.
    fold (report_path root). rewrite Hfile, H1, H2, H3, H4.
    by rewrite set_files_same. }
  by rewrite E.
Qed.

Lemma add_to_final_report_no_anchor_unchanged_witness :
  let s := state_with_files {[ report_path ["opt"] := example_report ]} in
  contains (Integrate.report_anchor "outline") example_report = false ∧
  Integrate.add_to_final_report ["opt"] example_config s = (Ok tt, s) ∧
  files (Integrate.add_to_final_report ["opt"] example_config s).2 !! report_path ["opt"]
  = Some example_report.
Proof.
  intros s. split; [reflexivity|].
  apply (add_to_final_report_no_anchor_unchanged ["opt"] example_config s example_report);
    reflexivity.
Defined.

(** ** Effects that leave the workspace alone *)

Section Frames.
Context {A B : Type}.
Implicit Types (m : M A) (f : A → M B).

Lemma keeps_mret (a : A) : keeps_workspace (mret a).
Proof. done. Qed.

Lemma keeps_raise e : keeps_workspace (@raise A e).
Proof. done. Qed.

Lemma keeps_lift (r : result A) : keeps_workspace (lift r).
Proof. done. Qed.

(** What [bind m f] does to a part of the state that no [f a] changes is
    what [m] does to it. *)
Lemma bind_after {X} (proj : state → X) m f s :
  (∀ a s1, proj (f a s1).2 = proj s1) →
  proj (bind m f s).2 = proj (m s).2.
Proof.
  intros Hf. unfold bind. destruct (m s) as [[a|e] s1]; simpl; [apply Hf | done].
Qed.

Lemma keeps_bind m f :
  keeps_workspace m → (∀ a, keeps_workspace (f a)) → keeps_workspace (bind m f).
Proof.
  intros Hm Hf s. unfold bind. destruct (Hm s) as [Hd Ht].
  destruct (m s) as [[a|e] s1]; simpl in *; [|done].
  destruct (Hf a s1) as [Hd' Ht']. split; congruence.
Qed.

Lemma keeps_if (b : bool) (m1 m2 : M A) :
  keeps_workspace m1 → keeps_workspace m2 → keeps_workspace (if b then m1 else m2).
Proof. by destruct b. Qed.

End Frames.

Lemma keeps_input prompt : keeps_workspace (input prompt).
Proof. intros s. unfold input. by destruct (stdin s). Qed.

Lemma keeps_input_or prompt dflt : keeps_workspace (input_or prompt dflt).
Proof.
  unfold input_or. apply keeps_bind; [apply keeps_input | intros; apply keeps_mret].
Qed.

Lemma keeps_read_file p : keeps_workspace (read_file p).
Proof. intros s. unfold read_file. by destruct (files s !! p). Qed.

Lemma keeps_write_file p c : keeps_workspace (write_file p c).
Proof. done. Qed.

Lemma keeps_append_file p c : keeps_workspace (append_file p c).
Proof. done. Qed.

Lemma keeps_append_file_in d n c : keeps_workspace (append_file_in d n c).
Proof. intros s. unfold append_file_in. by destruct (dir_exists d s). Qed.

Create HintDb workspace.
#[local] Hint Resolve keeps_mret keeps_raise keeps_lift keeps_input keeps_input_or
  keeps_read_file keeps_write_file keeps_append_file keeps_append_file_in : workspace.

Ltac keeps :=
  repeat first
    [ solve [auto with workspace]
    | progress cbv zeta
    | apply keeps_bind; [|intros]
    | apply keeps_if ].

Lemma keeps_interactive_config analysis :
  keeps_workspace (Integrate.interactive_config analysis).
Proof. unfold Integrate.interactive_config. keeps. Qed.

Lemma keeps_integrate root cfg : keeps_workspace (Integrate.integrate root cfg).
Proof.
  unfold Integrate.integrate, Integrate.add_to_docker_compose,
    Integrate.add_to_env_example, Integrate.add_to_caddyfile, Integrate.add_to_wizard,
    Integrate.add_to_secrets, Integrate.add_to_final_report.
  keeps.
Qed.

#[local] Hint Resolve keeps_interactive_config keeps_integrate : workspace.

(** ** The workspace of [main] *)

Lemma run_analysis_state self s : (run_analysis self s).2 = with_workspace s.
Proof.
  unfold run_analysis, clone_repo, bind, mkdtemp, modify, git_clone, lift, mret.
  cbn [remote set_temp_dir set_dirs]. destruct (remote s) as [r|]; [|done].
  by destruct (analyze_package_json r).
Qed.

Lemma cleanup_with_workspace self s s1 :
  dirs s1 = dirs (with_workspace s) →
  temp_dir s1 = temp_dir (with_workspace s) →
  cleanup self s1 = (Ok tt, set_dirs (dirs s) s1).
Proof.
  intros Edirs Etemp. unfold cleanup. rewrite Etemp, Edirs. cbn.
  rewrite bool_decide_eq_true_2 by set_solver.
  repeat f_equal. pose proof (is_fresh (dirs s)). set_solver.
Qed.

Lemma main_unfold self root :
  Integrate.main self root =
  (modify (set_temp_dir None) ;;;
   early <- try_finally (main_body self root) (cleanup self) ;;
   mret (default 0%Z early)).
Proof. reflexivity. Qed.

Lemma main_body_workspace self root s :
  dirs (main_body self root s).2 = dirs (with_workspace s) ∧
  temp_dir (main_body self root s).2 = temp_dir (with_workspace s).
Proof.
  unfold main_body. rewrite <- (run_analysis_state self s). split.
  - apply (bind_after dirs). intros a s1.
    assert (keeps_workspace
              (if negb (truthy (dict_get a "has_docker_compose" PNone))
                  && negb (truthy (dict_get a "has_dockerfile" PNone))
               then mret (Some 1%Z)
               else r <- Integrate.interactive_config a ;;
                    if r.1 then Integrate.integrate root r.2 ;;; mret None
                    else mret (Some 1%Z))) as K by keeps.
    apply K.
  - apply (bind_after temp_dir). intros a s1.
    assert (keeps_workspace
              (if negb (truthy (dict_get a "has_docker_compose" PNone))
                  && negb (truthy (dict_get a "has_dockerfile" PNone))
               then mret (Some 1%Z)
               else r <- Integrate.interactive_config a ;;
                    if r.1 then Integrate.integrate root r.2 ;;; mret None
                    else mret (Some 1%Z))) as K by keeps.
    apply K.
Qed.

(** The state in which [main] leaves the [try] statement: the one the
    block ended in, without the workspace. *)
Lemma main_try_finally self root s :
  try_finally (main_body self root) (cleanup self) s =
  ((main_body self root s).1, set_dirs (dirs s) (main_body self root s).2).
Proof.
  unfold try_finally. destruct (main_body_workspace self root s) as [Hd Ht].
  destruct (main_body self root s) as [r s1]. simpl in *.
  by rewrite (cleanup_with_workspace self s s1 Hd Ht).
Qed.

(** C9.  However [main] leaves its [try] block (by its end, by the return
    for no Docker support or for a declined confirmation, or by an
    exception of the clone, of the analysis, of a prompt or of a mutation),
    [cleanup] has run: the workspace directory that [clone_repo] created is
    gone, and the temporary directories are those of before the run. *)
Theorem main_removes_workspace (self : analyzer) (root : path) (s : state) :
  let workspace := fresh (dirs s) in
  (workspace ∉ dirs s) ∧
  (workspace ∈ dirs (run_analysis self (set_temp_dir None s)).2) ∧
  (workspace ∉ dirs (Integrate.main self root s).2) ∧
  dirs (Integrate.main self root s).2 = dirs s.
Proof.
  assert (dirs (Integrate.main self root s).2 = dirs s) as E.
  { rewrite main_unfold. unfold bind at 1. unfold modify. unfold bind.
    rewrite main_try_finally.
    by destruct (main_body self root (set_temp_dir None s)).1. }
  cbv zeta. rewrite E, run_analysis_state.
  pose proof (is_fresh (dirs s)) as Hfresh.
  split; [done|]. split; [|done]. cbn. set_solver.
Qed.

(** C3.  When the analysis returns a dict in which neither
    [has_dockerfile] nor [has_docker_compose] holds, [main] returns 1; no
    prompt is made, no input is read and no file of the project is
    written. *)
Theorem main_no_docker_support
    (self : analyzer) (root : path) (s s1 : state) (analysis : dict) :
  run_analysis self (set_temp_dir None s) = (Ok analysis, s1) →
  truthy (dict_get analysis "has_dockerfile" PNone) = false →
  truthy (dict_get analysis "has_docker_compose" PNone) = false →
  (Integrate.main self root s).1 = Ok 1%Z ∧
  files (Integrate.main self root s).2 = files s ∧
  stdin (Integrate.main self root s).2 = stdin s ∧
  prompts (Integrate.main self root s).2 = prompts s.
Proof.
  intros Hrun Hd Hc.
  pose proof (run_analysis_state self (set_temp_dir None s)) as Hs1.
  rewrite Hrun in Hs1. simpl in Hs1.
  assert (Integrate.main self root s
          = (Ok 1%Z, set_dirs (dirs (set_temp_dir None s)) s1)) as E.
  { rewrite main_unfold. unfold bind at 1. unfold modify. unfold bind at 1.
    rewrite main_try_finally. unfold main_body, bind. by rewrite Hrun, Hd, Hc. }
  rewrite E, Hs1. done.
Qed.

(** ** Running [interactive_config] *)

Section Stepping.
Context {A B : Type}.
Implicit Types (f : A → M B) (s : state).

Lemma bind_lift_Ok (a : A) f s : bind (lift (Ok a)) f s = f a s.
Proof. done. Qed.

Lemma bind_lift_Raise e f s : bind (lift (Raise e)) f s = (Raise e, s).
Proof. done. Qed.

Lemma bind_mret (a : A) f s : bind (mret a) f s = f a s.
Proof. done. Qed.

End Stepping.

Lemma bind_input {B} prompt (f : string → M B) s line rest :
  stdin s = line :: rest → bind (input prompt) f s = f line (consume prompt s).
Proof. intros H. unfold bind, input, consume. by rewrite H. Qed.

Lemma bind_input_eof {B} prompt (f : string → M B) s :
  stdin s = [] → (bind (input prompt) f s).1 = Raise EOFError.
Proof. intros H. unfold bind, input. by rewrite H. Qed.

Lemma bind_input_or {B} prompt dflt (f : pyval → M B) s line rest :
  stdin s = line :: rest →
  bind (input_or prompt dflt) f s = f (py_or (PStr line) dflt) (consume prompt s).
Proof. intros H. unfold input_or, bind, input, consume, mret. by rewrite H. Qed.

Lemma stdin_consume prompt s : stdin (consume prompt s) = tail (stdin s).
Proof. done. Qed.

Ltac feed H :=
  first [ erewrite bind_input by (rewrite ?stdin_consume, H; reflexivity)
        | erewrite bind_input_or by (rewrite ?stdin_consume, H; reflexivity) ];
  cbv beta.

(** The descriptor when every prompt is answered by an empty line. *)
Lemma interactive_config_accept_defaults analysis s rn owner dp confirm :
  analysis !! "repo_name" = Some (PStr rn) →
  analysis !! "repo_owner" = Some owner →
  sliceable (py_or (dict_get analysis "description" (PStr EmptyString)) (PStr EmptyString)) →
  Integrate.default_port analysis = Ok dp →
  stdin s = [""; ""; ""; ""; ""; ""; confirm] →
  (Integrate.interactive_config analysis s).1 =
  Ok (is_yes confirm,
      let n := string_filter is_name_char (default_name_of rn) in
      ServiceConfig n (dict_get analysis "title" (PStr rn))
        (py_or (dict_get analysis "description" (PStr EmptyString)) (PStr EmptyString))
        dp
        (dict_get analysis "image" (PStr (concat_strings [py_str owner; "/"; rn; ":latest"])))
        n
        (dict_get analysis "needs_postgres" (PBool false))
        (dict_get analysis "needs_redis" (PBool false))).
Proof.
  intros Hrn Hro Hdesc Hport Hin.
  unfold Integrate.interactive_config, dict_item. rewrite Hrn, Hro, Hport.
  set (dd := py_or (dict_get analysis "description" (PStr EmptyString)) (PStr EmptyString)) in *.
  rewrite bind_lift_Ok. unfold as_str. rewrite bind_lift_Ok.
  feed Hin. cbn [String.eqb]. rewrite normalize_name_filter, bind_lift_Ok.
  feed Hin.
  assert (∃ pv n, (if truthy dd then py_slice dd 50 else Ok (PStr "No description available")) = Ok pv ∧ py_len dd = Ok n) as (pv & n & -> & ->).
  { clearbody dd. destruct dd as [| | |d|l]; try done; cbn [py_slice py_len];
      [destruct (truthy (PStr d)) | destruct (truthy (PList l))]; eauto. }
  rewrite !bind_lift_Ok. feed Hin. rewrite bind_lift_Ok. feed Hin. rewrite bind_lift_Ok. 
  feed Hin. feed Hin. cbn [String.eqb]. feed Hin. reflexivity.
Qed.

Lemma integrate_default_port_3000 (analysis : dict) :
  analysis !! "ports" = None ∨ analysis !! "ports" = Some (PList []) →
  Integrate.default_port analysis = Ok (PStr "3000").
Proof.
  unfold Integrate.default_port, dict_get. by intros [-> | ->].
Qed.

(** ** A repository with nothing but a Dockerfile *)

Lemma dockerfile_only_facts self dockerfile :
  merge_facts self (dockerfile_only dockerfile) ∅ =
  <["has_dockerfile" := PBool true]>
    (<["exposed_ports" := PList (re_findall re_expose dockerfile)]>
    (<["env_vars" := PList (re_findall re_env dockerfile)]> (base_facts self))).
Proof.
  unfold merge_facts, dict_update, analyze_dockerfile, analyze_docker_compose,
    analyze_readme, dockerfile_only. cbn [first_existing text_files].
  rewrite lookup_singleton_eq.
  rewrite !lookup_singleton_ne by done.
  rewrite !(left_id_L ∅ (∪)).
  by rewrite <- !insert_union_l, (left_id_L ∅ (∪)).
Qed.

Lemma run_analysis_Ok self s r pkg :
  remote s = Some r →
  analyze_package_json r = Ok pkg →
  run_analysis self s = (Ok (merge_facts self r pkg), with_workspace s).
Proof.
  intros Hr Hp.
  unfold run_analysis, clone_repo, bind, mkdtemp, modify, git_clone, lift, mret.
  cbn [remote set_temp_dir set_dirs]. by rewrite Hr, Hp.
Qed.

(** C6.  For a repository that holds a Dockerfile and nothing else, the
    analysis followed by [interactive_config], with an empty answer to each
    of the six prompts and [yes] at the confirmation, gives a descriptor
    whose port is ['3000'] and whose [needs_postgres] is [False]: the ports
    the Dockerfile exposes are in the analysis (under [exposed_ports]) and
    play no part in the default of the port. *)
Theorem dockerfile_only_accept_defaults
    (self : analyzer) (dockerfile : string) (s : state) :
  remote s = Some (dockerfile_only dockerfile) →
  stdin s = [""; ""; ""; ""; ""; ""; "yes"] →
  ∃ analysis cfg,
    (run_analysis self s).1 = Ok analysis ∧
    analysis !! "exposed_ports" = Some (PList (re_findall re_expose dockerfile)) ∧
    ((a <- run_analysis self ;; Integrate.interactive_config a) s).1 = Ok (true, cfg) ∧
    port cfg = PStr "3000" ∧
    needs_postgres cfg = PBool false.
Proof.
  intros Hremote Hin.
  pose proof (run_analysis_Ok self s _ ∅ Hremote eq_refl) as Hrun.
  rewrite dockerfile_only_facts in Hrun.
  set (analysis := <["has_dockerfile" := _]> _) in Hrun.
  assert (analysis !! "repo_name" = Some (PStr (repo_name self))) as Hrn
    by (unfold analysis, base_facts; by simplify_map_eq).
  assert (analysis !! "repo_owner" = Some (PStr (repo_owner self))) as Hro
    by (unfold analysis, base_facts; by simplify_map_eq).
  assert (analysis !! "description" = None) as Hdesc
    by (unfold analysis, base_facts; by simplify_map_eq).
  assert (analysis !! "ports" = None) as Hports
    by (unfold analysis, base_facts; by simplify_map_eq).
  assert (analysis !! "needs_postgres" = None) as Hpg
    by (unfold analysis, base_facts; by simplify_map_eq).
  pose proof (interactive_config_accept_defaults analysis (with_workspace s)
                (repo_name self) (PStr (repo_owner self)) (PStr "3000") "yes" Hrn Hro)
    as Hic.
  unfold dict_get in Hic. rewrite Hdesc, Hpg in Hic.
  specialize (Hic I (integrate_default_port_3000 _ (or_introl Hports)) Hin).
  eexists analysis, _. rewrite Hrun. split; [done|].
  split; [unfold analysis; by simplify_map_eq|].
  unfold bind at 1. rewrite Hrun. split; [exact Hic|]. done.
Qed.

Lemma dockerfile_only_accept_defaults_witness :
  let s := state_with_remote accept_all (Some (dockerfile_only example_dockerfile)) in
  re_findall re_expose example_dockerfile = ["5000"] ∧
  ∃ analysis cfg,
    (run_analysis example_analyzer s).1 = Ok analysis ∧
    analysis !! "exposed_ports"
    = Some (PList (re_findall re_expose example_dockerfile)) ∧
    ((a <- run_analysis example_analyzer ;; Integrate.interactive_config a) s).1
    = Ok (true, cfg) ∧
    port cfg = PStr "3000" ∧
    needs_postgres cfg = PBool false.
Proof.
  intros s. split; [reflexivity|].
  apply (dockerfile_only_accept_defaults example_analyzer example_dockerfile s);
    reflexivity.
Defined.

Lemma main_no_docker_support_witness :
  let s := state_with_remote accept_all (Some readme_only) in
  let analysis := merge_facts example_analyzer readme_only ∅ in
  (analysis !! "title" = Some (PStr "My App") ∧
   analysis !! "has_dockerfile" = None ∧
   analysis !! "has_docker_compose" = None) ∧
  (Integrate.main example_analyzer ["opt"] s).1 = Ok 1%Z ∧
  files (Integrate.main example_analyzer ["opt"] s).2 = files s ∧
  stdin (Integrate.main example_analyzer ["opt"] s).2 = stdin s ∧
  prompts (Integrate.main example_analyzer ["opt"] s).2 = prompts s.
Proof.
  intros s analysis. split; [by vm_compute|].
  apply (main_no_docker_support example_analyzer ["opt"] s
           (with_workspace (set_temp_dir None s)) analysis).
  - apply run_analysis_Ok; reflexivity.
  - reflexivity.
  - reflexivity.
Defined.

(** ** The default of the port in the two copies *)

(** C4, on the older copy.  For a compose manifest that maps no port the
    analysis holds [ports] with the empty list; the newer copy offers
    ['3000'] and gives a descriptor with that port, the older copy raises
    [IndexError] at [self.analysis.get('ports', [None])[0]]. *)
Theorem legacy_default_port_empty_list_raises :
  let s := state_with_remote accept_all (Some compose_without_ports) in
  let analysis := merge_facts example_analyzer compose_without_ports ∅ in
  (run_analysis example_analyzer s).1 = Ok analysis ∧
  analysis !! "ports" = Some (PList []) ∧
  Legacy.default_port analysis = Raise IndexError ∧
  (Legacy.interactive_config analysis s).1 = Raise IndexError ∧
  Integrate.default_port analysis = Ok (PStr "3000") ∧
  (∃ cfg, (Integrate.interactive_config analysis s).1 = Ok (true, cfg) ∧
          port cfg = PStr "3000") ∧
  head (prompts (Integrate.interactive_config analysis s).2)
  = Some (nl +:+ "Proceed? (yes/no): ") ∧
  In "Internal port [3000]: " (prompts (Integrate.interactive_config analysis s).2).
Proof.
  intros s analysis.
  split; [by rewrite (run_analysis_Ok _ s compose_without_ports ∅ eq_refl eq_refl)|].
  split; [vm_compute; reflexivity|]. split; [vm_compute; reflexivity|].
  split; [vm_compute; reflexivity|]. split; [vm_compute; reflexivity|].
  split; [eexists; split; vm_compute; reflexivity|].
  split; [vm_compute; reflexivity|]. vm_compute. tauto.
Qed.

(** In the newer copy the default is ['3000'] whenever [ports] is absent or
    empty, and so is the port of the descriptor when the defaults are
    accepted. *)
Lemma integrate_port_default analysis s rn owner confirm :
  analysis !! "ports" = None ∨ analysis !! "ports" = Some (PList []) →
  analysis !! "repo_name" = Some (PStr rn) →
  analysis !! "repo_owner" = Some owner →
  sliceable (py_or (dict_get analysis "description" (PStr EmptyString)) (PStr EmptyString)) →
  stdin s = [""; ""; ""; ""; ""; ""; confirm] →
  Integrate.default_port analysis = Ok (PStr "3000") ∧
  ∃ cfg, (Integrate.interactive_config analysis s).1 = Ok (is_yes confirm, cfg) ∧
         port cfg = PStr "3000".
Proof.
  intros Hp Hrn Hro Hd Hin.
  pose proof (integrate_default_port_3000 _ Hp) as E. split; [done|].
  eexists. split; [by apply (interactive_config_accept_defaults _ _ rn owner)|done].
Qed.

(** ** The keys of the four inspectors *)

(** C1, as the claim states it, fails.  [analyze_dockerfile] and
    [analyze_docker_compose] both return the key [env_vars], [analyze_readme]
    and [analyze_package_json] both return [description]: the key sets are
    not disjoint, and in the dict of [run_analysis] the variables of the
    Dockerfile and the description of the README are replaced by what the
    later inspector found. *)
Theorem inspectors_share_keys :
  let r := example_repo in
  let pkg := <["name" := PNone]> (<["description" := PNone]>
               (<["version" := PNone]> (<["is_nodejs" := PBool true]> ∅))) in
  let merged := merge_facts example_analyzer r pkg in
  (run_analysis example_analyzer (state_with_remote [] (Some r))).1 = Ok merged ∧
  analyze_dockerfile r !! "env_vars" = Some (PList ["API_KEY"]) ∧
  analyze_docker_compose r !! "env_vars" = Some (PList []) ∧
  merged !! "env_vars" = Some (PList []) ∧
  ¬ (dom (analyze_dockerfile r) ## dom (analyze_docker_compose r)) ∧
  analyze_readme example_analyzer r !! "description" = Some (PStr "A tiny web app.") ∧
  analyze_package_json r = Ok pkg ∧
  merged !! "description" = Some PNone ∧
  ¬ (dom (analyze_readme example_analyzer r) ## dom pkg).
Proof.
  intros r pkg merged.
  assert (analyze_package_json r = Ok pkg) as Hpkg by reflexivity.
  split.
  { by rewrite (run_analysis_Ok _ (state_with_remote [] (Some r)) r pkg eq_refl Hpkg). }
  split; [vm_compute; reflexivity|]. split; [vm_compute; reflexivity|].
  split; [vm_compute; reflexivity|].
  split.
  { intros Hdisj. apply (Hdisj "env_vars"); apply elem_of_dom; eexists;
      vm_compute; reflexivity. }
  split; [vm_compute; reflexivity|]. split; [exact Hpkg|].
  split; [vm_compute; reflexivity|].
  intros Hdisj. apply (Hdisj "description"); apply elem_of_dom; eexists;
    vm_compute; reflexivity.
Qed.

Section Keys.
Implicit Types (r : repo) (self : analyzer) (k : string).

Lemma dom_analyze_dockerfile r :
  dom (analyze_dockerfile r) = ∅ ∨ dom (analyze_dockerfile r) = dockerfile_keys.
Proof.
  unfold analyze_dockerfile. destruct (text_files r !! "Dockerfile"); [right | left].
  - rewrite !dom_insert_L, dom_empty_L. unfold dockerfile_keys. set_solver.
  - apply dom_empty_L.
Qed.

Lemma dom_analyze_docker_compose r :
  dom (analyze_docker_compose r) = ∅ ∨ dom (analyze_docker_compose r) = compose_keys.
Proof.
  unfold analyze_docker_compose. destruct (first_existing r _) as [[f c]|]; [right | left].
  - rewrite !dom_insert_L, dom_empty_L. unfold compose_keys. set_solver.
  - apply dom_empty_L.
Qed.

Lemma dom_analyze_readme self r :
  dom (analyze_readme self r) = ∅ ∨ dom (analyze_readme self r) = readme_keys.
Proof.
  unfold analyze_readme. destruct (first_existing r _) as [[f c]|]; [right | left].
  - rewrite !dom_insert_L, dom_empty_L. unfold readme_keys. set_solver.
  - apply dom_empty_L.
Qed.

Lemma dom_analyze_package_json r pkg :
  analyze_package_json r = Ok pkg → dom pkg = ∅ ∨ dom pkg = package_keys.
Proof.
  unfold analyze_package_json. destruct (package_json r) as [[data|e]|]; intros [= <-].
  - right. rewrite !dom_insert_L, dom_empty_L. unfold package_keys. set_solver.
  - left. apply dom_empty_L.
Qed.

(** The keys that two inspectors can both return: [env_vars], of the
    Dockerfile and of the compose manifest, and [description], of the
    README and of [package.json]. *)
Lemma shared_keys k :
  (k ∈ dockerfile_keys → k ∈ compose_keys → k = "env_vars") ∧
  (k ∈ readme_keys → k ∈ package_keys → k = "description") ∧
  (k ∈ dockerfile_keys → (k ∉ readme_keys) ∧ (k ∉ package_keys)) ∧
  (k ∈ compose_keys → (k ∉ readme_keys) ∧ (k ∉ package_keys)).
Proof.
  unfold dockerfile_keys, compose_keys, readme_keys, package_keys.
  repeat split; set_unfold; naive_solver.
Qed.

End Keys.

Section KeysMerged.
Implicit Types (r : repo) (self : analyzer) (pkg d : dict) (k : string).

Lemma lookup_outside d (K : gset string) k : dom d ⊆ K → k ∉ K → d !! k = None.
Proof. intros Hd Hk. apply not_elem_of_dom. set_solver. Qed.

(** The dict of [run_analysis], key by key: the last inspector that
    returns the key gives its value. *)
Lemma merge_facts_lookup self r pkg k :
  merge_facts self r pkg !! k =
  match pkg !! k with
  | Some v => Some v
  | None =>
      match analyze_readme self r !! k with
      | Some v => Some v
      | None =>
          match analyze_docker_compose r !! k with
          | Some v => Some v
          | None =>
              match analyze_dockerfile r !! k with
              | Some v => Some v
              | None => base_facts self !! k
              end
          end
      end
  end.
Proof.
  unfold merge_facts, dict_update. rewrite !lookup_union.
  destruct (pkg !! k), (analyze_readme self r !! k),
    (analyze_docker_compose r !! k), (analyze_dockerfile r !! k),
    (base_facts self !! k); reflexivity.
Qed.

Lemma dom_subset_keys self r pkg :
  analyze_package_json r = Ok pkg →
  dom (analyze_dockerfile r) ⊆ dockerfile_keys ∧
  dom (analyze_docker_compose r) ⊆ compose_keys ∧
  dom (analyze_readme self r) ⊆ readme_keys ∧
  dom pkg ⊆ package_keys.
Proof.
  intros Hpkg.
  destruct (dom_analyze_dockerfile r) as [-> | ->],
    (dom_analyze_docker_compose r) as [-> | ->],
    (dom_analyze_readme self r) as [-> | ->],
    (dom_analyze_package_json r pkg Hpkg) as [-> | ->]; set_solver.
Qed.

End KeysMerged.

(** C1, amended.  Of the keys that the four inspectors return, [env_vars]
    (of [analyze_dockerfile] and of [analyze_docker_compose], each time its
    file exists) and [description] (of [analyze_readme] and of
    [analyze_package_json], each time its file exists) are the only ones
    that two inspectors can both return.  Every other key that an inspector
    returns is in the dict of [run_analysis] with the value that inspector
    gave it; for the two shared keys the dict holds the value of the later
    inspector: [env_vars] of the compose manifest when there is one, else
    of the Dockerfile, and [description] of [package.json] when there is
    one, else of the README. *)
Theorem inspector_keys_shared_only_two
    (self : analyzer) (r : repo) (pkg : dict) (k : string) :
  analyze_package_json r = Ok pkg →
  let df := analyze_dockerfile r in
  let dc := analyze_docker_compose r in
  let rd := analyze_readme self r in
  (k ∈ dom df → k ∈ dom dc → k = "env_vars") ∧
  (k ∈ dom rd → k ∈ dom pkg → k = "description") ∧
  (k ∈ dom df → (k ∉ dom rd) ∧ (k ∉ dom pkg)) ∧
  (k ∈ dom dc → (k ∉ dom rd) ∧ (k ∉ dom pkg)) ∧
  (k ≠ "env_vars" → k ≠ "description" →
   ∀ d v, d ∈ [df; dc; rd; pkg] → d !! k = Some v →
          merge_facts self r pkg !! k = Some v) ∧
  (is_Some (text_files r !! "Dockerfile") → "env_vars" ∈ dom df) ∧
  (is_Some (first_existing r ["docker-compose.yml"; "docker-compose.yaml"]) →
   "env_vars" ∈ dom dc) ∧
  (is_Some (first_existing r ["README.md"; "readme.md"; "README"; "README.txt"]) →
   "description" ∈ dom rd) ∧
  (is_Some (package_json r) → "description" ∈ dom pkg) ∧
  merge_facts self r pkg !! "env_vars"
  = match dc !! "env_vars" with
    | Some v => Some v
    | None => df !! "env_vars"
    end ∧
  merge_facts self r pkg !! "description"
  = match pkg !! "description" with
    | Some v => Some v
    | None => rd !! "description"
    end.
Proof.
  intros Hpkg df dc rd.
  destruct (dom_subset_keys self r pkg Hpkg) as (Sdf & Sdc & Srd & Spk).
  destruct (shared_keys k) as (K1 & K2 & K3 & K4).
  assert (k ∈ dom df → k ∈ dom dc → k = "env_vars") as H1 by (intros; apply K1; auto).
  assert (k ∈ dom rd → k ∈ dom pkg → k = "description") as H2 by (intros; apply K2; auto).
  assert (k ∈ dom df → (k ∉ dom rd) ∧ (k ∉ dom pkg)) as H3.
  { intros Hk. destruct (K3 (Sdf _ Hk)). split; intros ?; auto. }
  assert (k ∈ dom dc → (k ∉ dom rd) ∧ (k ∉ dom pkg)) as H4.
  { intros Hk. destruct (K4 (Sdc _ Hk)). split; intros ?; auto. }
  split; [done|]. split; [done|]. split; [done|]. split; [done|].
  split.
  { intros Ne Nd d v Hd Hv.
    assert (k ∈ dom d) as Hk by (apply elem_of_dom; eauto).
    unfold merge_facts, dict_update. fold df dc rd.
    apply elem_of_cons in Hd as [-> | Hd].
    { destruct (H3 Hk) as [N1 N2]. apply not_elem_of_dom in N1, N2.
      assert (dc !! k = None) as N3.
      { apply not_elem_of_dom. intros Hc. by apply Ne, H1. }
      rewrite lookup_union_r, lookup_union_r, lookup_union_r by done.
      by apply lookup_union_Some_l. }
    apply elem_of_cons in Hd as [-> | Hd].
    { destruct (H4 Hk) as [N1 N2]. apply not_elem_of_dom in N1, N2.
      rewrite lookup_union_r, lookup_union_r by done.
      by apply lookup_union_Some_l. }
    apply elem_of_cons in Hd as [-> | Hd].
    { assert (pkg !! k = None) as N1.
      { apply not_elem_of_dom. intros Hc. by apply Nd, H2. }
      rewrite lookup_union_r by done. by apply lookup_union_Some_l. }
    apply list_elem_of_singleton in Hd as ->. by apply lookup_union_Some_l. }
  split.
  { intros [c Hc]. unfold df, analyze_dockerfile. rewrite Hc.
    rewrite !dom_insert_L. set_solver. }
  split.
  { intros [[f c] Hc]. unfold dc, analyze_docker_compose. rewrite Hc.
    rewrite !dom_insert_L. set_solver. }
  split.
  { intros [[f c] Hc]. unfold rd, analyze_readme. rewrite Hc.
    rewrite !dom_insert_L. set_solver. }
  split.
  { intros [j Hj]. revert Hpkg. unfold analyze_package_json. rewrite Hj.
    destruct j as [data|e]; intros [= <-]. rewrite !dom_insert_L. set_solver. }
  assert (base_facts self !! "env_vars" = None ∧ base_facts self !! "description" = None)
    as [B1 B2] by (unfold base_facts; by simplify_map_eq).
  assert (pkg !! "env_vars" = None) as P1.
  { apply (lookup_outside pkg package_keys); [exact Spk|].
    unfold package_keys. set_unfold. naive_solver. }
  assert (rd !! "env_vars" = None) as R1.
  { apply (lookup_outside rd readme_keys); [exact Srd|].
    unfold readme_keys. set_unfold. naive_solver. }
  assert (dc !! "description" = None) as C2.
  { apply (lookup_outside dc compose_keys); [exact Sdc|].
    unfold compose_keys. set_unfold. naive_solver. }
  assert (df !! "description" = None) as D2.
  { apply (lookup_outside df dockerfile_keys); [exact Sdf|].
    unfold dockerfile_keys. set_unfold. naive_solver. }
  clear H1 H2 H3 H4 K1 K2 K3 K4 Sdf Sdc Srd Spk.
  pose proof (merge_facts_lookup self r pkg "env_vars") as E1.
  pose proof (merge_facts_lookup self r pkg "description") as E2.
  fold df dc rd in E1, E2.
  rewrite P1, R1, B1 in E1. rewrite C2, D2, B2 in E2.
  split.
  - rewrite E1. clear. by destruct (dc !! "env_vars"), (df !! "env_vars").
  - rewrite E2. clear. by destruct (pkg !! "description"), (rd !! "description").
Qed.

Lemma inspector_keys_shared_only_two_witness :
  let df := analyze_dockerfile example_repo in
  let pkg := <["name" := PNone]> (<["description" := PNone]>
               (<["version" := PNone]> (<["is_nodejs" := PBool true]> ∅))) in
  analyze_package_json example_repo = Ok pkg ∧
  df !! "exposed_ports" = Some (PList ["3000"]) ∧
  merge_facts example_analyzer example_repo pkg !! "exposed_ports"
  = Some (PList ["3000"]) ∧
  "env_vars" ∈ dom df ∧
  "env_vars" ∈ dom (analyze_docker_compose example_repo) ∧
  merge_facts example_analyzer example_repo pkg !! "env_vars" = Some (PList []) ∧
  merge_facts example_analyzer example_repo pkg !! "description" = Some PNone.
Proof.
  intros df pkg.
  assert (analyze_package_json example_repo = Ok pkg) as Hpkg by reflexivity.
  assert (df !! "exposed_ports" = Some (PList ["3000"])) as Hdf
    by (vm_compute; reflexivity).
  split; [exact Hpkg|]. split; [exact Hdf|].
  destruct (inspector_keys_shared_only_two example_analyzer example_repo _ "exposed_ports"
              Hpkg) as (_ & _ & _ & _ & Hmerge & Hd1 & Hd2 & _ & _ & He & Hdesc).
  split.
  { apply (Hmerge ltac:(discriminate) ltac:(discriminate) df); [|exact Hdf].
    apply elem_of_cons. by left. }
  split; [apply Hd1; vm_compute; eauto|].
  split; [apply Hd2; vm_compute; eauto|].
  split.
  - rewrite He. vm_compute. reflexivity.
  - rewrite Hdesc. vm_compute. reflexivity.
Defined.

(** ** The two copies side by side *)

Section Agree.
Context {A B : Type}.

Lemma agree_mret (a : A) : agree (mret a) (mret a).
Proof. by intros s1 s2 H. Qed.

Lemma agree_lift (r : result A) : agree (lift r) (lift r).
Proof. by intros s1 s2 H. Qed.

Lemma agree_bind (m1 m2 : M A) (f1 f2 : A → M B) :
  agree m1 m2 → (∀ a, agree (f1 a) (f2 a)) → agree (bind m1 f1) (bind m2 f2).
Proof.
  intros Hm Hf s1 s2 Hs. unfold bind. destruct (Hm s1 s2 Hs) as [Hr Hs'].
  destruct (m1 s1) as [r1 t1], (m2 s2) as [r2 t2]. simpl in *. subst r2.
  destruct r1 as [a|e]; [by apply Hf | done].
Qed.

(** A step that cannot fail, in one of the copies only. *)
Lemma agree_lift_Ok_l (a : A) (f : A → M B) (m : M B) :
  agree (f a) m → agree (bind (lift (Ok a)) f) m.
Proof. done. Qed.

Lemma agree_lift_Ok_r (a : A) (f : A → M B) (m : M B) :
  agree m (f a) → agree m (bind (lift (Ok a)) f).
Proof. done. Qed.

End Agree.

Lemma agree_input p1 p2 : agree (input p1) (input p2).
Proof.
  intros s1 s2 (Hi & Hf & Hfo & Hd & Ht & Hr). unfold input. rewrite Hi.
  destruct (stdin s2); simpl; by repeat split.
Qed.

Lemma agree_input_or p1 p2 dflt : agree (input_or p1 dflt) (input_or p2 dflt).
Proof.
  unfold input_or. apply agree_bind; [apply agree_input | intros; apply agree_mret].
Qed.

Lemma default_port_agree analysis :
  ports_usable analysis →
  Legacy.default_port analysis = Integrate.default_port analysis.
Proof.
  unfold ports_usable, Legacy.default_port, Integrate.default_port, dict_get.
  destruct (analysis !! "ports") as [[| | | |[|p l]]|]; try done.
  intros Hp. simpl. unfold py_or. simpl. by destruct p.
Qed.

Lemma interactive_config_agree analysis :
  description_is_text analysis → ports_usable analysis →
  agree (Legacy.interactive_config analysis) (Integrate.interactive_config analysis).
Proof.
  intros Hd Hp. unfold Legacy.interactive_config, Integrate.interactive_config.
  rewrite (default_port_agree _ Hp).
  apply agree_bind; [apply agree_lift | intros repo].
  apply agree_bind; [apply agree_lift | intros repo_s].
  apply agree_bind; [apply agree_input | intros line].
  apply agree_bind; [apply agree_lift | intros service_name].
  apply agree_bind; [apply agree_input_or | intros display].
  assert (∃ d, dict_get analysis "description" (PStr EmptyString) = PStr d) as [d Ed].
  { unfold description_is_text in Hd. unfold dict_get.
    destruct (analysis !! "description") as [[]|]; try done; simpl; eauto. }
  rewrite Ed.
  assert (py_or (PStr d) (PStr EmptyString) = PStr d) as -> by (by destruct d).
  cbn [py_slice py_len].
  apply agree_lift_Ok_l.
  assert (∃ pv, (if truthy (PStr d) then Ok (PStr (string_take 50 d))
                 else Ok (PStr "No description available")) = Ok pv) as [pv ->]
    by (destruct (truthy (PStr d)); eauto).
  do 2 apply agree_lift_Ok_r.
  apply agree_bind; [apply agree_input_or | intros description].
  apply agree_bind; [apply agree_lift | intros default_port].
  apply agree_bind; [apply agree_input_or | intros port].
  apply agree_bind; [apply agree_lift | intros owner].
  apply agree_bind; [apply agree_input_or | intros image].
  apply agree_bind; [apply agree_input | intros line2].
  apply agree_bind; [apply agree_input | intros confirm].
  apply agree_mret.
Qed.

Lemma same_but_prompts_refl s : same_but_prompts s s.
Proof. by repeat split. Qed.

(** C10, as the claim states it, fails: on an analysis whose [ports] is the
    empty list the older [interactive_config] raises where the newer one
    returns a descriptor; the two [add_to_caddyfile] write to different
    files; and for an empty description the two [add_to_env_example] write
    different blocks. *)
Lemma copies_not_equivalent :
  let s := example_state accept_all None in
  (Legacy.interactive_config facts_without_ports s).1
  ≠ (Integrate.interactive_config facts_without_ports s).1 ∧
  files (Legacy.add_to_caddyfile ["opt"] example_config s).2 !! ["opt"; "Caddyfile"]
  ≠ files (Integrate.add_to_caddyfile ["opt"] example_config s).2 !! ["opt"; "Caddyfile"] ∧
  files (Legacy.add_to_env_example ["opt"] config_without_description s).2
    !! ["opt"; ".env.example"]
  ≠ files (Integrate.add_to_env_example ["opt"] config_without_description s).2
    !! ["opt"; ".env.example"].
Proof.
  intros s. split; [|split]; vm_compute; discriminate.
Qed.

(** C10, amended.  For every descriptor the two copies have the same
    [add_to_docker_compose], and their [add_to_caddyfile] append the same
    block: the older copy to [Caddyfile] under the project root, the newer
    one to [config/caddy/Caddyfile], or it raises [FileNotFoundError] and
    writes nothing when the directory [config/caddy] is missing.  Their
    [add_to_env_example] do the same when the description of the
    descriptor is a text that is not empty.  Their [interactive_config]
    return the same decision and the same descriptor, or raise the same
    exception, and read the same input, whatever the user answers, when
    [description] in the analysis is absent or a text and [ports] is absent
    or begins with a port that is not the empty text (the prompt for the
    description is not worded the same). *)
Theorem copies_agree
    (analysis : dict) (root : path) (cfg : service_config) (s : state) :
  (description_is_text analysis → ports_usable analysis →
   (Legacy.interactive_config analysis s).1 = (Integrate.interactive_config analysis s).1
   ∧ same_but_prompts (Legacy.interactive_config analysis s).2
       (Integrate.interactive_config analysis s).2) ∧
  Legacy.add_to_docker_compose root cfg s = Integrate.add_to_docker_compose root cfg s ∧
  (∀ d, description cfg = PStr d → d ≠ EmptyString →
        Legacy.add_to_env_example root cfg s = Integrate.add_to_env_example root cfg s) ∧
  Legacy.add_to_caddyfile root cfg s
  = (Ok tt, appended (root ++ ["Caddyfile"]) (caddy_block cfg) s) ∧
  Integrate.add_to_caddyfile root cfg s
  = if dir_exists (root ++ ["config"; "caddy"]) s
    then (Ok tt, appended (root ++ ["config"; "caddy"; "Caddyfile"]) (caddy_block cfg) s)
    else (Raise FileNotFoundError, s).
Proof.
  split.
  { intros Hdesc Hports.
    apply (interactive_config_agree _ Hdesc Hports), same_but_prompts_refl. }
  split; [reflexivity|]. split.
  { intros d Hd Hne. unfold Legacy.add_to_env_example, Integrate.add_to_env_example.
    rewrite Hd. by destruct d. }
  split; [reflexivity|].
  unfold Integrate.add_to_caddyfile, append_file_in.
  destruct (dir_exists _ s); [|done].
  unfold append_file, appended. by rewrite <- app_assoc.
Qed.

Lemma copies_agree_witness :
  let s := example_state accept_all None in
  (description_is_text facts_with_port ∧ ports_usable facts_with_port) ∧
  (Integrate.interactive_config facts_with_port s).1
  = Ok (true, ServiceConfig "myapp" (PStr "my-app") (PStr "A tiny web app.")
                (PStr "8080") (PStr "acme/my-app:latest") "myapp"
                (PBool false) (PBool false)) ∧
  (Legacy.interactive_config facts_with_port s).1
  = (Integrate.interactive_config facts_with_port s).1 ∧
  Legacy.add_to_env_example ["opt"] example_config s
  = Integrate.add_to_env_example ["opt"] example_config s ∧
  dir_exists ["opt"; "config"; "caddy"] s = true ∧
  Integrate.add_to_caddyfile ["opt"] example_config s
  = (Ok tt, appended ["opt"; "config"; "caddy"; "Caddyfile"] (caddy_block example_config) s).
Proof.
  intros s.
  assert (description_is_text facts_with_port) as H1 by (vm_compute; exact I).
  assert (ports_usable facts_with_port) as H2 by (vm_compute; discriminate).
  assert (dir_exists ["opt"; "config"; "caddy"] s = true) as H3
    by (vm_compute; reflexivity).
  destruct (copies_agree facts_with_port ["opt"] example_config s)
    as (Hic & _ & Henv & _ & Hcaddy).
  split; [exact (conj H1 H2)|]. split; [vm_compute; reflexivity|].
  split; [exact (proj1 (Hic H1 H2))|].
  split; [apply (Henv "A small service"); [reflexivity | discriminate]|].
  split; [exact H3|].
  rewrite Hcaddy. cbn [app]. by rewrite H3.
Defined.

(** ** The ways out of [main] *)

Example main_exit_completed :
  let r := Integrate.main example_analyzer ["opt"]
             (example_state accept_all (Some (dockerfile_only example_dockerfile))) in
  r.1 = Ok 0%Z ∧ elements (dirs r.2) = ["tmp-of-another-run"] ∧
  files r.2 !! ["opt"; "config"; "caddy"; "Caddyfile"]
  = Some (("# Caddyfile" +:+ nl) +:+ caddy_block
            (ServiceConfig "myapp" (PStr "my-app") (PStr EmptyString) (PStr "3000")
               (PStr "acme/my-app:latest") "myapp" (PBool false) (PBool false))).
Proof. vm_compute. repeat split; reflexivity. Qed.

Example main_exit_fetch_failure :
  let r := Integrate.main example_analyzer ["opt"] (example_state accept_all None) in
  r.1 = Raise CalledProcessError ∧ elements (dirs r.2) = ["tmp-of-another-run"].
Proof. vm_compute. repeat split; reflexivity. Qed.

Example main_exit_analysis_failure :
  let r := Integrate.main example_analyzer ["opt"]
             (example_state accept_all (Some broken_package)) in
  r.1 = Raise JSONDecodeError ∧ elements (dirs r.2) = ["tmp-of-another-run"].
Proof. vm_compute. repeat split; reflexivity. Qed.

Example main_exit_no_docker_support :
  let r := Integrate.main example_analyzer ["opt"]
             (example_state accept_all (Some readme_only)) in
  r.1 = Ok 1%Z ∧ elements (dirs r.2) = ["tmp-of-another-run"].
Proof. vm_compute. repeat split; reflexivity. Qed.

Example main_exit_cancelled :
  let r := Integrate.main example_analyzer ["opt"]
             (example_state [""; ""; ""; ""; ""; ""; "no"]
                (Some (dockerfile_only example_dockerfile))) in
  r.1 = Ok 1%Z ∧ elements (dirs r.2) = ["tmp-of-another-run"] ∧
  files r.2 !! compose_path ["opt"] = Some example_manifest.
Proof. vm_compute. repeat split; reflexivity. Qed.

Example main_exit_end_of_input :
  let r := Integrate.main example_analyzer ["opt"]
             (example_state [""; ""] (Some (dockerfile_only example_dockerfile))) in
  r.1 = Raise EOFError ∧ elements (dirs r.2) = ["tmp-of-another-run"].
Proof. vm_compute. repeat split; reflexivity. Qed.

(** * Further properties of the analyzer *)

Section ScanFacts.
Implicit Types (r : regex) (s t a : string).

Lemma last_of_app prev a t : last_of prev (a +:+ t) = last_of (last_of prev a) t.
Proof. revert prev. induction a as [|c a IH]; intros prev; simpl; [done | apply IH]. Qed.

(** The scan steps over the characters of a match that it has found. *)
Lemma scan_matches_skip r a s prev :
  scan_matches r prev (a +:+ s) (String.length a) = scan_matches r (last_of prev a) s 0.
Proof.
  revert prev. induction a as [|c a IH]; intros prev; simpl.
  - by destruct s.
  - apply IH.
Qed.

(** The scan passes a text at no position of which the pattern matches. *)
Lemma scan_matches_pass r (p : ascii → bool) t s prev :
  (∀ pv c u, p c = true → match_here r pv (String c u) = None) →
  string_forall p t = true →
  scan_matches r prev (t +:+ s) 0 = scan_matches r (last_of prev t) s 0.
Proof.
  intros Hr. revert prev. induction t as [|c t IH]; intros prev; simpl; [done|].
  rewrite andb_true_iff. intros [Hc Ht]. rewrite (Hr _ _ _ Hc). by apply IH.
Qed.

Lemma lower_app a t : lower (a +:+ t) = lower a +:+ lower t.
Proof. unfold lower. induction a as [|c a IH]; simpl; [done | by rewrite IH]. Qed.

Lemma find_first_app a pre post : is_Some (find_first a (pre +:+ a +:+ post)).
Proof.
  induction pre as [|c pre IH]; simpl.
  - rewrite find_first_here. eauto.
  - destruct (strip_prefix a _); [eauto|]. destruct IH as [[p q] ->]. eauto.
Qed.

Lemma contains_app a pre post : contains a (pre +:+ a +:+ post) = true.
Proof. unfold contains. apply bool_decide_eq_true_2, find_first_app. Qed.

Lemma string_take_length n s : String.length (string_take n s) ≤ n.
Proof.
  revert s. induction n as [|n IH]; intros [|c s]; simpl; try lia.
  specialize (IH s). lia.
Qed.

End ScanFacts.

Section Expose.

Lemma match_here_expose_other prev c u :
  negb (is_char "E"%char c) = true → match_here re_expose prev (String c u) = None.
Proof.
  intros Hc. unfold match_here, re_expose. cbn [rseq rmatch lit].
  by apply negb_true_iff in Hc as ->.
Qed.

Lemma match_here_expose_line prev p s :
  p ≠ EmptyString → string_forall is_digit p = true →
  match_here re_expose prev ("EXPOSE " +:+ p +:+ nl +:+ s) = Some (nl +:+ s, Some p).
Proof.
  intros Hne Hp. unfold match_here, re_expose. cbn [rseq rmatch rplus].
  rewrite rmatch_lit. change ("EXPOSE " +:+ p +:+ nl +:+ s)
    with ("EXPOSE" +:+ " " +:+ p +:+ nl +:+ s).
  rewrite strip_prefix_app.
  destruct p as [|d p]; [done|]. simpl in Hp. apply andb_true_iff in Hp as [Hd Hp].
  assert (is_space d = false) as Hsp.
  { revert Hd. clear. destruct d as [[] [] [] [] [] [] [] []]; by vm_compute. }
  cbn [repeat_match String.append]. change (is_space " ") with true. cbv iota.
  rewrite Hsp. cbv iota.
  change (String d p +:+ nl +:+ s) with (String d p +:+ (nl +:+ s)).
  rewrite repeat_match_greedy.
  - rewrite Hd. change (String d (p +:+ nl +:+ s)) with (String d p +:+ (nl +:+ s)).
    by rewrite string_take_consumed.
  - exact Hp.
  - lia.
  - reflexivity.
  - eauto.
Qed.

Lemma scan_expose_items items prev :
  Forall item_ok items →
  ∃ prev', ∀ s,
    scan_matches re_expose prev (render_dockerfile items +:+ s) 0
    = exposed_of items ++ scan_matches re_expose prev' s 0.
Proof.
  intros Hok. revert prev. induction Hok as [|i items Hi Hok IH]; intros prev.
  - exists prev. by intros s.
  - unfold render_dockerfile, concat_strings. cbn [map foldr].
    fold (concat_strings (map render_item items)). fold (render_dockerfile items).
    destruct i as [p|t]; simpl in Hi.
    + destruct Hi as [Hne Hp].
      destruct (IH (Some nl_char)) as [prev' Hprev']. exists prev'. intros s.
      change (exposed_of (ExposeLine p :: items)) with (p :: exposed_of items).
      rewrite <- app_comm_cons.
      unfold render_item. rewrite !sapp_assoc.
      change ("EXPOSE " +:+ p +:+ nl +:+ render_dockerfile items +:+ s)
        with (String "E" ("XPOSE " +:+ p +:+ nl +:+ render_dockerfile items +:+ s)).
      cbn [scan_matches].
      change (String "E" ("XPOSE " +:+ p +:+ nl +:+ render_dockerfile items +:+ s))
        with ("EXPOSE " +:+ p +:+ nl +:+ render_dockerfile items +:+ s).
      rewrite (match_here_expose_line _ _ _ Hne Hp). cbn [default].
      replace (String.length ("EXPOSE " +:+ p +:+ nl +:+ render_dockerfile items +:+ s)
               - String.length (nl +:+ render_dockerfile items +:+ s) - 1)
        with (String.length ("XPOSE " +:+ p)).
      2:{ rewrite !slength_app. simpl. lia. }
      rewrite <- (sapp_assoc "XPOSE " p), <- (sapp_assoc ("XPOSE " +:+ p)).
      rewrite (sapp_assoc ("XPOSE " +:+ p) nl), scan_matches_skip.
      change (nl +:+ render_dockerfile items +:+ s)
        with (String nl_char (render_dockerfile items +:+ s)).
      cbn [scan_matches]. rewrite match_here_expose_other by reflexivity.
      f_equal. apply Hprev'.
    + destruct (IH (last_of prev t)) as [prev' Hprev']. exists prev'. intros s.
      change (exposed_of (OtherText t :: items)) with (exposed_of items).
      cbn [render_item]. rewrite sapp_assoc.
      rewrite (scan_matches_pass re_expose _ t _ prev match_here_expose_other Hi).
      apply Hprev'.
Qed.

End Expose.

(** X1.  [analyze_dockerfile] finds the ports of the [EXPOSE] lines of a
    Dockerfile in their order, duplicates kept, whatever text without the
    letter [E] stands between the lines. *)
Theorem analyze_dockerfile_exposed_ports (items : list dockerfile_item) :
  Forall item_ok items →
  analyze_dockerfile (single_file "Dockerfile" (render_dockerfile items))
    !! "exposed_ports" = Some (PList (exposed_of items)).
Proof.
  intros Hok. unfold analyze_dockerfile, single_file. cbn [text_files].
  rewrite lookup_singleton_eq.
  rewrite lookup_insert_ne by done. rewrite lookup_insert_eq.
  do 2 f_equal. unfold re_findall.
  destruct (scan_expose_items items None Hok) as [prev' H].
  specialize (H EmptyString). rewrite sapp_nil_r in H. rewrite H.
  simpl. by rewrite app_nil_r.
Qed.

Lemma analyze_dockerfile_exposed_ports_witness :
  let items := [OtherText ("FROM python:3" +:+ nl); ExposeLine "8080";
                OtherText ("RUN pip install x" +:+ nl); ExposeLine "9090";
                ExposeLine "8080"] in
  Forall item_ok items ∧
  analyze_dockerfile (single_file "Dockerfile" (render_dockerfile items))
    !! "exposed_ports" = Some (PList ["8080"; "9090"; "8080"]).
Proof.
  intros items.
  assert (Forall item_ok items) as Hok.
  { repeat constructor; discriminate. }
  split; [exact Hok|].
  exact (analyze_dockerfile_exposed_ports items Hok).
Defined.

Section MergedFacts.
Implicit Types (self : analyzer) (r : repo) (pkg d : dict) (k : string).

(** A key of the compose inspector other than [env_vars] is not returned by
    the inspectors that come after it. *)
Lemma merge_facts_compose self r pkg k v :
  analyze_package_json r = Ok pkg →
  k ∉ readme_keys → k ∉ package_keys →
  analyze_docker_compose r !! k = Some v →
  merge_facts self r pkg !! k = Some v.
Proof.
  intros Hpkg Hr Hp Hv.
  destruct (dom_subset_keys self r pkg Hpkg) as (_ & _ & Srd & Spk).
  rewrite merge_facts_lookup, (lookup_outside _ _ _ Spk Hp),
    (lookup_outside _ _ _ Srd Hr). by rewrite Hv.
Qed.

Lemma merge_facts_base self r pkg k :
  analyze_package_json r = Ok pkg →
  k ∈ base_keys →
  merge_facts self r pkg !! k = base_facts self !! k.
Proof.
  intros Hpkg Hk.
  destruct (dom_subset_keys self r pkg Hpkg) as (Sdf & Sdc & Srd & Spk).
  assert (k ∉ dockerfile_keys ∧ k ∉ compose_keys ∧ k ∉ readme_keys ∧ k ∉ package_keys)
    as (N1 & N2 & N3 & N4).
  { revert Hk. unfold base_keys, dockerfile_keys, compose_keys, readme_keys, package_keys.
    set_unfold. naive_solver. }
  by rewrite merge_facts_lookup, (lookup_outside _ _ _ Spk N4),
    (lookup_outside _ _ _ Srd N3), (lookup_outside _ _ _ Sdc N2),
    (lookup_outside _ _ _ Sdf N1).
Qed.

(** What [interactive_config] reads first: the name and the owner. *)
Lemma merge_facts_repo self r pkg :
  analyze_package_json r = Ok pkg →
  merge_facts self r pkg !! "repo_name" = Some (PStr (repo_name self)) ∧
  merge_facts self r pkg !! "repo_owner" = Some (PStr (repo_owner self)).
Proof.
  intros Hpkg.
  rewrite !(merge_facts_base self r pkg _ Hpkg)
    by (unfold base_keys; set_unfold; naive_solver).
  unfold base_facts. by simplify_map_eq.
Qed.

End MergedFacts.

(** X2.  A compose manifest that mentions [postgres] anywhere, in any mix of
    cases, gives [needs_postgres] = [True] in the dict of [run_analysis],
    whatever the other files of the repository hold; the same for
    [redis]. *)
Theorem compose_mention_sets_dependency
    (self : analyzer) (r : repo) (pkg : dict) (pre w post : string) :
  text_files r !! "docker-compose.yml" = Some (pre +:+ w +:+ post) →
  analyze_package_json r = Ok pkg →
  (mentions "postgres" w →
   merge_facts self r pkg !! "needs_postgres" = Some (PBool true)) ∧
  (mentions "redis" w →
   merge_facts self r pkg !! "needs_redis" = Some (PBool true)).
Proof.
  intros Hfile Hpkg.
  assert (∀ word, mentions word w → contains word (lower (pre +:+ w +:+ post)) = true)
    as Hm.
  { intros word Hw. rewrite !lower_app, Hw. apply contains_app. }
  split; intros Hw; apply merge_facts_compose; try done;
    try (unfold readme_keys, package_keys; set_unfold; naive_solver);
    unfold analyze_docker_compose; cbn [first_existing]; rewrite Hfile;
    rewrite (Hm _ Hw); by simplify_map_eq.
Qed.

Lemma compose_mention_sets_dependency_witness :
  let content := concat_strings ["services:"; nl; "  db:"; nl;
                                 "    image: PostgreSQL:16"; nl] in
  let r := single_file "docker-compose.yml" content in
  mentions "postgres" "PostgreS" ∧
  merge_facts example_analyzer r ∅ !! "needs_postgres" = Some (PBool true).
Proof.
  intros content r.
  assert (mentions "postgres" "PostgreS") as Hw by reflexivity.
  split; [exact Hw|].
  refine (proj1 (compose_mention_sets_dependency example_analyzer r ∅
            (concat_strings ["services:"; nl; "  db:"; nl; "    image: "])
            "PostgreS" (concat_strings ["QL:16"; nl]) _ _) Hw);
    vm_compute; reflexivity.
Defined.

(** X3.  The compose manifest is [docker-compose.yml] when it exists, and
    [docker-compose.yaml] only when it does not: the dict of the inspector
    is the one of a repository that holds that file alone. *)
Theorem compose_file_first_match_wins (r : repo) (content : string) :
  (text_files r !! "docker-compose.yml" = Some content →
   analyze_docker_compose r
   = analyze_docker_compose (single_file "docker-compose.yml" content)) ∧
  (text_files r !! "docker-compose.yml" = None →
   text_files r !! "docker-compose.yaml" = Some content →
   analyze_docker_compose r
   = analyze_docker_compose (single_file "docker-compose.yaml" content)
   ∧ analyze_docker_compose r !! "compose_file" = Some (PStr "docker-compose.yaml")).
Proof.
  unfold analyze_docker_compose, single_file. cbn [first_existing text_files].
  split.
  - intros ->. by rewrite lookup_singleton_eq.
  - intros -> ->. rewrite lookup_singleton_ne by done. rewrite lookup_singleton_eq.
    split; [done|]. by simplify_map_eq.
Qed.

Lemma compose_file_first_match_wins_witness :
  let r := Repo (<["docker-compose.yml" := "services:" +:+ nl]>
                (<["docker-compose.yaml" := "image: redis" +:+ nl]> ∅)) None in
  analyze_docker_compose r !! "needs_redis" = Some (PBool false) ∧
  analyze_docker_compose r
  = analyze_docker_compose (single_file "docker-compose.yml" ("services:" +:+ nl)).
Proof.
  intros r. split; [vm_compute; reflexivity|].
  apply (compose_file_first_match_wins r ("services:" +:+ nl)).
  vm_compute; reflexivity.
Defined.

(** X4.  In the dict of [run_analysis] the keys [repo_name], [repo_owner]
    and [github_url] hold what the analyzer was built with: no inspector
    returns them. *)
Theorem run_analysis_base_facts (self : analyzer) (r : repo) (pkg : dict) :
  analyze_package_json r = Ok pkg →
  merge_facts self r pkg !! "repo_name" = Some (PStr (repo_name self)) ∧
  merge_facts self r pkg !! "repo_owner" = Some (PStr (repo_owner self)) ∧
  merge_facts self r pkg !! "github_url" = Some (PStr (github_url self)).
Proof.
  intros Hpkg.
  rewrite !(merge_facts_base self r pkg _ Hpkg)
    by (unfold base_keys; set_unfold; naive_solver).
  unfold base_facts. by simplify_map_eq.
Qed.

Lemma run_analysis_base_facts_witness :
  analyze_package_json example_repo
  = Ok (<["name" := PNone]> (<["description" := PNone]>
         (<["version" := PNone]> (<["is_nodejs" := PBool true]> ∅)))) ∧
  merge_facts example_analyzer example_repo
    (<["name" := PNone]> (<["description" := PNone]>
       (<["version" := PNone]> (<["is_nodejs" := PBool true]> ∅)))) !! "repo_name"
  = Some (PStr "my-app").
Proof.
  assert (analyze_package_json example_repo
          = Ok (<["name" := PNone]> (<["description" := PNone]>
                 (<["version" := PNone]> (<["is_nodejs" := PBool true]> ∅))))) as H
    by reflexivity.
  split; [exact H|].
  exact (proj1 (run_analysis_base_facts example_analyzer example_repo _ H)).
Defined.

Section SplitFacts.
Implicit Types (c : ascii) (a b t : string).

Lemma split_on_cons c t : ∃ w ws, split_on c t = w :: ws.
Proof.
  induction t as [|d t IH]; simpl; [eauto|].
  destruct (Ascii.eqb c d); [eauto|]. destruct IH as (w & ws & ->). eauto.
Qed.

Lemma split_on_app c a b :
  split_on c (a +:+ String c b) = split_on c a ++ split_on c b.
Proof.
  induction a as [|d a IH]; simpl.
  - by rewrite Ascii.eqb_refl.
  - destruct (Ascii.eqb c d); [by rewrite IH|].
    rewrite IH. by destruct (split_on_cons c a) as (w & ws & ->).
Qed.

Lemma split_on_whole c t :
  string_forall (λ d, negb (Ascii.eqb c d)) t = true → split_on c t = [t].
Proof.
  induction t as [|d t IH]; simpl; [done|].
  rewrite andb_true_iff. intros [Hd Ht]. apply negb_true_iff in Hd as ->.
  by rewrite (IH Ht).
Qed.

End SplitFacts.

(** X5.  [__init__] takes as [repo_owner] the last but one of the pieces of
    the URL between slashes: for [.../a/b] it is [a] (so the repository
    name, when the URL ends with a slash and [b] is empty), and for a URL
    without a slash the indexing raises [IndexError]. *)
Theorem init_repo_owner_last_but_one (pre a b : string) :
  no_slash a → no_slash b →
  init_repo_owner (pre +:+ "/" +:+ a +:+ "/" +:+ b) = Ok a ∧
  init_repo_owner b = Raise IndexError.
Proof.
  unfold no_slash, init_repo_owner. intros Ha Hb. split.
  - change (pre +:+ "/" +:+ a +:+ "/" +:+ b)
      with (pre +:+ String "/" (a +:+ String "/" b)).
    rewrite !split_on_app, (split_on_whole _ _ Ha), (split_on_whole _ _ Hb).
    by rewrite !reverse_app.
  - by rewrite (split_on_whole _ _ Hb).
Qed.

Lemma init_repo_owner_last_but_one_witness :
  init_repo_owner "https://github.com/acme/my-app.git" = Ok "acme" ∧
  init_repo_owner "https://github.com/acme/my-app/" = Ok "my-app" ∧
  init_repo_owner "my-app" = Raise IndexError.
Proof.
  split; [|split].
  - apply (init_repo_owner_last_but_one "https://github.com" "acme" "my-app.git");
      reflexivity.
  - apply (init_repo_owner_last_but_one "https://github.com/acme" "my-app" "");
      reflexivity.
  - apply (init_repo_owner_last_but_one "" "" "my-app"); reflexivity.
Defined.

Section MoreMergedFacts.
Implicit Types (self : analyzer) (r : repo) (pkg d : dict) (k : string).

Lemma merge_facts_dockerfile self r pkg k :
  analyze_package_json r = Ok pkg →
  k ∉ compose_keys → k ∉ readme_keys → k ∉ package_keys →
  merge_facts self r pkg !! k =
  match analyze_dockerfile r !! k with
  | Some v => Some v
  | None => base_facts self !! k
  end.
Proof.
  intros Hpkg Hc Hr Hp.
  destruct (dom_subset_keys self r pkg Hpkg) as (_ & Sdc & Srd & Spk).
  by rewrite merge_facts_lookup, (lookup_outside _ _ _ Spk Hp),
    (lookup_outside _ _ _ Srd Hr), (lookup_outside _ _ _ Sdc Hc).
Qed.

Lemma merge_facts_compose_None self r pkg k :
  analyze_package_json r = Ok pkg →
  k ∉ dockerfile_keys → k ∉ readme_keys → k ∉ package_keys → k ∉ base_keys →
  analyze_docker_compose r !! k = None →
  merge_facts self r pkg !! k = None.
Proof.
  intros Hpkg Hd Hr Hp Hb Hv.
  destruct (dom_subset_keys self r pkg Hpkg) as (Sdf & _ & Srd & Spk).
  rewrite merge_facts_lookup, (lookup_outside _ _ _ Spk Hp),
    (lookup_outside _ _ _ Srd Hr), Hv, (lookup_outside _ _ _ Sdf Hd).
  apply (lookup_outside _ base_keys); [|done].
  unfold base_facts, base_keys. rewrite !dom_insert_L, dom_empty_L. set_solver.
Qed.

End MoreMergedFacts.

(** X6.  In the dict of [run_analysis], [has_dockerfile] is [True] when the
    repository has a Dockerfile and absent when it has none, and
    [has_docker_compose] is [True] when it has one of the two compose
    manifests and absent otherwise: neither flag is ever [False]. *)
Theorem run_analysis_docker_flags (self : analyzer) (r : repo) (pkg : dict) :
  analyze_package_json r = Ok pkg →
  merge_facts self r pkg !! "has_dockerfile"
  = match text_files r !! "Dockerfile" with
    | Some _ => Some (PBool true)
    | None => None
    end ∧
  merge_facts self r pkg !! "has_docker_compose"
  = match first_existing r ["docker-compose.yml"; "docker-compose.yaml"] with
    | Some _ => Some (PBool true)
    | None => None
    end.
Proof.
  intros Hpkg. split.
  - rewrite (merge_facts_dockerfile self r pkg _ Hpkg)
      by (unfold compose_keys, readme_keys, package_keys; set_unfold; naive_solver).
    unfold analyze_dockerfile, base_facts.
    destruct (text_files r !! "Dockerfile"); by simplify_map_eq.
  - destruct (first_existing r _) as [[f c]|] eqn:E.
    + apply merge_facts_compose; try done;
        try (unfold readme_keys, package_keys; set_unfold; naive_solver).
      unfold analyze_docker_compose. rewrite E. by simplify_map_eq.
    + apply merge_facts_compose_None; try done;
        try (unfold dockerfile_keys, readme_keys, package_keys, base_keys;
             set_unfold; naive_solver).
      unfold analyze_docker_compose. by rewrite E.
Qed.

Lemma run_analysis_docker_flags_witness :
  analyze_package_json readme_only = Ok ∅ ∧
  merge_facts example_analyzer readme_only ∅ !! "has_dockerfile" = None ∧
  merge_facts example_analyzer (dockerfile_only example_dockerfile) ∅ !! "has_dockerfile"
  = Some (PBool true).
Proof.
  split; [reflexivity|]. split.
  - exact (proj1 (run_analysis_docker_flags example_analyzer readme_only ∅ eq_refl)).
  - exact (proj1 (run_analysis_docker_flags example_analyzer
                    (dockerfile_only example_dockerfile) ∅ eq_refl)).
Defined.

Section Readme.

Lemma begins_with_title : begins_with "#" re_title.
Proof.
  intros prev s H. unfold match_here, re_title. cbn [rseq rmatch].
  destruct prev as [c|]; [destruct (is_char nl_char c); [|done]|];
    by rewrite rmatch_lit, H.
Qed.

End Readme.

(** X7.  The description that [analyze_readme] returns has at most 200
    characters, and the title is the name of the repository when the README
    holds no [#]. *)
Theorem analyze_readme_description_and_title
    (self : analyzer) (r : repo) (name content : string) :
  first_existing r ["README.md"; "readme.md"; "README"; "README.txt"]
  = Some (name, content) →
  (∃ d, analyze_readme self r !! "description" = Some (PStr d) ∧ String.length d ≤ 200) ∧
  (contains "#" content = false →
   analyze_readme self r !! "title" = Some (PStr (repo_name self))).
Proof.
  intros Hfile. unfold analyze_readme. rewrite Hfile. split.
  - eexists. split; [|apply string_take_length].
    rewrite lookup_insert_ne by done. apply lookup_insert_eq.
  - intros Hno. unfold re_search.
    rewrite (search_from_none "#" re_title begins_with_title _ _ (contains_false _ _ Hno)).
    apply lookup_insert_eq.
Qed.

Lemma analyze_readme_description_and_title_witness :
  let r := single_file "README" ("A tool without a heading." +:+ nl) in
  first_existing r ["README.md"; "readme.md"; "README"; "README.txt"]
  = Some ("README", "A tool without a heading." +:+ nl) ∧
  analyze_readme example_analyzer r !! "title" = Some (PStr "my-app").
Proof.
  intros r.
  assert (first_existing r ["README.md"; "readme.md"; "README"; "README.txt"]
          = Some ("README", "A tool without a heading." +:+ nl)) as H
    by (vm_compute; reflexivity).
  split; [exact H|].
  apply (proj2 (analyze_readme_description_and_title example_analyzer r _ _ H)).
  vm_compute; reflexivity.
Defined.

(** * Further properties of the integrator *)

Section Preserves.
Context {A B X : Type}.
Implicit Types (proj : state → X) (m : M A) (f : A → M B).

Lemma preserves_mret proj (a : A) : preserves proj (mret a).
Proof. done. Qed.

Lemma preserves_lift proj (r : result A) : preserves proj (lift r).
Proof. done. Qed.

Lemma preserves_bind proj m f :
  preserves proj m → (∀ a, preserves proj (f a)) → preserves proj (bind m f).
Proof.
  intros Hm Hf s. unfold bind. specialize (Hm s).
  destruct (m s) as [[a|e] s1]; simpl in *; [|done]. by rewrite Hf.
Qed.

Lemma preserves_if proj (b : bool) (m1 m2 : M A) :
  preserves proj m1 → preserves proj m2 → preserves proj (if b then m1 else m2).
Proof. by destruct b. Qed.

Lemma preserves_read_file proj p : preserves proj (read_file p).
Proof. intros s. unfold read_file. by destruct (files s !! p). Qed.

End Preserves.

Lemma preserves_files_input prompt : preserves files (input prompt).
Proof. intros s. unfold input. by destruct (stdin s). Qed.

Lemma preserves_files_input_or prompt dflt : preserves files (input_or prompt dflt).
Proof.
  unfold input_or. apply preserves_bind;
    [apply preserves_files_input | intros; apply preserves_mret].
Qed.

Lemma preserves_file_at_input p prompt : preserves (file_at p) (input prompt).
Proof. intros s. unfold input, file_at. by destruct (stdin s). Qed.

Lemma preserves_file_at_write p q c : p ≠ q → preserves (file_at p) (write_file q c).
Proof. intros Hpq s. unfold file_at, write_file. simpl. by rewrite lookup_insert_ne. Qed.

Lemma preserves_file_at_append p q c : p ≠ q → preserves (file_at p) (append_file q c).
Proof. intros Hpq s. unfold file_at, append_file. simpl. by rewrite lookup_insert_ne. Qed.

Lemma preserves_stdin_write q c : preserves stdin (write_file q c).
Proof. done. Qed.

Lemma preserves_stdin_append q c : preserves stdin (append_file q c).
Proof. done. Qed.

Lemma preserves_file_at_append_in p d n c :
  p ≠ d ++ [n] → preserves (file_at p) (append_file_in d n c).
Proof.
  intros Hpq s. unfold append_file_in. destruct (dir_exists d s); [|done].
  by apply preserves_file_at_append.
Qed.

Lemma preserves_stdin_append_in d n c : preserves stdin (append_file_in d n c).
Proof. intros s. unfold append_file_in. by destruct (dir_exists d s). Qed.

Create HintDb frame.
#[local] Hint Resolve preserves_mret preserves_lift preserves_read_file
  preserves_files_input preserves_files_input_or preserves_file_at_input
  preserves_stdin_write preserves_stdin_append preserves_stdin_append_in : frame.

Ltac frame :=
  repeat first
    [ solve [auto with frame]
    | progress cbv zeta
    | apply preserves_bind; [|intros]
    | apply preserves_if ].

Section Returns.
Context {A B : Type}.
Implicit Types (m : M A) (f : A → M B).

Lemma returns_bind m f (P : A → Prop) (Q : B → Prop) :
  returns m P → (∀ a, P a → returns (f a) Q) → returns (bind m f) Q.
Proof.
  intros Hm Hf s b s'. unfold bind.
  destruct (m s) as [[a|e] s1] eqn:E; [|done].
  intros H. exact (Hf a (Hm _ _ _ E) _ _ _ H).
Qed.

Lemma returns_any m : returns m (λ _, True).
Proof. by intros s a s' _. Qed.

Lemma returns_mret (a : A) : returns (mret a) (λ x, x = a).
Proof. by intros s x s' [= <-]. Qed.

Lemma returns_lift (r : result A) : returns (lift r) (λ a, r = Ok a).
Proof. by intros s a s' [= ->]. Qed.

Lemma reads_bind n1 n2 m f :
  reads n1 m → (∀ a, reads n2 (f a)) → reads (n1 + n2) (bind m f).
Proof.
  intros Hm Hf s b s'. unfold bind.
  destruct (m s) as [[a|e] s1] eqn:E; [|done].
  intros H. destruct (Hm _ _ _ E) as (l1 & L1 & E1).
  destruct (Hf a _ _ _ H) as (l2 & L2 & E2).
  exists (l1 ++ l2). rewrite length_app, E1, E2, <- app_assoc. auto.
Qed.

Lemma reads_mret (a : A) : reads 0 (mret a).
Proof. intros s x s' [= <- <-]. by exists []. Qed.

Lemma reads_lift (r : result A) : reads 0 (lift r).
Proof. intros s x s' [= -> <-]. by exists []. Qed.

End Returns.

Lemma reads_input prompt : reads 1 (input prompt).
Proof.
  intros s a s'. unfold input. destruct (stdin s) as [|l rest] eqn:E; [done|].
  intros [= <- <-]. by exists [l].
Qed.

Lemma reads_input_or prompt dflt : reads 1 (input_or prompt dflt).
Proof.
  unfold input_or. apply (reads_bind 1 0); [apply reads_input | intros; apply reads_mret].
Qed.

Lemma preserves_files_interactive_config analysis :
  preserves files (Integrate.interactive_config analysis).
Proof. unfold Integrate.interactive_config. frame. Qed.

Lemma reads_interactive_config analysis :
  reads 7 (Integrate.interactive_config analysis).
Proof.
  unfold Integrate.interactive_config.
  apply (reads_bind 0 7); [apply reads_lift | intros repo].
  apply (reads_bind 0 7); [apply reads_lift | intros repo_s].
  apply (reads_bind 1 6); [apply reads_input | intros line].
  apply (reads_bind 0 6); [apply reads_lift | intros service_name].
  apply (reads_bind 1 5); [apply reads_input_or | intros display].
  apply (reads_bind 0 5); [apply reads_lift | intros preview].
  apply (reads_bind 0 5); [apply reads_lift | intros len].
  apply (reads_bind 1 4); [apply reads_input_or | intros description].
  apply (reads_bind 0 4); [apply reads_lift | intros default_port].
  apply (reads_bind 1 3); [apply reads_input_or | intros port].
  apply (reads_bind 0 3); [apply reads_lift | intros owner].
  apply (reads_bind 1 2); [apply reads_input_or | intros image].
  apply (reads_bind 1 1); [apply reads_input | intros line2].
  apply (reads_bind 1 0); [apply reads_input | intros confirm].
  apply reads_mret.
Qed.

Lemma returns_interactive_config_name analysis :
  returns (Integrate.interactive_config analysis) (λ r, valid_name (name r.2)).
Proof.
  unfold Integrate.interactive_config.
  eapply returns_bind; [apply returns_any | intros repo _].
  eapply returns_bind; [apply returns_any | intros repo_s _].
  eapply returns_bind; [apply returns_any | intros line _].
  eapply returns_bind; [apply returns_lift | intros service_name Hname].
  apply normalize_name_valid in Hname.
  eapply returns_bind; [apply returns_any | intros display _].
  eapply returns_bind; [apply returns_any | intros preview _].
  eapply returns_bind; [apply returns_any | intros len _].
  eapply returns_bind; [apply returns_any | intros description _].
  eapply returns_bind; [apply returns_any | intros default_port _].
  eapply returns_bind; [apply returns_any | intros port _].
  eapply returns_bind; [apply returns_any | intros owner _].
  eapply returns_bind; [apply returns_any | intros image _].
  eapply returns_bind; [apply returns_any | intros line2 _].
  eapply returns_bind; [apply returns_any | intros confirm _].
  intros s a s' [= <- _]. exact Hname.
Qed.

(** X8.  Whatever the analysis holds and whatever the user types, the name
    of a descriptor that [interactive_config] returns holds only lowercase
    letters, digits and hyphens. *)
Theorem interactive_config_name_valid
    (analysis : dict) (s s' : state) (proceed : bool) (cfg : service_config) :
  Integrate.interactive_config analysis s = (Ok (proceed, cfg), s') →
  valid_name (name cfg).
Proof. intros H. exact (returns_interactive_config_name analysis _ _ _ H). Qed.

Lemma interactive_config_name_valid_witness :
  let s := state_with_remote ["My_Service v2!"; ""; ""; ""; ""; "My.Host"; "YES"] None in
  (Integrate.interactive_config facts_with_port s).1
  = Ok (true, ServiceConfig "yervicev2" (PStr "my-app") (PStr "A tiny web app.")
                (PStr "8080") (PStr "acme/my-app:latest") "My.Host"
                (PBool false) (PBool false)) ∧
  valid_name "yervicev2".
Proof.
  intros s.
  assert ((Integrate.interactive_config facts_with_port s).1
          = Ok (true, ServiceConfig "yervicev2" (PStr "my-app") (PStr "A tiny web app.")
                        (PStr "8080") (PStr "acme/my-app:latest") "My.Host"
                        (PBool false) (PBool false))) as H
    by (vm_compute; reflexivity).
  split; [exact H|].
  destruct (Integrate.interactive_config facts_with_port s) as [r s'] eqn:E.
  simpl in H. subst r.
  exact (interactive_config_name_valid facts_with_port s s' _ _ E).
Defined.

(** X9.  When [interactive_config] returns it has read seven lines of the
    input, and it has written no file of the project; it writes none when
    it raises either. *)
Theorem interactive_config_reads_seven_lines
    (analysis : dict) (s s' : state) (r : bool * service_config) :
  Integrate.interactive_config analysis s = (Ok r, s') →
  (∃ answers, length answers = 7 ∧ stdin s = answers ++ stdin s') ∧
  files s' = files s ∧
  ∀ s0, files (Integrate.interactive_config analysis s0).2 = files s0.
Proof.
  intros H. split; [exact (reads_interactive_config analysis _ _ _ H)|].
  pose proof (preserves_files_interactive_config analysis) as F.
  split; [|exact F]. specialize (F s). by rewrite H in F.
Qed.

Lemma interactive_config_reads_seven_lines_witness :
  let s := state_with_remote (accept_all ++ ["left"; "over"]) None in
  ∃ r s', Integrate.interactive_config facts_with_port s = (Ok r, s') ∧
          stdin s' = ["left"; "over"].
Proof.
  intros s.
  destruct (Integrate.interactive_config facts_with_port s) as [[r|e] s'] eqn:E.
  - exists r, s'. split; [done|].
    destruct (interactive_config_reads_seven_lines _ _ _ _ E)
      as ((answers & Hlen & Hin) & _).
    apply (f_equal (drop 7)) in Hin. rewrite drop_app_length' in Hin by done.
    by rewrite <- Hin.
  - exfalso. apply (f_equal fst) in E. vm_compute in E. discriminate.
Defined.

(** X10.  An answer that is not empty replaces the default of its prompt:
    the descriptor holds the answers as typed, but for the name, which is
    normalised; the host name is not.  The defaults are computed all the
    same, so they must not raise. *)
Theorem interactive_config_answers_override
    (analysis : dict) (s : state) (rn : string) (owner dp : pyval)
    (a_name a_display a_description a_port a_image a_host confirm : string) :
  analysis !! "repo_name" = Some (PStr rn) →
  analysis !! "repo_owner" = Some owner →
  sliceable (py_or (dict_get analysis "description" (PStr EmptyString)) (PStr EmptyString)) →
  Integrate.default_port analysis = Ok dp →
  stdin s = [a_name; a_display; a_description; a_port; a_image; a_host; confirm] →
  a_name ≠ EmptyString → a_display ≠ EmptyString → a_description ≠ EmptyString →
  a_port ≠ EmptyString → a_image ≠ EmptyString → a_host ≠ EmptyString →
  (Integrate.interactive_config analysis s).1 =
  Ok (is_yes confirm,
      ServiceConfig (string_filter is_name_char a_name) (PStr a_display)
        (PStr a_description) (PStr a_port) (PStr a_image) a_host
        (dict_get analysis "needs_postgres" (PBool false))
        (dict_get analysis "needs_redis" (PBool false))).
Proof.
  intros Hrn Hro Hdesc Hport Hin N1 N2 N3 N4 N5 N6.
  assert (∀ a d, a ≠ EmptyString → py_or (PStr a) d = PStr a) as Hor
    by (intros [|c a] d Ha; done).
  assert (∀ a d : string, a ≠ EmptyString → (if String.eqb a EmptyString then d else a) = a)
    as Hif by (intros [|c a] d Ha; done).
  unfold Integrate.interactive_config, dict_item. rewrite Hrn, Hro, Hport.
  set (dd := py_or (dict_get analysis "description" (PStr EmptyString)) (PStr EmptyString))
    in *.
  rewrite bind_lift_Ok. unfold as_str. rewrite bind_lift_Ok.
  feed Hin. rewrite (Hif _ _ N1), normalize_name_filter, bind_lift_Ok.
  feed Hin.
  assert (∃ pv n, (if truthy dd then py_slice dd 50
                   else Ok (PStr "No description available")) = Ok pv
                  ∧ py_len dd = Ok n) as (pv & n & -> & ->).
  { clearbody dd. destruct dd as [| | |d|l]; try done; cbn [py_slice py_len];
      [destruct (truthy (PStr d)) | destruct (truthy (PList l))]; eauto. }
  rewrite !bind_lift_Ok. feed Hin. rewrite bind_lift_Ok. feed Hin. rewrite bind_lift_Ok.
  feed Hin. feed Hin. rewrite (Hif _ _ N6). feed Hin.
  by rewrite !Hor.
Qed.

Lemma interactive_config_answers_override_witness :
  let s := state_with_remote
             ["Web App"; "Web App"; "Serves pages"; "9000"; "acme/web:2"; "WEB.example";
              "Yes"] None in
  (Integrate.interactive_config facts_with_port s).1 =
  Ok (true,
      ServiceConfig "ebpp" (PStr "Web App") (PStr "Serves pages") (PStr "9000")
        (PStr "acme/web:2") "WEB.example" (PBool false) (PBool false)).
Proof.
  intros s.
  assert (sliceable (py_or (dict_get facts_with_port "description" (PStr EmptyString))
                       (PStr EmptyString))) as Hd by (vm_compute; exact I).
  exact (interactive_config_answers_override facts_with_port s "my-app" (PStr "acme")
           (PStr "8080") "Web App" "Web App" "Serves pages" "9000" "acme/web:2"
           "WEB.example" "Yes" eq_refl eq_refl Hd eq_refl eq_refl
           ltac:(discriminate) ltac:(discriminate) ltac:(discriminate)
           ltac:(discriminate) ltac:(discriminate) ltac:(discriminate)).
Defined.

(** X11.  When the analysis raises, by a clone that fails or by a
    [package.json] that does not parse, [main] raises the same exception: no
    prompt is made, no input is read and no file of the project is
    written. *)
Theorem main_analysis_failure (self : analyzer) (root : path) (s : state) (e : exn) :
  (run_analysis self (set_temp_dir None s)).1 = Raise e →
  (Integrate.main self root s).1 = Raise e ∧
  files (Integrate.main self root s).2 = files s ∧
  stdin (Integrate.main self root s).2 = stdin s ∧
  prompts (Integrate.main self root s).2 = prompts s.
Proof.
  intros Hrun.
  pose proof (run_analysis_state self (set_temp_dir None s)) as Hs1.
  destruct (run_analysis self (set_temp_dir None s)) as [r s1] eqn:E.
  simpl in Hrun, Hs1. subst r s1.
  assert (Integrate.main self root s
          = (Raise e, set_dirs (dirs (set_temp_dir None s))
                        (with_workspace (set_temp_dir None s)))) as ->.
  { rewrite main_unfold. unfold bind at 1. unfold modify. unfold bind at 1.
    rewrite main_try_finally. unfold main_body, bind. by rewrite E. }
  done.
Qed.

Lemma main_analysis_failure_witness :
  let s := example_state accept_all None in
  (run_analysis example_analyzer (set_temp_dir None s)).1 = Raise CalledProcessError ∧
  (Integrate.main example_analyzer ["opt"] s).1 = Raise CalledProcessError ∧
  files (Integrate.main example_analyzer ["opt"] s).2 = files s ∧
  stdin (Integrate.main example_analyzer ["opt"] s).2 = stdin s ∧
  prompts (Integrate.main example_analyzer ["opt"] s).2 = prompts s.
Proof.
  intros s.
  assert ((run_analysis example_analyzer (set_temp_dir None s)).1
          = Raise CalledProcessError) as H by reflexivity.
  split; [exact H|].
  exact (main_analysis_failure example_analyzer ["opt"] s CalledProcessError H).
Defined.

(** X12.  When the user does not answer [yes] at the confirmation, [main]
    returns 1 and has written no file of the project. *)
Theorem main_cancelled
    (self : analyzer) (root : path) (s s1 s2 : state) (analysis : dict)
    (cfg : service_config) :
  run_analysis self (set_temp_dir None s) = (Ok analysis, s1) →
  negb (truthy (dict_get analysis "has_docker_compose" PNone))
  && negb (truthy (dict_get analysis "has_dockerfile" PNone)) = false →
  Integrate.interactive_config analysis s1 = (Ok (false, cfg), s2) →
  (Integrate.main self root s).1 = Ok 1%Z ∧
  files (Integrate.main self root s).2 = files s.
Proof.
  intros Hrun Hgate Hic.
  pose proof (run_analysis_state self (set_temp_dir None s)) as Hs1.
  rewrite Hrun in Hs1. simpl in Hs1.
  pose proof (preserves_files_interactive_config analysis s1) as Hf.
  rewrite Hic in Hf. simpl in Hf.
  assert (Integrate.main self root s
          = (Ok 1%Z, set_dirs (dirs (set_temp_dir None s)) s2)) as ->.
  { rewrite main_unfold. unfold bind at 1. unfold modify. unfold bind at 1.
    rewrite main_try_finally. unfold main_body, bind. by rewrite Hrun, Hgate, Hic. }
  split; [done|]. simpl. rewrite Hf, Hs1. done.
Qed.

Lemma main_cancelled_witness :
  let s := example_state [""; ""; ""; ""; ""; ""; "y"]
             (Some (dockerfile_only example_dockerfile)) in
  (Integrate.main example_analyzer ["opt"] s).1 = Ok 1%Z ∧
  files (Integrate.main example_analyzer ["opt"] s).2 = files s.
Proof.
  intros s.
  pose proof (run_analysis_Ok example_analyzer (set_temp_dir None s)
                (dockerfile_only example_dockerfile) ∅ eq_refl eq_refl) as Hrun.
  destruct (Integrate.interactive_config
              (merge_facts example_analyzer (dockerfile_only example_dockerfile) ∅)
              (with_workspace (set_temp_dir None s))) as [r s2] eqn:E.
  assert (r = Ok (false, ServiceConfig "myapp" (PStr "my-app") (PStr EmptyString)
                           (PStr "3000") (PStr "acme/my-app:latest") "myapp"
                           (PBool false) (PBool false))) as ->.
  { apply (f_equal fst) in E. simpl in E. rewrite <- E. vm_compute. reflexivity. }
  refine (main_cancelled example_analyzer ["opt"] s _ s2 _ _ Hrun _ E).
  vm_compute. reflexivity.
Defined.

(** X13.  In the older copy, a [package.json] without a description makes
    [description] [None] in the analysis, whatever the README says, and
    [interactive_config] then raises [TypeError] at [default_desc[:50]],
    once the first two prompts are answered. *)
Theorem legacy_description_None_raises
    (self : analyzer) (r : repo) (data pkg : dict) (s : state)
    (a_name a_display : string) (rest : list string) :
  package_json r = Some (Ok data) →
  data !! "description" = None →
  analyze_package_json r = Ok pkg →
  stdin s = a_name :: a_display :: rest →
  merge_facts self r pkg !! "description" = Some PNone ∧
  (Legacy.interactive_config (merge_facts self r pkg) s).1 = Raise TypeError.
Proof.
  intros Hjson Hdata Hpkg Hin.
  assert (merge_facts self r pkg !! "description" = Some PNone) as Hdesc.
  { rewrite merge_facts_lookup. unfold analyze_package_json in Hpkg.
    rewrite Hjson in Hpkg. injection Hpkg as <-.
    rewrite lookup_insert_ne by done. rewrite lookup_insert_eq.
    unfold dict_get. by rewrite Hdata. }
  split; [done|].
  pose proof (proj1 (merge_facts_repo self r pkg Hpkg)) as Hrn.
  unfold Legacy.interactive_config, dict_item, dict_get. rewrite Hrn, Hdesc.
  rewrite bind_lift_Ok. unfold as_str. rewrite bind_lift_Ok.
  feed Hin. rewrite normalize_name_filter, bind_lift_Ok.
  feed Hin. cbn [default]. change (id PNone) with PNone. cbn [py_slice].
  by rewrite bind_lift_Raise.
Qed.

Lemma legacy_description_None_raises_witness :
  let pkg := <["name" := PNone]> (<["description" := PNone]>
               (<["version" := PNone]> (<["is_nodejs" := PBool true]> ∅))) in
  analyze_readme example_analyzer example_repo !! "description"
  = Some (PStr "A tiny web app.") ∧
  merge_facts example_analyzer example_repo pkg !! "description" = Some PNone ∧
  (Legacy.interactive_config (merge_facts example_analyzer example_repo pkg)
     (state_with_remote accept_all None)).1 = Raise TypeError.
Proof.
  intros pkg. split; [vm_compute; reflexivity|].
  exact (legacy_description_None_raises example_analyzer example_repo ∅ pkg
           (state_with_remote accept_all None) "" "" [""; ""; ""; ""; "yes"]
           eq_refl eq_refl eq_refl eq_refl).
Defined.

Section ImageFacts.

Lemma begins_with_seq_lit w r : begins_with w (RSeq (lit w) r).
Proof.
  intros prev s H. unfold match_here. simpl. by rewrite rmatch_lit, H.
Qed.

End ImageFacts.

(** X14.  For a compose manifest in which [image:] does not occur, the
    analysis holds [image] with [None]; since the key is there, the default
    [<owner>/<repo>:latest] is not used, and the descriptor of the accepted
    defaults has the image [None]. *)
Theorem compose_without_image_gives_None
    (self : analyzer) (r : repo) (pkg : dict) (file content : string)
    (s : state) (dp : pyval) (confirm : string) :
  first_existing r ["docker-compose.yml"; "docker-compose.yaml"] = Some (file, content) →
  contains "image:" content = false →
  analyze_package_json r = Ok pkg →
  sliceable (py_or (dict_get (merge_facts self r pkg) "description" (PStr EmptyString))
               (PStr EmptyString)) →
  Integrate.default_port (merge_facts self r pkg) = Ok dp →
  stdin s = [""; ""; ""; ""; ""; ""; confirm] →
  merge_facts self r pkg !! "image" = Some PNone ∧
  ∃ cfg, (Integrate.interactive_config (merge_facts self r pkg) s).1
         = Ok (is_yes confirm, cfg) ∧ image cfg = PNone.
Proof.
  intros Hfile Hno Hpkg Hdesc Hport Hin.
  assert (merge_facts self r pkg !! "image" = Some PNone) as Himg.
  { apply merge_facts_compose; try done;
      try (unfold readme_keys, package_keys; set_unfold; naive_solver).
    unfold analyze_docker_compose. rewrite Hfile. unfold re_search, re_image.
    cbn [rseq].
    rewrite (search_from_none "image:" _ (begins_with_seq_lit _ _) _ _
               (contains_false _ _ Hno)).
    by simplify_map_eq. }
  split; [done|].
  destruct (merge_facts_repo self r pkg Hpkg) as (Hrn & Hro).
  eexists. split.
  - exact (interactive_config_accept_defaults _ s _ _ dp confirm Hrn Hro Hdesc Hport Hin).
  - cbn [image]. unfold dict_get. by rewrite Himg.
Qed.

Lemma compose_without_image_gives_None_witness :
  let r := single_file "docker-compose.yml"
             (concat_strings ["services:"; nl; "  web:"; nl; "    build: ."; nl]) in
  merge_facts example_analyzer r ∅ !! "image" = Some PNone ∧
  ∃ cfg, (Integrate.interactive_config (merge_facts example_analyzer r ∅)
            (state_with_remote accept_all None)).1 = Ok (true, cfg) ∧ image cfg = PNone.
Proof.
  intros r.
  assert (sliceable (py_or (dict_get (merge_facts example_analyzer r ∅) "description"
                              (PStr EmptyString)) (PStr EmptyString))) as Hd
    by (vm_compute; exact I).
  assert (Integrate.default_port (merge_facts example_analyzer r ∅) = Ok (PStr "3000"))
    as Hp by (vm_compute; reflexivity).
  assert (first_existing r ["docker-compose.yml"; "docker-compose.yaml"]
          = Some ("docker-compose.yml",
                  concat_strings ["services:"; nl; "  web:"; nl; "    build: ."; nl]))
    as Hf by (vm_compute; reflexivity).
  exact (compose_without_image_gives_None example_analyzer r ∅ _ _
           (state_with_remote accept_all None) (PStr "3000") "yes"
           Hf eq_refl eq_refl Hd Hp eq_refl).
Defined.

Section ManifestTotal.
Implicit Types (cfg : service_config) (s : state) (root : path).

Lemma re_sub_first_volumes_total cfg content :
  valid_name (name cfg) →
  re_sub_first 1 re_volumes (volume_repl cfg) content
  = Ok (insert_after_first volumes_anchor (volume_line cfg) content).
Proof.
  intros Hn. unfold insert_after_first.
  destruct (find_first volumes_anchor content) as [[pre post]|] eqn:Hf.
  - by apply re_sub_first_volumes.
  - unfold re_sub_first, re_volumes.
    rewrite volume_repl_eq, parse_template_after;
      [|by apply volume_line_no_backslash|reflexivity].
    cbn [rbind]. unfold re_search.
    by rewrite (search_from_none _ _ (begins_with_group_lit volumes_anchor) _ _ Hf).
Qed.

End ManifestTotal.

(** X15.  For a normalised service name [add_to_docker_compose] never
    raises: it appends the stanza to the manifest, which it creates when it
    is missing, and then puts the volume key after the first [volumes:]
    line of the result, or leaves the result as it is when there is no such
    line. *)
Theorem add_to_docker_compose_total
    (root : path) (cfg : service_config) (s : state) :
  valid_name (name cfg) →
  Integrate.add_to_docker_compose root cfg s =
  (Ok tt,
   set_files (<[compose_path root :=
                  insert_after_first volumes_anchor (volume_line cfg)
                    (default EmptyString (files s !! compose_path root)
                     +:+ service_block cfg)]> (files s)) s).
Proof.
  intros Hn.
  unfold Integrate.add_to_docker_compose, bind, append_file, read_file, lift, write_file.
  fold (compose_path root). cbn [files set_files].
  rewrite lookup_insert_eq, (re_sub_first_volumes_total _ _ Hn).
  unfold set_files. cbn [files stdin prompts dirs temp_dir remote].
  by rewrite insert_insert_eq.
Qed.

Lemma add_to_docker_compose_total_witness :
  let s := state_with_files ∅ in
  valid_name (name example_config) ∧
  files (Integrate.add_to_docker_compose ["opt"] example_config s).2
    !! compose_path ["opt"] = Some (service_block example_config).
Proof.
  intros s. assert (valid_name (name example_config)) as Hn by reflexivity.
  split; [exact Hn|].
  rewrite (add_to_docker_compose_total ["opt"] example_config s Hn).
  vm_compute. reflexivity.
Defined.

Section IntegrateFrame.
Implicit Types (cfg : service_config) (s : state) (root p : path).

Lemma root_path_ne root (a b : path) : a ≠ b → root ++ a ≠ root ++ b.
Proof. intros Hab H. by apply app_inv_head in H. Qed.

Lemma bind_Ok {A B} (m : M A) (f : A → M B) s a s1 :
  m s = (Ok a, s1) → bind m f s = f a s1.
Proof. intros H. unfold bind. by rewrite H. Qed.

Lemma bind_Raise {A B} (m : M A) (f : A → M B) s e s1 :
  m s = (Raise e, s1) → bind m f s = (Raise e, s1).
Proof. intros H. unfold bind. by rewrite H. Qed.

Lemma preserves_stdin_integrate root cfg : preserves stdin (Integrate.integrate root cfg).
Proof.
  unfold Integrate.integrate, Integrate.add_to_docker_compose,
    Integrate.add_to_env_example, Integrate.add_to_caddyfile, Integrate.add_to_wizard,
    Integrate.add_to_secrets, Integrate.add_to_final_report.
  frame.
Qed.

Lemma preserves_file_at_integrate root cfg p :
  p ∉ integrate_targets root → preserves (file_at p) (Integrate.integrate root cfg).
Proof.
  unfold integrate_targets. rewrite !not_elem_of_cons.
  unfold compose_path, env_path, caddy_path, wizard_path, secrets_path, report_path.
  intros (N1 & N2 & N3 & N4 & N5 & N6 & _).
  unfold Integrate.integrate, Integrate.add_to_docker_compose,
    Integrate.add_to_env_example, Integrate.add_to_caddyfile, Integrate.add_to_wizard,
    Integrate.add_to_secrets, Integrate.add_to_final_report.
  repeat first
    [ solve [auto with frame]
    | by apply preserves_file_at_write
    | by apply preserves_file_at_append
    | by apply preserves_file_at_append_in; rewrite <- app_assoc
    | progress cbv zeta
    | apply preserves_bind; [|intros] ].
Qed.

End IntegrateFrame.

(** X16.  [integrate] reads no input, and whatever it returns or raises it
    leaves every file other than its six targets as it was. *)
Theorem integrate_touches_only_targets
    (root : path) (cfg : service_config) (p : path) (s : state) :
  p ∉ integrate_targets root →
  files (Integrate.integrate root cfg s).2 !! p = files s !! p ∧
  stdin (Integrate.integrate root cfg s).2 = stdin s.
Proof.
  intros Hp. split.
  - exact (preserves_file_at_integrate root cfg p Hp s).
  - exact (preserves_stdin_integrate root cfg s).
Qed.

Lemma integrate_touches_only_targets_witness :
  let s := set_files (<[["opt"; "README.md"] := "# n8n-installer"]> example_project)
             (state_with_files ∅) in
  ["opt"; "README.md"] ∉ integrate_targets ["opt"] ∧
  (Integrate.integrate ["opt"] example_config s).1 = Ok tt ∧
  files (Integrate.integrate ["opt"] example_config s).2 !! ["opt"; "README.md"]
  = Some "# n8n-installer".
Proof.
  intros s.
  assert (["opt"; "README.md"] ∉ integrate_targets ["opt"]) as Hp.
  { unfold integrate_targets. rewrite !not_elem_of_cons. repeat split; try discriminate.
    apply not_elem_of_nil. }
  split; [exact Hp|]. split; [vm_compute; reflexivity|].
  rewrite (proj1 (integrate_touches_only_targets ["opt"] example_config _ s Hp)).
  vm_compute. reflexivity.
Defined.

Section CaddyDirectory.
Implicit Types (cfg : service_config) (s : state) (root p : path).

(** Writing a file that is not below [d] neither makes nor removes [d]. *)
Lemma dir_exists_set_files (d : path) p c s :
  ¬ d `prefix_of` p →
  dir_exists d (set_files (<[p := c]> (files s)) s) = dir_exists d s.
Proof.
  intros Hp. unfold dir_exists. cbn [folders files set_files]. f_equal.
  apply bool_decide_ext. rewrite dom_insert_L. unfold set_Exists. split.
  - intros (q & Hq & Hpre & Hne). exists q. split; [|done].
    apply elem_of_union in Hq as [Hq | Hq]; [|done].
    apply elem_of_singleton in Hq as ->. done.
  - intros (q & Hq & Hpre). exists q. split; [set_solver | done].
Qed.

Lemma caddy_dir_not_prefix root (x : string) : ¬ caddy_dir root `prefix_of` root ++ [x].
Proof.
  intros [k Hk]. unfold caddy_dir in Hk. rewrite <- app_assoc in Hk.
  by apply app_inv_head in Hk.
Qed.

(** A Caddyfile is in [config/caddy]: without the directory there is no
    such file. *)
Lemma no_caddy_dir_no_caddyfile root s :
  dir_exists (caddy_dir root) s = false → files s !! caddy_path root = None.
Proof.
  unfold dir_exists. intros H. apply orb_false_elim in H as [_ H].
  apply bool_decide_eq_false in H.
  destruct (files s !! caddy_path root) as [c|] eqn:E; [|done].
  exfalso. apply H. exists (caddy_path root). split.
  - apply elem_of_dom. eauto.
  - unfold caddy_dir, caddy_path. split.
    + exists ["Caddyfile"]. by rewrite <- app_assoc.
    + intros Heq. rewrite <- (app_nil_r (root ++ ["config"; "caddy"])) in Heq.
      rewrite <- !app_assoc in Heq. by apply app_inv_head in Heq.
Qed.

(** The first two steps of [integrate]. *)
Lemma integrate_first_two_steps root cfg s d :
  valid_name (name cfg) →
  description cfg = PStr d →
  let c1 := insert_after_first volumes_anchor (volume_line cfg)
              (default EmptyString (files s !! compose_path root) +:+ service_block cfg) in
  let c2 := default EmptyString (files s !! env_path root)
            +:+ env_block cfg (env_description_line d) in
  let s1 := set_files (<[compose_path root := c1]> (files s)) s in
  let s2 := set_files (<[env_path root := c2]> (files s1)) s1 in
  Integrate.add_to_docker_compose root cfg s = (Ok tt, s1) ∧
  Integrate.add_to_env_example root cfg s1 = (Ok tt, s2) ∧
  dir_exists (caddy_dir root) s2 = dir_exists (caddy_dir root) s.
Proof.
  intros Hn Hd c1 c2 s1 s2.
  assert (compose_path root ≠ env_path root) as N1 by (apply root_path_ne; discriminate).
  split; [|split].
  - unfold Integrate.add_to_docker_compose, bind, append_file, read_file, lift, write_file.
    fold (compose_path root). cbn [files set_files].
    rewrite lookup_insert_eq, (re_sub_first_volumes_total _ _ Hn).
    unfold s1, set_files. cbn [files folders stdin prompts dirs temp_dir remote].
    by rewrite insert_insert_eq.
  - unfold Integrate.add_to_env_example, bind, lift, append_file. rewrite Hd.
    fold (env_path root). unfold s2, c2, env_description_line.
    assert (files s1 !! env_path root = files s !! env_path root) as ->
      by (unfold s1; cbn [files set_files]; by rewrite lookup_insert_ne).
    by destruct (truthy (PStr d)).
  - unfold s2, s1.
    rewrite !dir_exists_set_files; [done | apply caddy_dir_not_prefix..].
Qed.

End CaddyDirectory.

(** X17.  [integrate] does not undo what it has done.  When the directory
    [config/caddy] exists and the wizard script is missing, it raises
    [FileNotFoundError] once the manifest, the environment template and the
    Caddyfile have been edited; when the directory is missing it raises
    [FileNotFoundError] at the Caddyfile, which is not created, once the
    manifest and the environment template have been edited. *)
Theorem integrate_not_transactional
    (root : path) (cfg : service_config) (s : state) (d : string) :
  valid_name (name cfg) →
  description cfg = PStr d →
  let s' := (Integrate.integrate root cfg s).2 in
  let edited :=
    files s' !! compose_path root
    = Some (insert_after_first volumes_anchor (volume_line cfg)
              (default EmptyString (files s !! compose_path root) +:+ service_block cfg)) ∧
    files s' !! env_path root
    = Some (default EmptyString (files s !! env_path root)
            +:+ env_block cfg (env_description_line d)) in
  (dir_exists (caddy_dir root) s = true →
   files s !! wizard_path root = None →
   (Integrate.integrate root cfg s).1 = Raise FileNotFoundError ∧ edited ∧
   files s' !! caddy_path root
   = Some (default EmptyString (files s !! caddy_path root) +:+ caddy_block cfg)) ∧
  (dir_exists (caddy_dir root) s = false →
   (Integrate.integrate root cfg s).1 = Raise FileNotFoundError ∧ edited ∧
   files s' !! caddy_path root = None).
Proof.
  intros Hn Hd.
  assert (compose_path root ≠ env_path root ∧ compose_path root ≠ caddy_path root ∧
          env_path root ≠ caddy_path root ∧ wizard_path root ≠ compose_path root ∧
          wizard_path root ≠ env_path root ∧ wizard_path root ≠ caddy_path root)
    as (N1 & N2 & N3 & N4 & N5 & N6)
    by (repeat split; apply root_path_ne; discriminate).
  destruct (integrate_first_two_steps root cfg s d Hn Hd) as (E1 & E2 & Edir).
  cbv zeta in E1, E2, Edir.
  set (c1 := insert_after_first volumes_anchor (volume_line cfg)
               (default EmptyString (files s !! compose_path root) +:+ service_block cfg))
    in *.
  set (c2 := default EmptyString (files s !! env_path root)
             +:+ env_block cfg (env_description_line d)) in *.
  set (s1 := set_files (<[compose_path root := c1]> (files s)) s) in *.
  set (s2 := set_files (<[env_path root := c2]> (files s1)) s1) in *.
  assert (files s2 !! caddy_path root = files s !! caddy_path root) as Ec
    by (unfold s2, s1; cbn [files set_files]; by rewrite !lookup_insert_ne).
  cbv zeta. split.
  - intros Hdir Hw.
    set (c3 := default EmptyString (files s !! caddy_path root) +:+ caddy_block cfg).
    set (s3 := set_files (<[caddy_path root := c3]> (files s2)) s2).
    assert (Integrate.add_to_caddyfile root cfg s2 = (Ok tt, s3)) as E3.
    { unfold Integrate.add_to_caddyfile, append_file_in. fold (caddy_dir root).
      rewrite Edir, Hdir. unfold append_file, caddy_dir. rewrite <- app_assoc.
      cbn [app]. fold (caddy_path root). by rewrite Ec. }
    assert (Integrate.add_to_wizard root cfg s3 = (Raise FileNotFoundError, s3)) as E4.
    { unfold Integrate.add_to_wizard, bind, read_file. fold (wizard_path root).
      assert (files s3 !! wizard_path root = None) as ->
        by (unfold s3, s2, s1; cbn [files set_files]; by rewrite !lookup_insert_ne).
      done. }
    assert (Integrate.integrate root cfg s = (Raise FileNotFoundError, s3)) as ->.
    { unfold Integrate.integrate.
      rewrite (bind_Ok _ _ _ _ _ E1), (bind_Ok _ _ _ _ _ E2), (bind_Ok _ _ _ _ _ E3).
      by rewrite (bind_Raise _ _ _ _ _ E4). }
    split; [done|]. unfold s3, s2, s1. cbn [snd files set_files].
    split; [split|].
    + rewrite !lookup_insert_ne by done. apply lookup_insert_eq.
    + rewrite lookup_insert_ne by done. apply lookup_insert_eq.
    + apply lookup_insert_eq.
  - intros Hdir.
    assert (Integrate.add_to_caddyfile root cfg s2 = (Raise FileNotFoundError, s2)) as E3.
    { unfold Integrate.add_to_caddyfile, append_file_in. fold (caddy_dir root).
      by rewrite Edir, Hdir. }
    assert (Integrate.integrate root cfg s = (Raise FileNotFoundError, s2)) as ->.
    { unfold Integrate.integrate.
      rewrite (bind_Ok _ _ _ _ _ E1), (bind_Ok _ _ _ _ _ E2).
      by rewrite (bind_Raise _ _ _ _ _ E3). }
    split; [done|]. cbn [snd]. rewrite Ec, (no_caddy_dir_no_caddyfile _ _ Hdir).
    split; [|done]. unfold s2, s1. cbn [files set_files]. split.
    + rewrite !lookup_insert_ne by done. apply lookup_insert_eq.
    + apply lookup_insert_eq.
Qed.

Lemma integrate_not_transactional_witness :
  let s := state_with_files {[ compose_path ["opt"] := example_manifest ]} in
  let t := State [] [] {[ compose_path ["opt"] := example_manifest ]}
             {[ caddy_dir ["opt"] ]} ∅ None None in
  ((Integrate.integrate ["opt"] example_config s).1 = Raise FileNotFoundError ∧
   files (Integrate.integrate ["opt"] example_config s).2 !! caddy_path ["opt"] = None ∧
   files (Integrate.integrate ["opt"] example_config s).2 !! env_path ["opt"]
   = Some (env_block example_config "A small service")) ∧
  ((Integrate.integrate ["opt"] example_config t).1 = Raise FileNotFoundError ∧
   files (Integrate.integrate ["opt"] example_config t).2 !! caddy_path ["opt"]
   = Some (caddy_block example_config)).
Proof.
  intros s t. split.
  - destruct (proj2 (integrate_not_transactional ["opt"] example_config s
                       "A small service" eq_refl eq_refl))
      as (H1 & (_ & H3) & H4); [vm_compute; reflexivity|].
    split; [exact H1|]. split; [exact H4 | exact H3].
  - destruct (proj1 (integrate_not_transactional ["opt"] example_config t
                       "A small service" eq_refl eq_refl))
      as (H1 & _ & H4); [vm_compute; reflexivity | reflexivity|].
    split; [exact H1 | exact H4].
Defined.

Section LazyFacts.

(** A lazy repetition stops at the first position at which what follows it
    succeeds: here what follows fails at every position before the end of
    the body. *)
Lemma repeat_match_lazy_first {R} (p : ascii → bool)
    (k : option ascii → string → option R) body :
  ∀ prev rest,
    string_forall p body = true →
    (∀ b1 c b2, body = b1 +:+ String c b2 →
                k (last_of prev b1) (String c b2 +:+ rest) = None) →
    is_Some (k (last_of prev body) rest) →
    repeat_match false p k 0 prev (body +:+ rest) = k (last_of prev body) rest.
Proof.
  induction body as [|c body IH]; intros prev rest Hall Hk Hend; simpl in *.
  - destruct Hend as [x Hx]. destruct rest as [|d rest]; simpl; [done|].
    rewrite Hx. by destruct (p d).
  - apply andb_true_iff in Hall as [Hp Hall].
    pose proof (Hk EmptyString c body eq_refl) as H0. simpl in H0. rewrite Hp, H0.
    apply IH; [done| |done].
    intros b1 c' b2 ->. exact (Hk (String c b1) c' b2 eq_refl).
Qed.

Lemma strip_prefix_split a b s :
  strip_prefix (a +:+ b) s =
  match strip_prefix a s with
  | Some t => strip_prefix b t
  | None => None
  end.
Proof.
  revert s. induction a as [|c a IH]; intros s; simpl; [done|].
  destruct s as [|d s]; [done|]. destruct (Ascii.eqb c d); [apply IH | done].
Qed.

Lemma contains_prefix a b s :
  is_Some (find_first (a +:+ b) s) → contains a s = true.
Proof.
  intros [[pre post] H]. apply find_first_Some in H. rewrite H, sapp_assoc.
  apply contains_app.
Qed.

Lemma string_forall_map (p : ascii → bool) (f : ascii → ascii) s :
  string_forall p (string_map f s) = string_forall (λ c, p (f c)) s.
Proof. induction s as [|c s IH]; simpl; [done | by rewrite IH]. Qed.

Lemma upper_no_backslash n : valid_name n → no_backslash (upper n) = true.
Proof.
  unfold valid_name, no_backslash, upper. rewrite string_forall_map.
  apply string_forall_impl. clear.
  intros c. destruct c as [[] [] [] [] [] [] [] []]; by vm_compute.
Qed.

End LazyFacts.

#[local] Arguments wizard_anchor : simpl never.

Section WizardAnchored.
Implicit Types (cfg : service_config) (s : state) (root : path).

Lemma re_wizard_entry_eq who :
  re_wizard_entry who
  = RSeq (RGroup (RSeq (lit (wizard_anchor who)) (RSeq (rstar_lazy not_newline) (lit dq))))
      (lit nl).
Proof. reflexivity. Qed.

Lemma match_here_wizard_entry who prev label post :
  string_forall not_newline label = true →
  match_here (re_wizard_entry who) prev
    (wizard_anchor who +:+ label +:+ dq +:+ nl +:+ post)
  = Some (post, Some (wizard_anchor who +:+ label +:+ dq)).
Proof.
  intros Hl. rewrite re_wizard_entry_eq. unfold match_here.
  cbn [rmatch rstar_lazy]. rewrite rmatch_lit, strip_prefix_app.
  rewrite (repeat_match_lazy_first not_newline).
  - rewrite rmatch_lit. change (dq +:+ nl +:+ post) with (dq +:+ (nl +:+ post)).
    rewrite strip_prefix_app, rmatch_lit, strip_prefix_app.
    do 3 f_equal.
    rewrite <- (sapp_assoc label dq), <- (sapp_assoc (wizard_anchor who)).
    apply string_take_consumed.
  - exact Hl.
  - intros b1 c b2 E. rewrite rmatch_lit. unfold dq at 1. cbn [strip_prefix String.append].
    destruct (Ascii.eqb dq_char c); [|done]. rewrite rmatch_lit.
    assert (string_forall not_newline b2 = true) as Hb2.
    { rewrite E, string_forall_app in Hl. apply andb_true_iff in Hl as [_ Hl].
      simpl in Hl. by apply andb_true_iff in Hl as [_ Hl]. }
    destruct b2 as [|c2 b2]; [done|].
    simpl in Hb2. apply andb_true_iff in Hb2 as [Hc2 _].
    unfold not_newline, is_char in Hc2. apply negb_true_iff in Hc2.
    unfold nl. cbn [strip_prefix String.append]. by rewrite Hc2.
  - rewrite rmatch_lit. change (dq +:+ nl +:+ post) with (dq +:+ (nl +:+ post)).
    rewrite strip_prefix_app, rmatch_lit, strip_prefix_app. eauto.
Qed.

End WizardAnchored.

(** X18.  When the first [outline] anchor of the wizard script, the quoted
    word [outline], a space and a quote, is on a line that ends with a
    quote, [add_to_wizard] writes the new entry on the line after that
    line, whatever stands between the anchor and the last quote of the
    line, more quotes too; the display name holds no backslash. *)
Theorem add_to_wizard_after_outline
    (root : path) (cfg : service_config) (s : state) (content pre label post : string) :
  files s !! wizard_path root = Some content →
  find_first (wizard_anchor "outline") content
  = Some (pre, label +:+ dq +:+ nl +:+ post) →
  string_forall not_newline label = true →
  valid_name (name cfg) →
  no_backslash (py_str (display_name cfg)) = true →
  Integrate.add_to_wizard root cfg s =
  (Ok tt,
   set_files (<[wizard_path root :=
                  pre +:+ wizard_anchor "outline" +:+ label +:+ dq +:+ nl
                  +:+ service_line cfg +:+ post]> (files s)) s).
Proof.
  intros Hfile Hf Hl Hn Hdn.
  assert (contains (dq +:+ "outline" +:+ dq) content = true) as Hc.
  { apply (contains_prefix _ (" " +:+ dq)). rewrite !sapp_assoc. change
      (dq +:+ "outline" +:+ dq +:+ " " +:+ dq) with (wizard_anchor "outline"). eauto. }
  unfold Integrate.add_to_wizard, bind, read_file, lift, write_file.
  fold (wizard_path root). rewrite Hfile, Hc, wizard_repl_eq.
  unfold re_sub_first. rewrite parse_template_after.
  - cbn [rbind]. unfold re_search. rewrite re_wizard_entry_eq.
    rewrite (search_from_first (wizard_anchor "outline") _
               (begins_with_seq_group_seq _ _ _) _ _ _ _ post
               (Some (wizard_anchor "outline" +:+ label +:+ dq)) Hf).
    + cbn [m_before m_after]. rewrite expand_after. unfold group1. cbn [m_group1 default].
      unfold id. by rewrite !sapp_assoc.
    + rewrite <- re_wizard_entry_eq. by apply match_here_wizard_entry.
  - rewrite no_backslash_app. by rewrite service_line_no_backslash.
  - reflexivity.
Qed.

Lemma add_to_wizard_after_outline_witness :
  let content := concat_strings [
    "base_services_data=("; nl;
    "    "; dq; "outline"; dq; " "; dq; "Outline"; dq; " "; dq; "OFF"; dq; nl;
    "    "; dq; "outline"; dq; " "; dq; "Outline wiki"; dq; nl; ")"; nl ] in
  let s := state_with_files {[ wizard_path ["opt"] := content ]} in
  files (Integrate.add_to_wizard ["opt"] example_config s).2 !! wizard_path ["opt"]
  = Some (concat_strings [
    "base_services_data=("; nl;
    "    "; dq; "outline"; dq; " "; dq; "Outline"; dq; " "; dq; "OFF"; dq; nl;
    "    "; dq; "myapp"; dq; " "; dq; "My App"; dq; nl;
    "    "; dq; "outline"; dq; " "; dq; "Outline wiki"; dq; nl; ")"; nl ]).
Proof.
  intros content s.
  rewrite (add_to_wizard_after_outline ["opt"] example_config s content
             (concat_strings ["base_services_data=("; nl; "    "])
             (concat_strings ["Outline"; dq; " "; dq; "OFF"])
             (concat_strings ["    "; dq; "outline"; dq; " "; dq; "Outline wiki"; dq; nl;
                              ")"; nl]));
    vm_compute; reflexivity.
Defined.

(** X19.  When ["outline"] occurs in the wizard script but no entry of
    [outline] does, [add_to_wizard] leaves the script as it is: the anchor
    of [docmost] and the data block are not tried. *)
Theorem add_to_wizard_outline_without_entry
    (root : path) (cfg : service_config) (s : state) (content : string) :
  files s !! wizard_path root = Some content →
  contains (dq +:+ "outline" +:+ dq) content = true →
  find_first (wizard_anchor "outline") content = None →
  valid_name (name cfg) →
  no_backslash (py_str (display_name cfg)) = true →
  Integrate.add_to_wizard root cfg s = (Ok tt, s).
Proof.
  intros Hfile Hc Hf Hn Hdn.
  unfold Integrate.add_to_wizard, bind, read_file, lift, write_file.
  fold (wizard_path root). rewrite Hfile, Hc, wizard_repl_eq.
  unfold re_sub_first. rewrite parse_template_after.
  - cbn [rbind]. unfold re_search. rewrite re_wizard_entry_eq.
    rewrite (search_from_none (wizard_anchor "outline") _
               (begins_with_seq_group_seq _ _ _) _ _ Hf).
    by rewrite set_files_same.
  - rewrite no_backslash_app. by rewrite service_line_no_backslash.
  - reflexivity.
Qed.

Lemma add_to_wizard_outline_without_entry_witness :
  let content := concat_strings [
    "# "; dq; "outline"; dq; " is offered below"; nl;
    "base_services_data=("; nl;
    "    "; dq; "docmost"; dq; " "; dq; "Docmost"; dq; nl; ")"; nl ] in
  let s := state_with_files {[ wizard_path ["opt"] := content ]} in
  contains (dq +:+ "docmost" +:+ dq) content = true ∧
  Integrate.add_to_wizard ["opt"] example_config s = (Ok tt, s).
Proof.
  intros content s. split; [vm_compute; reflexivity|].
  apply (add_to_wizard_outline_without_entry ["opt"] example_config s content);
    vm_compute; reflexivity.
Defined.

#[local] Arguments secret_entry : simpl never.
#[local] Arguments secret_line : simpl never.
#[local] Arguments closing_anchor : simpl never.
#[local] Arguments report_test : simpl never.
#[local] Arguments report_block : simpl never.

Section Secrets.
Implicit Types (cfg : service_config) (s : state) (root : path).

Lemma re_secret_entry_eq who :
  re_secret_entry who = RSeq (RGroup (lit (secret_entry who))) (lit nl).
Proof. reflexivity. Qed.

Lemma begins_with_entry_line w r :
  r = RSeq (RGroup (lit w)) (lit nl) → begins_with (w +:+ nl) r.
Proof.
  intros -> prev s H. unfold match_here. cbn [rmatch]. rewrite rmatch_lit.
  rewrite strip_prefix_split in H.
  destruct (strip_prefix w s) as [t|]; [|done]. by rewrite rmatch_lit, H.
Qed.

Lemma match_here_entry_line w prev post :
  match_here (RSeq (RGroup (lit w)) (lit nl)) prev ((w +:+ nl) +:+ post)
  = Some (post, Some w).
Proof.
  unfold match_here. cbn [rmatch]. rewrite sapp_assoc, rmatch_lit, strip_prefix_app.
  rewrite rmatch_lit, strip_prefix_app. by rewrite string_take_consumed.
Qed.

Lemma secret_line_no_backslash cfg :
  valid_name (name cfg) → no_backslash (secret_line cfg) = true.
Proof.
  intros Hn. unfold secret_line, concat_strings. cbn [foldr].
  rewrite !no_backslash_app, (upper_no_backslash _ Hn). reflexivity.
Qed.

End Secrets.

(** X20.  When the secrets script declares the secret of [outline],
    [["OUTLINE_APP_SECRET"]="hex:64"] at the end of a line, [add_to_secrets]
    writes the declaration of the new secret on the line after the first of
    them. *)
Theorem add_to_secrets_after_outline
    (root : path) (cfg : service_config) (s : state) (content pre post : string) :
  files s !! secrets_path root = Some content →
  find_first (secret_entry "OUTLINE" +:+ nl) content = Some (pre, post) →
  valid_name (name cfg) →
  Integrate.add_to_secrets root cfg s =
  (Ok tt,
   set_files (<[secrets_path root :=
                  pre +:+ secret_entry "OUTLINE" +:+ nl +:+ secret_line cfg +:+ post]>
                (files s)) s).
Proof.
  intros Hfile Hf Hn.
  assert (contains "OUTLINE_APP_SECRET" content = true) as Hc.
  { pose proof (find_first_Some _ _ _ _ Hf) as ->.
    change (pre +:+ (secret_entry "OUTLINE" +:+ nl) +:+ post)
      with (pre +:+ ("[" +:+ dq) +:+ "OUTLINE_APP_SECRET"
            +:+ (dq +:+ "]=" +:+ dq +:+ "hex:64" +:+ dq +:+ nl) +:+ post).
    rewrite <- (sapp_assoc pre). apply contains_app. }
  unfold Integrate.add_to_secrets, bind, read_file, lift, write_file.
  fold (secrets_path root). rewrite Hfile, Hc.
  assert (concat_strings [bs; "1"; nl; secret_line cfg]
          = String bs_char (String "1"%char (nl +:+ secret_line cfg))) as ->.
  { unfold concat_strings. cbn [foldr]. by rewrite sapp_nil_r. }
  unfold re_sub_first. rewrite parse_template_after.
  - cbn [rbind]. unfold re_search. rewrite re_secret_entry_eq.
    rewrite (search_from_first (secret_entry "OUTLINE" +:+ nl) _
               (begins_with_entry_line _ _ eq_refl) _ _ _ _ post
               (Some (secret_entry "OUTLINE")) Hf).
    + cbn [m_before m_after]. rewrite expand_after. unfold group1.
      cbn [m_group1 default]. unfold id. by rewrite !sapp_assoc.
    + apply match_here_entry_line.
  - rewrite no_backslash_app. by rewrite secret_line_no_backslash.
  - reflexivity.
Qed.

Lemma add_to_secrets_after_outline_witness :
  let content := concat_strings [
    "declare -A VARS=("; nl;
    "    "; secret_entry "OUTLINE"; nl;
    "    "; secret_entry "DOCMOST"; nl; ")"; nl ] in
  let s := state_with_files {[ secrets_path ["opt"] := content ]} in
  files (Integrate.add_to_secrets ["opt"] example_config s).2 !! secrets_path ["opt"]
  = Some (concat_strings [
    "declare -A VARS=("; nl;
    "    "; secret_entry "OUTLINE"; nl;
    "    "; secret_entry "MYAPP"; nl;
    "    "; secret_entry "DOCMOST"; nl; ")"; nl ]).
Proof.
  intros content s.
  rewrite (add_to_secrets_after_outline ["opt"] example_config s content
             (concat_strings ["declare -A VARS=("; nl; "    "])
             (concat_strings ["    "; secret_entry "DOCMOST"; nl; ")"; nl]));
    vm_compute; reflexivity.
Defined.

(** X21.  When the secrets script names neither [OUTLINE_APP_SECRET] nor
    [DOCMOST_APP_SECRET], [add_to_secrets] writes the new declaration right
    before the first line that begins with a closing parenthesis, and
    leaves the script as it is when there is no such line. *)
Theorem add_to_secrets_fallback
    (root : path) (cfg : service_config) (s : state) (content : string) :
  files s !! secrets_path root = Some content →
  contains "OUTLINE_APP_SECRET" content = false →
  contains "DOCMOST_APP_SECRET" content = false →
  valid_name (name cfg) →
  Integrate.add_to_secrets root cfg s =
  (Ok tt,
   set_files (<[secrets_path root :=
                  insert_before_first closing_anchor (secret_line cfg) content]>
                (files s)) s).
Proof.
  intros Hfile Ho Hd Hn.
  unfold Integrate.add_to_secrets, bind, read_file, lift, write_file.
  fold (secrets_path root). rewrite Hfile, Ho, Hd.
  assert (concat_strings [secret_line cfg; bs; "1"]
          = secret_line cfg +:+ String bs_char "1") as -> by reflexivity.
  unfold re_sub_first. rewrite parse_template_before
    by (by apply secret_line_no_backslash).
  cbn [rbind]. unfold insert_before_first, re_closing. fold closing_anchor.
  destruct (find_first closing_anchor content) as [[pre post]|] eqn:Hf.
  - rewrite (re_search_group_lit _ _ _ _ Hf). cbn [m_before m_after].
    rewrite expand_before. unfold group1. cbn [m_group1 default]. unfold id.
    by rewrite !sapp_assoc.
  - unfold re_search.
    by rewrite (search_from_none _ _ (begins_with_group_lit closing_anchor) _ _ Hf).
Qed.

Lemma add_to_secrets_fallback_witness :
  let content := concat_strings ["declare -A VARS=("; nl; "    ";
                                 secret_entry "N8N"; nl; ")"; nl] in
  let s := state_with_files {[ secrets_path ["opt"] := content ]} in
  files (Integrate.add_to_secrets ["opt"] example_config s).2 !! secrets_path ["opt"]
  = Some (concat_strings ["declare -A VARS=("; nl; "    "; secret_entry "N8N";
                          "    "; secret_entry "MYAPP"; nl; nl; ")"; nl]).
Proof.
  intros content s.
  rewrite (add_to_secrets_fallback ["opt"] example_config s content);
    vm_compute; reflexivity.
Defined.

Section Report.
Implicit Types (cfg : service_config) (s : state) (root : path).

Lemma report_block_no_backslash cfg :
  valid_name (name cfg) →
  no_backslash (py_str (display_name cfg)) = true →
  no_backslash (py_str (description cfg)) = true →
  no_backslash (report_block cfg) = true.
Proof.
  intros Hn Hdn Hd. unfold report_block, concat_strings. cbn [foldr].
  rewrite !no_backslash_app, (valid_name_no_backslash _ Hn),
    (upper_no_backslash _ Hn), Hdn, Hd. reflexivity.
Qed.

End Report.

(** X22.  When the report script has no section of [outline] or of
    [docmost] and has the test [if is_profile_active "paddleocr"],
    [add_to_final_report] writes the new section, then an empty line, right
    before the first such test; display name and description hold no
    backslash. *)
Theorem add_to_final_report_before_paddleocr
    (root : path) (cfg : service_config) (s : state) (content pre post : string) :
  files s !! report_path root = Some content →
  contains (Integrate.report_anchor "outline") content = false →
  contains (Integrate.report_anchor "docmost") content = false →
  find_first (report_test "paddleocr") content = Some (pre, post) →
  valid_name (name cfg) →
  no_backslash (py_str (display_name cfg)) = true →
  no_backslash (py_str (description cfg)) = true →
  Integrate.add_to_final_report root cfg s =
  (Ok tt,
   set_files (<[report_path root :=
                  pre +:+ report_block cfg +:+ nl +:+ report_test "paddleocr" +:+ post]>
                (files s)) s).
Proof.
  intros Hfile Ho Hd Hf Hn Hdn Hds.
  assert (contains (Integrate.report_anchor "paddleocr") content = true) as Hc.
  { pose proof (find_first_Some _ _ _ _ Hf) as ->.
    change (pre +:+ report_test "paddleocr" +:+ post)
      with (pre +:+ "if " +:+ Integrate.report_anchor "paddleocr" +:+ post).
    rewrite <- (sapp_assoc pre). apply contains_app. }
  unfold Integrate.add_to_final_report, bind, read_file, lift, write_file.
  fold (report_path root). rewrite Hfile, Ho, Hd, Hc.
  assert (concat_strings [report_block cfg; nl; bs; "1"]
          = (report_block cfg +:+ nl) +:+ String bs_char "1") as ->.
  { unfold concat_strings. cbn [foldr]. by rewrite sapp_assoc. }
  unfold re_sub_first. rewrite parse_template_before.
  - cbn [rbind].
    change (re_report_test "paddleocr") with (RGroup (lit (report_test "paddleocr"))).
    rewrite (re_search_group_lit _ _ _ _ Hf). cbn [m_before m_after].
    rewrite expand_before. unfold group1. cbn [m_group1 default]. unfold id.
    by rewrite !sapp_assoc.
  - rewrite no_backslash_app. by rewrite report_block_no_backslash.
Qed.

Lemma add_to_final_report_before_paddleocr_witness :
  let content := concat_strings [
    "#!/bin/bash"; nl; report_test "paddleocr"; "; then"; nl; "  echo ocr"; nl; "fi"; nl ] in
  let s := state_with_files {[ report_path ["opt"] := content ]} in
  files (Integrate.add_to_final_report ["opt"] example_config s).2 !! report_path ["opt"]
  = Some (concat_strings [
      "#!/bin/bash"; nl; report_block example_config; nl;
      report_test "paddleocr"; "; then"; nl; "  echo ocr"; nl; "fi"; nl ]).
Proof.
  intros content s.
  rewrite (add_to_final_report_before_paddleocr ["opt"] example_config s content
             ("#!/bin/bash" +:+ nl)
             (concat_strings ["; then"; nl; "  echo ocr"; nl; "fi"; nl]));
    vm_compute; reflexivity.
Defined.

Section LegacyMain.
Implicit Types (self : analyzer) (root p : path) (s : state).

Lemma preserves_file_at_legacy_integrate root cfg p :
  p ∉ legacy_targets root → preserves (file_at p) (Legacy.integrate root cfg).
Proof.
  unfold legacy_targets. rewrite !not_elem_of_cons.
  unfold compose_path, env_path. intros (N1 & N2 & N3 & _).
  unfold Legacy.integrate, Legacy.add_to_docker_compose, Legacy.add_to_env_example,
    Legacy.add_to_caddyfile.
  repeat first
    [ solve [auto with frame]
    | by apply preserves_file_at_write
    | by apply preserves_file_at_append
    | progress cbv zeta
    | apply preserves_bind; [|intros] ].
Qed.

Lemma preserves_file_at_legacy_interactive_config analysis p :
  preserves (file_at p) (Legacy.interactive_config analysis).
Proof. unfold Legacy.interactive_config. frame. Qed.

Lemma preserves_file_at_run_analysis self p : preserves (file_at p) (run_analysis self).
Proof. intros s. by rewrite run_analysis_state. Qed.

Lemma preserves_file_at_legacy_main_body self root p :
  p ∉ legacy_targets root → preserves (file_at p) (legacy_main_body self root).
Proof.
  intros Hp. unfold legacy_main_body.
  pose proof (preserves_file_at_legacy_integrate root) as Hi.
  pose proof preserves_file_at_legacy_interactive_config as Hc.
  apply preserves_bind; [apply preserves_file_at_run_analysis | intros a].
  apply preserves_if; [apply preserves_mret|].
  apply preserves_bind; [apply Hc | intros r].
  apply preserves_if; [|apply preserves_mret].
  apply preserves_bind; [by apply Hi | intros; apply preserves_mret].
Qed.

Lemma keeps_legacy_interactive_config analysis :
  keeps_workspace (Legacy.interactive_config analysis).
Proof. unfold Legacy.interactive_config. keeps. Qed.

Lemma keeps_legacy_integrate root cfg : keeps_workspace (Legacy.integrate root cfg).
Proof.
  unfold Legacy.integrate, Legacy.add_to_docker_compose, Legacy.add_to_env_example,
    Legacy.add_to_caddyfile.
  keeps.
Qed.

Lemma legacy_main_body_workspace self root s :
  dirs (legacy_main_body self root s).2 = dirs (with_workspace s) ∧
  temp_dir (legacy_main_body self root s).2 = temp_dir (with_workspace s).
Proof.
  assert (∀ a, keeps_workspace
              (if negb (truthy (dict_get a "has_docker_compose" PNone))
                  && negb (truthy (dict_get a "has_dockerfile" PNone))
               then mret (Some 1%Z)
               else r <- Legacy.interactive_config a ;;
                    if r.1 then Legacy.integrate root r.2 ;;; mret None
                    else mret (Some 1%Z))) as K.
  { intros a. pose proof keeps_legacy_interactive_config.
    pose proof keeps_legacy_integrate. keeps. }
  unfold legacy_main_body. rewrite <- (run_analysis_state self s). split.
  - apply (bind_after dirs). intros a s1. apply K.
  - apply (bind_after temp_dir). intros a s1. apply K.
Qed.

Lemma legacy_main_state self root s :
  (Legacy.main self root s).2
  = set_dirs (dirs s) (legacy_main_body self root (set_temp_dir None s)).2.
Proof.
  change (Legacy.main self root s)
    with ((modify (set_temp_dir None) ;;;
           early <- try_finally (legacy_main_body self root) (cleanup self) ;;
           mret (default 0%Z early)) s).
  unfold bind at 1. unfold modify. unfold bind, try_finally.
  destruct (legacy_main_body_workspace self root (set_temp_dir None s)) as [Hd Ht].
  destruct (legacy_main_body self root (set_temp_dir None s)) as [r s1].
  simpl in Hd, Ht. rewrite (cleanup_with_workspace self _ s1 Hd Ht).
  by destruct r as [[z|]|e].
Qed.

End LegacyMain.

(** X23.  The older [main], whatever it returns or raises, leaves the
    temporary directories as they were before the run, and leaves every
    file other than the manifest, the environment template and [Caddyfile]
    at the project root as it was: the Caddyfile under [config/caddy] and
    the install scripts are not its targets. *)
Theorem legacy_main_touches_only_targets
    (self : analyzer) (root p : path) (s : state) :
  p ∉ legacy_targets root →
  files (Legacy.main self root s).2 !! p = files s !! p ∧
  dirs (Legacy.main self root s).2 = dirs s.
Proof.
  intros Hp. rewrite legacy_main_state. split; [|done].
  exact (preserves_file_at_legacy_main_body self root p Hp (set_temp_dir None s)).
Qed.

Lemma legacy_main_touches_only_targets_witness :
  let s := example_state accept_all (Some (dockerfile_only example_dockerfile)) in
  (Legacy.main example_analyzer ["opt"] s).1 = Ok 0%Z ∧
  files (Legacy.main example_analyzer ["opt"] s).2 !! caddy_path ["opt"]
  = Some ("# Caddyfile" +:+ nl) ∧
  files (Legacy.main example_analyzer ["opt"] s).2 !! ["opt"; "Caddyfile"]
  = Some (caddy_block (ServiceConfig "myapp" (PStr "my-app") (PStr EmptyString)
                         (PStr "3000") (PStr "acme/my-app:latest") "myapp"
                         (PBool false) (PBool false))).
Proof.
  intros s.
  assert (caddy_path ["opt"] ∉ legacy_targets ["opt"]) as Hp.
  { unfold legacy_targets. rewrite !not_elem_of_cons. repeat split; try discriminate.
    apply not_elem_of_nil. }
  split; [vm_compute; reflexivity|]. split.
  - rewrite (proj1 (legacy_main_touches_only_targets example_analyzer ["opt"] _ s Hp)).
    vm_compute. reflexivity.
  - vm_compute. reflexivity.
Defined.

Section Ports.
Implicit Types (q h post : string).

Lemma match_here_ports_other prev c u :
  negb (is_char "-"%char c) = true → match_here re_ports prev (String c u) = None.
Proof.
  intros Hc. unfold match_here, re_ports. cbn [rseq rmatch lit].
  by apply negb_true_iff in Hc as ->.
Qed.

Lemma digit_not_quote d : is_digit d = true → is_quote d = false.
Proof. destruct d as [[] [] [] [] [] [] [] []]; by vm_compute. Qed.

Lemma match_here_digits_colon prev h post g :
  h ≠ EmptyString → string_forall is_digit h = true →
  rmatch (RSeq (RGroup (rplus is_digit)) (lit ":")) prev (h +:+ ":" +:+ post) g
    (λ _ t g', Some (t, g'))
  = Some (post, Some h).
Proof.
  intros Hne Hh. cbn [rmatch rplus].
  rewrite repeat_match_greedy.
  - rewrite rmatch_lit. change (":" +:+ post) with (String ":" post).
    cbn [strip_prefix]. rewrite Ascii.eqb_refl. cbn [strip_prefix].
    change (String ":" post) with (":" +:+ post).
    replace (String.length (h +:+ ":" +:+ post) - String.length (":" +:+ post))
      with (String.length h) by (rewrite !slength_app; lia).
    by rewrite string_take_app.
  - exact Hh.
  - destruct h; [done | simpl; lia].
  - reflexivity.
  - rewrite rmatch_lit. change (":" +:+ post) with (String ":" post).
    cbn [strip_prefix]. rewrite Ascii.eqb_refl. cbn [strip_prefix]. eauto.
Qed.

Lemma rmatch_ropt_skip {R} p prev d u g
    (k : option ascii → string → option string → option R) :
  p d = false → rmatch (ropt p) prev (String d u) g k = k prev (String d u) g.
Proof. intros Hd. unfold ropt. cbn [rmatch]. by rewrite Hd. Qed.

Lemma rmatch_ropt_take {R} p prev c t g
    (k : option ascii → string → option string → option R) :
  p c = true → is_Some (k (Some c) t g) →
  rmatch (ropt p) prev (String c t) g k = k (Some c) t g.
Proof. intros Hc [x Hx]. unfold ropt. cbn [rmatch]. by rewrite Hc, Hx. Qed.

Lemma match_here_ports_mapping prev q h post :
  opening_quote q → h ≠ EmptyString → string_forall is_digit h = true →
  match_here re_ports prev ("- " +:+ q +:+ h +:+ ":" +:+ post) = Some (post, Some h).
Proof.
  intros Hq Hne Hh. unfold match_here, re_ports. cbn [rseq].
  change (rmatch (RSeq (lit "- ") ?r) ?p ?s ?g ?k)
    with (rmatch (lit "- ") p s g (λ pv t g', rmatch r pv t g' k)).
  rewrite rmatch_lit, strip_prefix_app.
  change (rmatch (RSeq (ropt is_quote) ?r) ?p ?s ?g ?k)
    with (rmatch (ropt is_quote) p s g (λ pv t g', rmatch r pv t g' k)).
  destruct Hq as [-> | [-> | ->]].
  - destruct h as [|d h]; [done|].
    pose proof Hh as Hh'. simpl in Hh'. apply andb_true_iff in Hh' as [Hd _].
    change (EmptyString +:+ String d h +:+ ":" +:+ post)
      with (String d (h +:+ ":" +:+ post)).
    rewrite (rmatch_ropt_skip _ _ _ _ _ _ (digit_not_quote _ Hd)).
    exact (match_here_digits_colon _ (String d h) post None Hne Hh).
  - change (dq +:+ h +:+ ":" +:+ post) with (String dq_char (h +:+ ":" +:+ post)).
    rewrite rmatch_ropt_take.
    + exact (match_here_digits_colon _ h post None Hne Hh).
    + reflexivity.
    + rewrite (match_here_digits_colon _ h post None Hne Hh). eauto.
  - change (sq +:+ h +:+ ":" +:+ post) with (String sq_char (h +:+ ":" +:+ post)).
    rewrite rmatch_ropt_take.
    + exact (match_here_digits_colon _ h post None Hne Hh).
    + reflexivity.
    + rewrite (match_here_digits_colon _ h post None Hne Hh). eauto.
Qed.

Lemma findall_ports_first pre q h post :
  no_dash pre = true → opening_quote q → h ≠ EmptyString →
  string_forall is_digit h = true →
  ∃ rest, re_findall re_ports (pre +:+ "- " +:+ q +:+ h +:+ ":" +:+ post) = h :: rest.
Proof.
  intros Hpre Hq Hne Hh. unfold re_findall.
  rewrite (scan_matches_pass re_ports _ pre _ None match_here_ports_other Hpre).
  change ("- " +:+ q +:+ h +:+ ":" +:+ post)
    with (String "-" (" " +:+ q +:+ h +:+ ":" +:+ post)).
  cbn [scan_matches].
  change (String "-" (" " +:+ q +:+ h +:+ ":" +:+ post))
    with ("- " +:+ q +:+ h +:+ ":" +:+ post).
  rewrite (match_here_ports_mapping _ _ _ _ Hq Hne Hh). cbn [default]. unfold id.
  eauto.
Qed.

End Ports.

(** X24.  The default that the port prompt offers is the number before the
    colon in the first port mapping of the compose manifest, that is, the
    host side of the mapping: when no dash comes before [- H:C], the list
    [ports] of the analysis begins with [H], and both copies offer [H]. *)
Theorem compose_first_mapping_is_default_port
    (self : analyzer) (r : repo) (pkg : dict) (pre q h post : string) :
  text_files r !! "docker-compose.yml" = Some (pre +:+ "- " +:+ q +:+ h +:+ ":" +:+ post) →
  analyze_package_json r = Ok pkg →
  no_dash pre = true →
  opening_quote q →
  h ≠ EmptyString →
  string_forall is_digit h = true →
  Integrate.default_port (merge_facts self r pkg) = Ok (PStr h) ∧
  Legacy.default_port (merge_facts self r pkg) = Ok (PStr h).
Proof.
  intros Hfile Hpkg Hpre Hq Hne Hh.
  destruct (findall_ports_first pre q h post Hpre Hq Hne Hh) as [rest Hrest].
  assert (merge_facts self r pkg !! "ports" = Some (PList (h :: rest))) as Hports.
  { apply merge_facts_compose; try done;
      try (unfold readme_keys, package_keys; set_unfold; naive_solver).
    unfold analyze_docker_compose. cbn [first_existing]. rewrite Hfile.
    rewrite Hrest. by simplify_map_eq. }
  unfold Integrate.default_port, Legacy.default_port, dict_get.
  rewrite Hports. cbn [default truthy py_first rbind]. unfold id. cbn [truthy py_first].
  split; [done|]. unfold py_or. cbn [truthy].
  destruct h; [done | reflexivity].
Qed.

Lemma compose_first_mapping_is_default_port_witness :
  let content := concat_strings ["services:"; nl; "  web:"; nl; "    ports:"; nl;
                                 "      - "; dq; "8080:80"; dq; nl] in
  let r := single_file "docker-compose.yml" content in
  Integrate.default_port (merge_facts example_analyzer r ∅) = Ok (PStr "8080").
Proof.
  intros content r.
  refine (proj1 (compose_first_mapping_is_default_port example_analyzer r ∅
            (concat_strings ["services:"; nl; "  web:"; nl; "    ports:"; nl; "      "])
            dq "8080" (concat_strings ["80"; dq; nl]) _ _ _ _ _ _)).
  - vm_compute. reflexivity.
  - reflexivity.
  - reflexivity.
  - right. by left.
  - discriminate.
  - reflexivity.
Defined.
